(** * Pytorch-UNet evaluation: a shallow embedding of [evaluate.py] and
    [evaluate_dataset.py]

    The development follows the layout of the repository:

    - [Py]: the fragment of the Python runtime the two files rely on
      (exception classes, the numbers that [evaluate] accumulates, [range]).
    - [Tensor]: n-dimensional arrays as nested lists, with the tensor
      operations that [evaluate] calls ([squeeze], [one_hot], [permute],
      [argmax], slicing, [min]/[max]).
    - [DiceScore]: [utils/dice_score.py], which the two files import.
    - [Evaluate]: [evaluate.py].
    - [EvaluateDataset]: [evaluate_dataset.py].
    - [Claimed]: the notions of the specification that the theorems compare
      the code with.
    - [Fixture]: small concrete collaborators and inputs.
    - [Observed]: notions used to state what the loaders yield, what a
      batch contributes and where directories are created.

    Numbers are exact rationals ([Q]): the development is about the
    arithmetic the code prescribes, not about rounding in [float32].  Where a
    result is compared up to the value of a rational, [==] ([Qeq]) is used. *)

From Stdlib Require Import ZArith QArith Qround Qfield Bool String List Lia Lqa.
Import ListNotations.

Local Open Scope Z_scope.

(* ===================================================================== *)
(** ** Python runtime fragment *)
(* ===================================================================== *)

Module Py.

(** The exception classes that occur in the two files and in the library
    calls they make.  [ShapeError] is the shape-mismatch error of the Dice
    module; the last four are the [OSError] subclasses of the file system
    calls. *)
Inductive exn_class : Type :=
| AssertionError
| RuntimeError
| NotImplementedError
| IndexError
| TypeError
| AttributeError
| ValueError
| ZeroDivisionError
| StopIteration
| OSError
| ShapeError
| FileNotFoundError
| NotADirectoryError
| IsADirectoryError
| FileExistsError.

Definition exn_class_eqb (a b : exn_class) : bool :=
  match a, b with
  | AssertionError, AssertionError
  | RuntimeError, RuntimeError
  | NotImplementedError, NotImplementedError
  | IndexError, IndexError
  | TypeError, TypeError
  | AttributeError, AttributeError
  | ValueError, ValueError
  | ZeroDivisionError, ZeroDivisionError
  | StopIteration, StopIteration
  | OSError, OSError
  | ShapeError, ShapeError
  | FileNotFoundError, FileNotFoundError
  | NotADirectoryError, NotADirectoryError
  | IsADirectoryError, IsADirectoryError
  | FileExistsError, FileExistsError => true
  | _, _ => false
  end.

(** [issubclass a b] for the classes above: [NotImplementedError] is a
    [RuntimeError], and the four file system errors are [OSError]s. *)
Definition issubclass (a b : exn_class) : bool :=
  exn_class_eqb a b ||
  match a, b with
  | NotImplementedError, RuntimeError
  | FileNotFoundError, OSError
  | NotADirectoryError, OSError
  | IsADirectoryError, OSError
  | FileExistsError, OSError => true
  | _, _ => false
  end.

Record exn : Type := mkExn { exn_cls : exn_class; exn_msg : string }.

(** A computation either returns a value or raises. *)
Inductive result (A : Type) : Type :=
| Ok (a : A)
| Raise (e : exn).
Arguments Ok {A} a.
Arguments Raise {A} e.

Definition bind {A B : Type} (c : result A) (k : A -> result B) : result B :=
  match c with
  | Ok a => k a
  | Raise e => Raise e
  end.

Definition raise {A : Type} (c : exn_class) (msg : string) : result A :=
  Raise (mkExn c msg).

Definition is_ok {A : Type} (r : result A) : bool :=
  match r with Ok _ => true | Raise _ => false end.

(** [assert cond, msg] *)
Definition py_assert (cond : bool) (msg : string) : result unit :=
  if cond then Ok tt else raise AssertionError msg.

(** The numbers [evaluate] accumulates: [dice_score = 0] starts as a Python
    [int]; [+=] with a 0-dimensional tensor rebinds it to a tensor; [/] on
    two Python numbers is true division and yields a [float]. *)
Inductive pynum : Type :=
| PyInt (z : Z)
| PyFloat (q : Q)
| Tensor0 (q : Q).

Definition num_value (x : pynum) : Q :=
  match x with
  | PyInt z => inject_Z z
  | PyFloat q => q
  | Tensor0 q => q
  end.

(** [acc += t] for a 0-dimensional tensor [t]. *)
Definition iadd_tensor (acc : pynum) (t : Q) : pynum :=
  Tensor0 (num_value acc + t).

(** [a / n] for an integer [n]: Python numbers raise [ZeroDivisionError];
    a tensor does not raise. *)
Definition truediv (a : pynum) (n : Z) : result pynum :=
  match a with
  | Tensor0 q => Ok (Tensor0 (q / inject_Z n))
  | PyInt _ | PyFloat _ =>
      if n =? 0 then raise ZeroDivisionError "division by zero"
      else Ok (PyFloat (num_value a / inject_Z n))
  end.

(** [range(start, stop, step)] for naturals, as a list.  A zero step is a
    [ValueError]. *)
Fixpoint range_from (fuel start stop step : nat) : list nat :=
  match fuel with
  | O => []
  | S fuel' =>
      if (start <? stop)%nat then start :: range_from fuel' (start + step) stop step
      else []
  end.

Definition range (start stop step : nat) : result (list nat) :=
  if (step =? 0)%nat then raise ValueError "range() arg 3 must not be zero"
  else Ok (range_from stop start stop step).

End Py.

Import Py.

Declare Scope py_scope.
Delimit Scope py_scope with py.
Notation "x <- c ;; k" := (bind c (fun x => k))
  (at level 61, c at next level, right associativity) : py_scope.
Notation "c ;;; k" := (bind c (fun _ => k))
  (at level 61, right associativity) : py_scope.
Local Open Scope py_scope.

(* ===================================================================== *)
(** ** Tensors *)
(* ===================================================================== *)

Module Tensor.

(** An n-dimensional array is a scalar or a list of arrays of one dimension
    less; a [torch] tensor is such a value with a well-defined [shape]. *)
#[local] Unset Elimination Schemes.
Inductive tensor (A : Type) : Type :=
| Scalar (a : A)
| Dim (items : list (tensor A)).
#[local] Set Elimination Schemes.
Arguments Scalar {A} a.
Arguments Dim {A} items.

Section Induction.
Variable A : Type.
Variable P : tensor A -> Prop.
Hypothesis P_scalar : forall a, P (Scalar a).
Hypothesis P_dim : forall l, Forall P l -> P (Dim l).

Fixpoint tensor_induction (t : tensor A) : P t :=
  match t with
  | Scalar a => P_scalar a
  | Dim l =>
      P_dim l
        ((fix all (l : list (tensor A)) : Forall P l :=
            match l with
            | [] => Forall_nil P
            | x :: xs => Forall_cons x (tensor_induction x) (all xs)
            end) l)
  end.
End Induction.

Definition shape_eqb (s1 s2 : option (list nat)) : bool :=
  match s1, s2 with
  | Some a, Some b => if list_eq_dec Nat.eq_dec a b then true else false
  | None, None => true
  | _, _ => false
  end.

Section Generic.
Context {A : Type}.

(** Row-major list of the entries. *)
Fixpoint elems (t : tensor A) : list A :=
  match t with
  | Scalar a => [a]
  | Dim l => flat_map elems l
  end.

(** [t.size()]; [None] for a ragged nesting, which is not a tensor.  A
    dimension of size 0 closes the shape. *)
Fixpoint shape (t : tensor A) : option (list nat) :=
  match t with
  | Scalar _ => Some []
  | Dim l =>
      match l with
      | [] => Some [O]
      | x :: xs =>
          match shape x with
          | Some s =>
              if forallb (fun y => shape_eqb (shape y) (Some s)) xs
              then Some (length l :: s)
              else None
          | None => None
          end
      end
  end.

Definition children (t : tensor A) : list (tensor A) :=
  match t with
  | Scalar _ => []
  | Dim l => l
  end.

(** [t.squeeze(1)]: drops dimension 1 when it has size 1, and leaves the
    tensor alone otherwise; fewer than two dimensions is an [IndexError]. *)
Definition squeeze1 (t : tensor A) : result (tensor A) :=
  match shape t with
  | Some (_ :: 1%nat :: _) =>
      Ok (Dim (map (fun item => match item with
                                | Dim [x] => x
                                | _ => item
                                end) (children t)))
  | Some (_ :: _ :: _) => Ok t
  | _ => raise IndexError "Dimension out of range"
  end.

(** [t[:, 1:]] *)
Definition drop_channel0 (t : tensor A) : result (tensor A) :=
  match shape t with
  | Some (_ :: _ :: _) => Ok (Dim (map (fun item => Dim (tl (children item))) (children t)))
  | _ => raise IndexError "too many indices for tensor"
  end.

(** [t[:, c]] *)
Definition channel (c : nat) (t : tensor A) : tensor A :=
  Dim (flat_map (fun item => match nth_error (children item) c with
                             | Some x => [x]
                             | None => []
                             end) (children t)).

(** [t.permute(0, 3, 1, 2)]: from (B, H, W, C) to (B, C, H, W). *)
Definition last_to_front (c : nat) (item : tensor A) : tensor A :=
  Dim (map (fun k =>
              Dim (map (fun row =>
                          Dim (flat_map (fun px => match nth_error (children px) k with
                                                   | Some x => [x]
                                                   | None => []
                                                   end) (children row)))
                       (children item)))
           (seq 0 c)).

Definition permute_0312 (t : tensor A) : result (tensor A) :=
  match shape t with
  | Some [_; _; _; c] => Ok (Dim (map (last_to_front c) (children t)))
  | _ => raise RuntimeError "permute: number of dims don't match in permute"
  end.

(** [t.to(memory_format=torch.channels_last)]: the channels-last layout
    exists for tensors of four dimensions only; the entries and the shape
    are unchanged. *)
Definition to_channels_last (t : tensor A) : result (tensor A) :=
  match shape t with
  | Some [_; _; _; _] => Ok t
  | _ => raise RuntimeError "required rank 4 tensor to use channels_last format"
  end.
End Generic.

(** Pairwise combination of two lists, up to the shorter one. *)
Fixpoint map2 {A B C : Type} (f : A -> B -> C) (la : list A) (lb : list B) : list C :=
  match la, lb with
  | a :: la', b :: lb' => f a b :: map2 f la' lb'
  | _, _ => []
  end.

Section Map.
Context {A B : Type}.
Variable f : A -> B.

Fixpoint tmap (t : tensor A) : tensor B :=
  match t with
  | Scalar a => Scalar (f a)
  | Dim l => Dim (map tmap l)
  end.
End Map.

Section Zip.
Context {A B C : Type}.
Variable f : A -> B -> C.

(** Entry-wise combination of two tensors of the same shape. *)
Fixpoint tzip (a : tensor A) (b : tensor B) : tensor C :=
  match a, b with
  | Scalar x, Scalar y => Scalar (f x y)
  | Dim la, Dim lb =>
      Dim ((fix go (la : list (tensor A)) (lb : list (tensor B)) : list (tensor C) :=
              match la, lb with
              | x :: xs, y :: ys => tzip x y :: go xs ys
              | _, _ => []
              end) la lb)
  | _, _ => Dim []
  end.
End Zip.

(** [t.unsqueeze(1)] *)
Definition unsqueeze1 {A : Type} (t : tensor A) : tensor A :=
  Dim (map (fun item => Dim [item]) (children t)).

(** [t.float()] on an integer tensor. *)
Definition to_float (t : tensor Z) : tensor Q := tmap inject_Z t.

Definition Qltb (a b : Q) : bool := negb (Qle_bool b a).

Definition Qsum (l : list Q) : Q := fold_right Qplus 0%Q l.

(** [t.sum()] over every dimension, one dimension after the other. *)
Fixpoint tsum (t : tensor Q) : Q :=
  match t with
  | Scalar q => q
  | Dim l => Qsum (map tsum l)
  end.

(** [a * b] for tensors of one shape. *)
Definition tmul (a b : tensor Q) : tensor Q := tzip Qmult a b.

(** [t.min()] and [t.max()] over all entries; [torch] refuses an empty
    tensor. *)
Definition tmin (t : tensor Z) : result Z :=
  match elems t with
  | [] => raise RuntimeError "min(): Expected reduction dim to be specified for input.numel() == 0"
  | x :: xs => Ok (fold_left Z.min xs x)
  end.

Definition tmax (t : tensor Z) : result Z :=
  match elems t with
  | [] => raise RuntimeError "max(): Expected reduction dim to be specified for input.numel() == 0"
  | x :: xs => Ok (fold_left Z.max xs x)
  end.

(** [F.one_hot(t, num_classes)]: a new last dimension of size [num_classes]
    holding the indicator of each label.  The range checks are those of the
    CPU implementation; [num_classes = -1] infers the size. *)
Fixpoint encode (k : nat) (t : tensor Z) : tensor Z :=
  match t with
  | Scalar l => Dim (map (fun c => Scalar (if l =? Z.of_nat c then 1 else 0)) (seq 0 k))
  | Dim items => Dim (map (encode k) items)
  end.

Definition one_hot (t : tensor Z) (num_classes : Z) : result (tensor Z) :=
  match elems t with
  | [] =>
      if num_classes <=? 0
      then raise RuntimeError "Can not infer total number of classes from empty tensor."
      else Ok (encode (Z.to_nat num_classes) t)
  | x :: xs =>
      if fold_left Z.min xs x <? 0
      then raise RuntimeError "Class values must be non-negative."
      else if num_classes =? -1
      then Ok (encode (Z.to_nat (fold_left Z.max xs x + 1)) t)
      else if fold_left Z.max xs x <? num_classes
      then Ok (encode (Z.to_nat num_classes) t)
      else raise RuntimeError "Class values must be smaller than num_classes."
  end.

(** [t.argmax(dim=1)]: for every position, the index of the first channel
    holding the largest value. *)
Definition better (k : Z) (best : Q * Z) (v : Q) : Q * Z :=
  if Qltb (fst best) v then (v, k) else best.

Fixpoint argmax_scan (k : Z) (best : tensor (Q * Z)) (chans : list (tensor Q))
  : tensor (Q * Z) :=
  match chans with
  | [] => best
  | c :: rest => argmax_scan (k + 1) (tzip (better k) best c) rest
  end.

Definition argmax_channels (chans : list (tensor Q)) : tensor Z :=
  match chans with
  | [] => Dim []
  | c0 :: rest => tmap snd (argmax_scan 1 (tmap (fun v => (v, 0)) c0) rest)
  end.

Definition argmax_dim1 (t : tensor Q) : result (tensor Z) :=
  match shape t with
  | Some (_ :: S _ :: _) =>
      Ok (Dim (map (fun item => argmax_channels (children item)) (children t)))
  | Some (_ :: O :: _) =>
      raise IndexError "argmax(): Expected reduction dim 1 to have non-zero size."
  | _ => raise IndexError "Dimension out of range"
  end.

End Tensor.

Import Tensor.

(* ===================================================================== *)
(** ** utils/dice_score.py *)
(* ===================================================================== *)

Module DiceScore.

Local Open Scope Q_scope.

(** Modelled from the spec: the default of the numerical-stability constant
    of [dice_coeff] in [utils/dice_score.py] (section 4.1: "default ~1e-6"). *)
Definition default_epsilon : Q := 1 # 1000000.

(** Arithmetic mean of a list ([x / 0] is [0] in [Q]; [torch] yields NaN for
    an empty mean). *)
Definition mean (l : list Q) : Q := Qsum l / inject_Z (Z.of_nat (length l)).

(** Modelled from the spec: the Dice value of section 4.1,
    [dice = (2*intersection + eps) / (sum(pred) + sum(target) + eps)] with
    [intersection = sum(pred * target)], the sums running over every
    dimension of the two arguments. *)
Definition dice (epsilon : Q) (pred target : tensor Q) : Q :=
  let intersection := tsum (tmul pred target) in
  (2 * intersection + epsilon) / (tsum pred + tsum target + epsilon).

(** Modelled from the spec: [dice_coeff] of [utils/dice_score.py], which is
    not among the sources (section 4.1).  A shape mismatch fails; with
    [reduce_batch_first] the sums run over all dimensions; without it one
    Dice value is computed per item of the leading dimension and the values
    are averaged.  A 0-dimensional argument has no batch dimension and is
    one item. *)
Definition dice_coeff (input target : tensor Q) (reduce_batch_first : bool)
    (epsilon : Q) : result Q :=
  if negb (shape_eqb (shape input) (shape target))
  then raise ShapeError "prediction and target dimensions differ"
  else if reduce_batch_first then Ok (dice epsilon input target)
  else match input, target with
       | Dim preds, Dim targets => Ok (mean (map2 (dice epsilon) preds targets))
       | _, _ => Ok (dice epsilon input target)
       end.

Fixpoint traverse {A B : Type} (f : A -> result B) (l : list A) : result (list B) :=
  match l with
  | [] => Ok []
  | a :: l' => b <- f a ;; bs <- traverse f l' ;; Ok (b :: bs)
  end.

(** Modelled from the spec: [multiclass_dice_coeff] of
    [utils/dice_score.py], which is not among the sources (section 4.2): the
    binary Dice coefficient of each class channel (dimension 1), averaged
    over the channels, with the same [reduce_batch_first] and [epsilon]. *)
Definition multiclass_dice_coeff (input target : tensor Q) (reduce_batch_first : bool)
    (epsilon : Q) : result Q :=
  if negb (shape_eqb (shape input) (shape target))
  then raise ShapeError "prediction and target dimensions differ"
  else match shape input with
       | Some (_ :: c :: _) =>
           ds <- traverse (fun k => dice_coeff (channel k input) (channel k target)
                                      reduce_batch_first epsilon) (seq 0 c) ;;
           Ok (mean ds)
       | _ => raise ShapeError "no class dimension"
       end.

(** Modelled from the spec: [dice_loss] of [utils/dice_score.py], which is
    not among the sources (section 4.3): one minus the Dice coefficient,
    binary or multiclass by the flag, always with [reduce_batch_first]. *)
Definition dice_loss (input target : tensor Q) (multiclass : bool) : result Q :=
  let fn := if multiclass then multiclass_dice_coeff else dice_coeff in
  d <- fn input target true default_epsilon ;;
  Ok (1 - d).

End DiceScore.

Import DiceScore.

(* ===================================================================== *)
(** ** evaluate.py *)
(* ===================================================================== *)

Module Evaluate.

Local Open Scope Q_scope.

(** The model collaborator: [n_classes], the [training] flag that
    [net.eval()] and [net.train()] toggle, and the forward pass, which may
    depend on the flag and may raise. *)
Record Net : Type := mkNet {
  n_classes : Z;
  training : bool;
  forward : bool -> tensor Q -> result (tensor Q)
}.

Definition net_eval (net : Net) : Net :=
  {| n_classes := n_classes net; training := false; forward := forward net |}.

Definition net_train (net : Net) : Net :=
  {| n_classes := n_classes net; training := true; forward := forward net |}.

(** [net(image)] *)
Definition call (net : Net) (image : tensor Q) : result (tensor Q) :=
  forward net (training net) image.

(** One element of the dataloader: [batch['image']] and [batch['mask']],
    the mask already holding integer labels. *)
Record batch : Type := mkBatch {
  image : tensor Q;
  mask : tensor Z
}.

(** A loss target is a float or a long tensor. *)
Inductive pytensor : Type :=
| TFloat (t : tensor Q)
| TLong (t : tensor Z).

(** [(p > 0.5).float()] *)
Definition threshold (p : tensor Q) : tensor Q :=
  tmap (fun x => if Qltb (1#2) x then 1 else 0) p.

Section Framework.
(** The numeric library functions that [evaluate] calls. *)
Variable sigmoid : Q -> Q.
Variable softmax_dim1 : tensor Q -> result (tensor Q).
Variable CrossEntropyLoss : tensor Q -> pytensor -> result Q.
Variable BCEWithLogitsLoss : tensor Q -> pytensor -> result Q.

Section Loop.
Variable net : Net.
Variable criterion : tensor Q -> pytensor -> result Q.

(** Lines 31-42: the loss of one batch. *)
Definition batch_loss (mask_pred : tensor Q) (mask_true : tensor Z) : result Q :=
  if (n_classes net =? 1)%Z then
    squeezed <- squeeze1 mask_pred ;;
    loss <- criterion squeezed (TFloat (to_float mask_true)) ;;
    dl <- dice_loss (tmap sigmoid squeezed) (to_float mask_true) false ;;
    Ok (loss + dl)
  else
    loss <- criterion mask_pred (TLong mask_true) ;;
    probs <- softmax_dim1 mask_pred ;;
    hot <- one_hot mask_true (n_classes net) ;;
    hot <- permute_0312 hot ;;
    dl <- dice_loss probs (to_float hot) true ;;
    Ok (loss + dl).

(** [mask_true.min() >= 0 and mask_true.max() <= hi]; [and] evaluates
    its right operand only when the left one holds. *)
Definition labels_within (mask_true : tensor Z) (upper_ok : Z -> bool) : result bool :=
  lo <- tmin mask_true ;;
  if (0 <=? lo)%Z then hi <- tmax mask_true ;; Ok (upper_ok hi)
  else Ok false.

(** Lines 45-56: the Dice score of one batch. *)
Definition batch_score (mask_pred : tensor Q) (mask_true : tensor Z) : result Q :=
  if (n_classes net =? 1)%Z then
    ok <- labels_within mask_true (fun hi => (hi <=? 1)%Z) ;;
    py_assert ok "True mask indices should be in [0, 1]" ;;;
    let mask_pred := threshold (tmap sigmoid mask_pred) in
    dice_coeff mask_pred (to_float mask_true) false default_epsilon
  else
    ok <- labels_within mask_true (fun hi => (hi <? n_classes net)%Z) ;;
    py_assert ok "True mask indices should be in [0, n_classes[" ;;;
    hot <- one_hot mask_true (n_classes net) ;;
    mask_true <- permute_0312 hot ;;
    let mask_true := to_float mask_true in
    labels <- argmax_dim1 mask_pred ;;
    hot <- one_hot labels (n_classes net) ;;
    mask_pred <- permute_0312 hot ;;
    let mask_pred := to_float mask_pred in
    fg_pred <- drop_channel0 mask_pred ;;
    fg_true <- drop_channel0 mask_true ;;
    multiclass_dice_coeff fg_pred fg_true false default_epsilon.

(** Lines 22-56: the body of the loop, on the two running sums.  Line 25
    asks for the channels-last layout of the image batch, which only a
    batch of four dimensions has. *)
Definition loop_body (dice_score loss_total : pynum) (b : batch)
  : result (pynum * pynum) :=
  let mask_true := mask b in
  img <- to_channels_last (image b) ;;
  mask_pred <- call net img ;;
  loss <- batch_loss mask_pred mask_true ;;
  let loss_total := iadd_tensor loss_total loss in
  score <- batch_score mask_pred mask_true ;;
  let dice_score := iadd_tensor dice_score score in
  Ok (dice_score, loss_total).

(** Lines 21-56: the [for] loop; an exception leaves it at once. *)
Fixpoint validation_round (dataloader : list batch) (dice_score loss_total : pynum)
  : result (pynum * pynum) :=
  match dataloader with
  | [] => Ok (dice_score, loss_total)
  | b :: rest =>
      sums <- loop_body dice_score loss_total b ;;
      validation_round rest (fst sums) (snd sums)
  end.
End Loop.

(** [evaluate(net, dataloader, device, amp)]: the value returned or the
    exception raised, together with the model as the call leaves it.  The
    device and the mixed-precision flag do not change exact arithmetic. *)
Definition evaluate (net : Net) (dataloader : list batch)
  : result (pynum * pynum) * Net :=
  let net := net_eval net in
  let num_val_batches := Z.of_nat (length dataloader) in
  let dice_score := PyInt 0 in
  let criterion := if (n_classes net >? 1)%Z then CrossEntropyLoss
                   else BCEWithLogitsLoss in
  let loss_total := PyInt 0 in
  match validation_round net criterion dataloader dice_score loss_total with
  | Raise e => (Raise e, net)
  | Ok (dice_score, loss_total) =>
      let net := net_train net in
      (score <- truediv dice_score (Z.max num_val_batches 1) ;;
       loss <- truediv loss_total (Z.max num_val_batches 1) ;;
       Ok (score, loss), net)
  end.
End Framework.

End Evaluate.

Import Evaluate.

(* ===================================================================== *)
(** ** evaluate_dataset.py *)
(* ===================================================================== *)

Module EvaluateDataset.

Local Open Scope string_scope.

(** A path below the working directory, as the list of its components:
    [Path('./results/train/')] is [["results"; "train"]], and [[]] is the
    working directory itself. *)
Definition path : Type := list string.

Definition path_eqb (p q : path) : bool :=
  if list_eq_dec string_dec p q then true else false.

(** What the script works on and leaves behind: the regular files with
    their content, the directories (the working directory always exists),
    and the lines printed (newest first). *)
Record world : Type := mkWorld {
  files : list (path * string);
  dirs : list path;
  stdout : list string
}.

(** A step of the script returns or raises, and leaves a world. *)
Definition M (A : Type) : Type := world -> result A * world.

Definition ret {A : Type} (a : A) : M A := fun w => (Ok a, w).

Definition bindM {A B : Type} (c : M A) (k : A -> M B) : M B :=
  fun w => match c w with
           | (Ok a, w') => k a w'
           | (Raise e, w') => (Raise e, w')
           end.

Definition lift {A : Type} (r : result A) : M A := fun w => (r, w).

Notation "x <~ c ;; k" := (bindM c (fun x => k))
  (at level 61, c at next level, right associativity) : py_scope.
Notation "c ~;; k" := (bindM c (fun _ => k))
  (at level 61, right associativity) : py_scope.

Definition print (line : string) : M unit :=
  fun w => (Ok tt, {| files := files w; dirs := dirs w; stdout := line :: stdout w |}).

(** What a path names, looked up without regard to its parents. *)
Inductive entry : Type :=
| NoEntry
| IsFile
| IsDir.

Definition entry_at (w : world) (p : path) : entry :=
  match p with
  | [] => IsDir
  | _ :: _ =>
      if existsb (path_eqb p) (dirs w) then IsDir
      else if existsb (fun f => path_eqb p (fst f)) (files w) then IsFile
      else NoEntry
  end.

(** Path resolution as the system calls do it: every component before the
    last must be a directory.  [ENOENT]: a component does not exist;
    [ENOTDIR]: a component before the last is a regular file. *)
Inductive stat : Type :=
| SDir
| SFile
| ENOENT
| ENOTDIR.

Fixpoint lookup_from (w : world) (base : path) (rest : list string) : stat :=
  match rest with
  | [] =>
      match entry_at w base with
      | IsDir => SDir
      | IsFile => SFile
      | NoEntry => ENOENT
      end
  | name :: rest' =>
      match entry_at w base with
      | IsDir => lookup_from w (base ++ [name])%list rest'
      | IsFile => ENOTDIR
      | NoEntry => ENOENT
      end
  end.

Definition lookup (w : world) (p : path) : stat := lookup_from w [] p.

(** [p.exists()] *)
Definition path_exists (w : world) (p : path) : bool :=
  match lookup w p with
  | SDir | SFile => true
  | ENOENT | ENOTDIR => false
  end.

(** [p.is_dir()] *)
Definition is_dir (w : world) (p : path) : bool :=
  match lookup w p with
  | SDir => true
  | _ => false
  end.

(** [p.parent] *)
Definition parent (p : path) : path := removelast p.

(** The files after [content] has been written to [p]: a file of that name
    is replaced. *)
Definition put_file (p : path) (content : string) (fs : list (path * string))
  : list (path * string) :=
  (p, content) :: filter (fun f => negb (path_eqb p (fst f))) fs.

(** [open(p, 'w')], a write of [content], and closing the file: the
    directory of [p] must exist, and [p] must not be a directory. *)
Definition write_file (p : path) (content : string) : M unit :=
  fun w =>
    let written := {| files := put_file p content (files w); dirs := dirs w;
                      stdout := stdout w |} in
    match lookup w p with
    | SDir => (raise IsADirectoryError "Is a directory", w)
    | ENOTDIR => (raise NotADirectoryError "Not a directory", w)
    | SFile => (Ok tt, written)
    | ENOENT =>
        match lookup w (parent p) with
        | SDir => (Ok tt, written)
        | _ => (raise FileNotFoundError "No such file or directory", w)
        end
    end.

(** [os.mkdir(p)]: the parent must be a directory and [p] must not exist. *)
Definition os_mkdir (p : path) : M unit :=
  fun w =>
    match lookup w p with
    | SDir | SFile => (raise FileExistsError "File exists", w)
    | ENOTDIR => (raise NotADirectoryError "Not a directory", w)
    | ENOENT =>
        match lookup w (parent p) with
        | SDir => (Ok tt, {| files := files w; dirs := p :: dirs w; stdout := stdout w |})
        | _ => (raise FileNotFoundError "No such file or directory", w)
        end
    end.

(** [p.mkdir(parents=..., exist_ok=...)] of [pathlib]: [os.mkdir]; when it
    fails with [FileNotFoundError] and [parents] is set, the parent is
    created first, with its own parents and with [exist_ok=True], and the
    directory is then created without [parents]; any other [OSError] is
    swallowed only with [exist_ok], and only when the path is a directory.
    The recursion ends at the working directory, which is its own parent:
    [fuel] bounds it by the number of components. *)
Fixpoint mkdir (fuel : nat) (p : path) (parents exist_ok : bool) : M unit :=
  fun w =>
    match os_mkdir p w with
    | (Ok u, w') => (Ok u, w')
    | (Raise e, w') =>
        if exn_class_eqb (exn_cls e) FileNotFoundError then
          if negb parents || path_eqb (parent p) p then (Raise e, w')
          else match fuel with
               | S fuel' =>
                   bindM (mkdir fuel' (parent p) true true)
                         (fun _ => mkdir fuel' p false exist_ok) w'
               | O => (Raise e, w')
               end
        else if exist_ok && is_dir w' p then (Ok tt, w')
        else (Raise e, w')
    end.

(** [if not p.exists(): p.mkdir(parents=True)] *)
Definition ensure_dir (p : path) : M unit :=
  fun w => if path_exists w p then (Ok tt, w)
           else mkdir (length p) p true false w.

(** [try: body except classes: handler] *)
Definition try_except {A : Type} (body : result A) (classes : list exn_class)
    (handler : result A) : result A :=
  match body with
  | Ok a => Ok a
  | Raise e => if existsb (issubclass (exn_cls e)) classes then handler else Raise e
  end.

(** The value bound to [train_score] and its siblings: a number, or the
    pair that [evaluate] returns. *)
Inductive pyval : Type :=
| Num (x : pynum)
| Tuple (a b : pynum).

(** One item of a dataset: [{'image': ..., 'mask': ...}]. *)
Record sample : Type := mkSample {
  sample_image : tensor Q;
  sample_mask : tensor Z
}.

Definition dataset : Type := list sample.

(** Default collation stacks the items of a batch along a new leading
    dimension. *)
Definition collate (items : list sample) : batch :=
  {| image := Dim (map sample_image items); mask := Dim (map sample_mask items) |}.

(** Consecutive groups of [batch_size] items; the last, shorter group is
    kept unless [drop_last]. *)
Fixpoint group {A : Type} (batch_size : nat) (drop_last : bool) (cur : list A)
    (l : list A) : list (list A) :=
  match l with
  | [] => match cur with
          | [] => []
          | _ :: _ => if drop_last then [] else [rev cur]
          end
  | x :: xs =>
      if (length (x :: cur) =? batch_size)%nat
      then rev (x :: cur) :: group batch_size drop_last [] xs
      else group batch_size drop_last (x :: cur) xs
  end.

(** [DataLoader(dataset, batch_size=..., shuffle=False, drop_last=...)], as
    the list of batches an iteration yields. *)
Definition DataLoader (d : dataset) (batch_size : nat) (drop_last : bool) : list batch :=
  map collate (group batch_size drop_last [] d).

(** [Subset(dataset, indices)] *)
Definition Subset (d : dataset) (indices : list nat) : dataset :=
  flat_map (fun i => match nth_error d i with
                     | Some x => [x]
                     | None => []
                     end) indices.

(** [next(iter(loader))] *)
Definition next {A : Type} (l : list A) : result A :=
  match l with
  | x :: _ => Ok x
  | [] => raise StopIteration EmptyString
  end.

(** [os.path.join(p, name)] for a file name. *)
Definition path_join (p : path) (name : string) : path := (p ++ [name])%list.

(** Lines 132-134 and 142. *)
Definition train_path : path := ["results"; "train"].
Definition val_path : path := ["results"; "val"].
Definition test_path : path := ["results"; "test"].
Definition scores_path : path := ["results"; "scores.csv"].

Definition dir_img := "data/imgs".
Definition dir_mask := "data/masks".
Definition dir_train_img := "data/train/imgs".
Definition dir_train_mask := "data/train/masks".
Definition dir_val_img := "data/val/imgs".
Definition dir_val_mask := "data/val/masks".
Definition dir_test_img := "data/test/imgs".
Definition dir_test_mask := "data/test/masks".
Definition full_img_size : nat * nat := (140%nat, 175%nat).

(** The parsed command line, as [get_args()] returns it. *)
Record args : Type := mkArgs {
  model : string;
  amp : bool;
  bilinear : bool;
  classes : Z;
  default : bool
}.

Inductive cell : Type :=
| CStr (s : string)
| CNum (q : Q).

Definition crlf : string :=
  String (Ascii.ascii_of_nat 13) (String (Ascii.ascii_of_nat 10) EmptyString).

Section Script.
(** Library functions of [evaluate]. *)
Variable sigmoid : Q -> Q.
Variable softmax_dim1 : tensor Q -> result (tensor Q).
Variable CrossEntropyLoss : tensor Q -> pytensor -> result Q.
Variable BCEWithLogitsLoss : tensor Q -> pytensor -> result Q.

(** Lines 66-72: building the U-Net and loading its weights gives the
    forward pass, or raises. *)
Variable load_net : Z -> bool -> string -> result (bool -> tensor Q -> result (tensor Q)).

(** The two dataset classes of [utils/data_loading.py], on an image
    directory, a mask directory and a scale. *)
Variable CarvanaDataset : string -> string -> Q -> result dataset.
Variable BasicDataset : string -> string -> Q -> result dataset.

(** [random_split(dataset, [n_train, n_val], generator=...)] with the
    fixed seed. *)
Variable random_split : dataset -> nat -> nat -> result (dataset * dataset).

(** Image library and number formatting. *)
Variable interpolate : tensor Q -> nat * nat -> result (tensor Q).
Variable make_grid : tensor Q -> nat -> result (tensor Q).
Variable png : tensor Q -> string.
Variable format_4f : Q -> string.
Variable repr : Q -> string.

(** [save_image(t, p)] *)
Definition save_image (t : tensor Q) (p : path) : M unit :=
  write_file p (png t).

(** [qualitative_results(dataset, path, model, device)] *)
Definition qualitative_results (d : dataset) (path : path) (net : Net) : M unit :=
  let len_dataset := length d in
  indices <~ lift (range 0 len_dataset (len_dataset / 6)) ;;
  let d := Subset d indices in
  let row_n := (len_dataset / 6 + 1)%nat in
  let dataset_loader := DataLoader d row_n false in
  b <~ lift (next dataset_loader) ;;
  let images := image b in
  let true_masks := to_float (unsqueeze1 (mask b)) in
  out_masks <~ lift (call net images) ;;
  labels <~ lift (argmax_dim1 out_masks) ;;
  let out_masks := to_float (unsqueeze1 labels) in
  let size := (snd full_img_size, fst full_img_size) in
  images <~ lift (interpolate images size) ;;
  true_masks <~ lift (interpolate true_masks size) ;;
  out_masks <~ lift (interpolate out_masks size) ;;
  grid <~ lift (make_grid images row_n) ;;
  save_image grid (path_join path "images.png") ~;;
  grid <~ lift (make_grid true_masks row_n) ;;
  save_image grid (path_join path "true_masks.png") ~;;
  grid <~ lift (make_grid out_masks row_n) ;;
  save_image grid (path_join path "out_masks.png").

(** [f'{v:.4f}']: numbers and 0-dimensional tensors format; a tuple does
    not support the format string. *)
Definition format_score (v : pyval) : result string :=
  match v with
  | Num x => Ok (format_4f (num_value x))
  | Tuple _ _ => raise TypeError "unsupported format string passed to tuple.__format__"
  end.

(** [v.item()]: defined on tensors only. *)
Definition item (v : pyval) : result Q :=
  match v with
  | Num (Tensor0 q) => Ok q
  | Num (PyInt _) => raise AttributeError "'int' object has no attribute 'item'"
  | Num (PyFloat _) => raise AttributeError "'float' object has no attribute 'item'"
  | Tuple _ _ => raise AttributeError "'tuple' object has no attribute 'item'"
  end.

(** [csv.writer(file).writerows(rows)] with the default dialect. *)
Definition render_cell (c : cell) : string :=
  match c with
  | CStr s => s
  | CNum q => repr q
  end.

Definition writerows (rows : list (list cell)) : string :=
  String.concat EmptyString
    (map (fun row => String.concat "," (map render_cell row) ++ crlf) rows).

(** Lines 80-83 and their three repetitions: the Carvana loader, and the
    basic loader when it raises one of the three listed classes. *)
Definition load_dataset (images masks : string) (scale : Q) : result dataset :=
  try_except (CarvanaDataset images masks scale)
             [AssertionError; RuntimeError; IndexError]
             (BasicDataset images masks scale).

Definition img_scale : Q := 1 # 2.
Definition val_percent : Q := 1 # 10.
Definition batch_size : nat := 32.

(** Lines 79-108: the three splits. *)
Definition splits (a : args) : result (dataset * dataset * dataset) :=
  if default a then
    d <- load_dataset dir_img dir_mask img_scale ;;
    let n_val := Z.to_nat (Qfloor (inject_Z (Z.of_nat (length d)) * val_percent)) in
    let n_train := (length d - n_val)%nat in
    parts <- random_split d n_train n_val ;;
    let train_set := fst parts in
    let val_set := snd parts in
    let test_set := val_set in
    Ok (train_set, val_set, test_set)
  else
    train_set <- load_dataset dir_train_img dir_train_mask img_scale ;;
    val_set <- load_dataset dir_val_img dir_val_mask img_scale ;;
    test_set <- load_dataset dir_test_img dir_test_mask img_scale ;;
    Ok (train_set, val_set, test_set).

(** Lines 111-114: the three loaders. *)
Definition loaders (sets : dataset * dataset * dataset)
  : list batch * list batch * list batch :=
  let '(train_set, val_set, test_set) := sets in
  let train_loader := DataLoader train_set batch_size false in
  let val_loader := DataLoader val_set batch_size true in
  let test_loader := DataLoader test_set batch_size true in
  (train_loader, val_loader, test_loader).

(** A call [x = evaluate(net, loader, device, args.amp)] in the script:
    [x] is bound to the pair returned, the model is left as the call
    leaves it, and an exception ends the script. *)
Definition call_evaluate (net : Net) (loader : list batch) : result (pyval * Net) :=
  match evaluate sigmoid softmax_dim1 CrossEntropyLoss BCEWithLogitsLoss net loader with
  | (Ok (score, loss), net') => Ok (Tuple score loss, net')
  | (Raise e, _) => Raise e
  end.

(** Lines 66-118: everything up to the three scores. *)
Definition scores (a : args)
  : result (Net * (dataset * dataset * dataset) * (pyval * pyval * pyval)) :=
  fwd <- load_net (classes a) (bilinear a) (model a) ;;
  let net := net_eval {| n_classes := classes a; training := true; forward := fwd |} in
  sets <- splits a ;;
  let '(train_loader, val_loader, test_loader) := loaders sets in
  r <- call_evaluate net train_loader ;;
  let train_score := fst r in
  r <- call_evaluate (snd r) val_loader ;;
  let val_score := fst r in
  r <- call_evaluate (snd r) test_loader ;;
  let test_score := fst r in
  Ok (snd r, sets, (train_score, val_score, test_score)).

(** Lines 120-150: printing the scores and saving them. *)
Definition report (train_score val_score test_score : pyval) : M unit :=
  s <~ lift (format_score train_score) ;;
  print ("Training Dice score: " ++ s) ~;;
  s <~ lift (format_score val_score) ;;
  print ("Validation Dice score: " ++ s) ~;;
  s <~ lift (format_score test_score) ;;
  print ("Test Dice score: " ++ s) ~;;
  train_item <~ lift (item train_score) ;;
  val_item <~ lift (item val_score) ;;
  test_item <~ lift (item test_score) ;;
  let rows := [ [CStr "Dataset"; CStr "Score"];
                [CStr "Training"; CNum train_item];
                [CStr "Validation"; CNum val_item];
                [CStr "Test"; CNum test_item] ] in
  ensure_dir train_path ~;;
  ensure_dir val_path ~;;
  ensure_dir test_path ~;;
  write_file scores_path (writerows rows) ~;;
  print "Scores saved in scores.csv".

(** Lines 66-156: the script once [get_args()] (line 64) has returned the
    parsed arguments [a]; the world [w] it runs on is the one that argument
    parsing left. *)
Definition main (a : args) : M unit :=
  r <~ lift (scores a) ;;
  let '(net, (train_set, val_set, test_set), (train_score, val_score, test_score)) := r in
  report train_score val_score test_score ~;;
  qualitative_results train_set train_path net ~;;
  qualitative_results val_set val_path net ~;;
  qualitative_results test_set test_path net ~;;
  print "Qualitative results saved in ./results/".
End Script.

End EvaluateDataset.

Import EvaluateDataset.

(* ===================================================================== *)
(** ** The vocabulary of the specification *)
(* ===================================================================== *)

(** The notions that the specification uses to describe [evaluate], written
    after its words; the theorems below compare the code with them. *)
Module Claimed.

Local Open Scope Q_scope.

(** A label is in the valid class range: 0 or 1 for a one-class model, at
    least 0 and below [n_classes] otherwise. *)
Definition label_in_range (n_classes l : Z) : bool :=
  if (n_classes =? 1)%Z then (0 <=? l)%Z && (l <=? 1)%Z
  else (0 <=? l)%Z && (l <? n_classes)%Z.

(** A batch has a ground-truth label out of the valid class range. *)
Definition out_of_range (n_classes : Z) (b : batch) : Prop :=
  exists l, In l (elems (mask b)) /\ label_in_range n_classes l = false.

(** A mask holds labels, and all of them are in the valid class range. *)
Definition valid_labels (n_classes : Z) (mask_true : tensor Z) : Prop :=
  elems mask_true <> [] /\
  forall l, In l (elems mask_true) -> label_in_range n_classes l = true.

(** The hard mask of a label tensor of shape (B, H, W), restricted to the
    class channels [first], ..., [first + count - 1]: a tensor of shape
    (B, count, H, W) whose entry is 1 where the label is the channel's class
    and 0 elsewhere. *)
Definition indicator (c : nat) (l : Z) : Q :=
  if (l =? Z.of_nat c)%Z then 1 else 0.

Definition class_planes (first count : nat) (labels : tensor Z) : tensor Q :=
  Dim (map (fun item => Dim (map (fun c => tmap (indicator c) item) (seq first count)))
           (children labels)).

(** The hard mask of a one-class prediction: 1 where the sigmoid output
    exceeds 0.5 and 0 elsewhere, decided by the order of the rationals. *)
Definition thresholded (sigmoid : Q -> Q) (mask_pred : tensor Q) : tensor Q :=
  tmap (fun x => if Qlt_le_dec (1 # 2) (sigmoid x) then 1 else 0) mask_pred.

(** Arg-max over a list of values: [k] is the index of the first value that
    no other value exceeds. *)
Definition first_max (vals : list Q) (k : nat) : Prop :=
  (k < length vals)%nat /\
  (forall j, (j < length vals)%nat -> nth j vals 0 <= nth k vals 0) /\
  (forall j, (j < k)%nat -> nth j vals 0 < nth k vals 0).

(** The values that the class channels [chans] of one batch item hold at
    position [p], the positions being counted in row-major order. *)
Definition scores_at (p : nat) (chans : list (tensor Q)) : list Q :=
  map (fun c => nth p (elems c) 0) chans.

(** [lab] is the arg-max over the class channels [chans] of one batch item:
    it has the shape of a channel, and at every position it holds the index
    of the first channel with the largest value there. *)
Definition argmax_item (chans : list (tensor Q)) (lab : tensor Z) : Prop :=
  (forall c, In c chans -> shape lab = shape c) /\
  forall p l, nth_error (elems lab) p = Some l ->
    exists k, l = Z.of_nat k /\ first_max (scores_at p chans) k.

(** [labels] is the arg-max over the class dimension of a prediction of
    shape (B, C, ...): item by item. *)
Definition argmax_labels (mask_pred : tensor Q) (labels : tensor Z) : Prop :=
  Forall2 (fun item lab => argmax_item (children item) lab)
          (children mask_pred) (children labels).

(** The Dice value of section 4.1 on the entries of the two arrays, taken in
    row-major order: [intersection] is the sum of the products of
    corresponding entries. *)
Definition dot (a b : list Q) : Q := Qsum (map2 Qmult a b).

Definition dice_of_entries (epsilon : Q) (pred target : tensor Q) : Q :=
  let intersection := dot (elems pred) (elems target) in
  (2 * intersection + epsilon) / (Qsum (elems pred) + Qsum (elems target) + epsilon).

End Claimed.

(* ===================================================================== *)
(** ** Concrete collaborators and inputs *)
(* ===================================================================== *)

(** Small stand-ins for the collaborators, on which the definitions above
    run: a step function in place of the sigmoid, the identity in place of
    the softmax and of the two-class network, a one-class network that
    drops the channel dimension, constant losses, and datasets of 2x2
    images. *)
Module Fixture.

Local Open Scope Q_scope.

Definition sigmoid (x : Q) : Q := if Qltb 0 x then 3 # 4 else 1 # 4.
Definition softmax_dim1 (t : tensor Q) : result (tensor Q) := Ok t.
Definition CrossEntropyLoss (_ : tensor Q) (_ : pytensor) : result Q := Ok 0.
Definition BCEWithLogitsLoss (_ : tensor Q) (_ : pytensor) : result Q := Ok 0.

Definition identity (_ : bool) (x : tensor Q) : result (tensor Q) := Ok x.

(** A forward pass that returns its input without the channel dimension:
    (B, 1, H, W) becomes (B, H, W). *)
Definition squeeze (_ : bool) (x : tensor Q) : result (tensor Q) := squeeze1 x.

(** A two-class model, and a one-class model whose output has no channel
    dimension, both in training mode. *)
Definition net2 : Net := {| n_classes := 2; training := true; forward := identity |}.
Definition net1 : Net := {| n_classes := 1; training := true; forward := squeeze |}.

Definition plane (a b c d : Q) : tensor Q :=
  Dim [Dim [Scalar a; Scalar b]; Dim [Scalar c; Scalar d]].

Definition labels (a b c d : Z) : tensor Z :=
  Dim [Dim [Scalar a; Scalar b]; Dim [Scalar c; Scalar d]].

(** A two-channel item whose second channel wins on the top row. *)
Definition item2 : sample :=
  {| sample_image := Dim [plane 0 0 1 0; plane 1 1 0 0];
     sample_mask := labels 1 1 0 1 |}.

(** The same item with a label outside [0, 2[. *)
Definition item2_corrupt : sample :=
  {| sample_image := Dim [plane 0 0 1 0; plane 1 1 0 0];
     sample_mask := labels 1 5 0 1 |}.

(** A one-channel item, and the same item with the label 2. *)
Definition item1 : sample :=
  {| sample_image := Dim [plane 1 (-1) 2 (-2)]; sample_mask := labels 1 1 1 0 |}.

Definition item1_corrupt : sample :=
  {| sample_image := Dim [plane 1 (-1) 2 (-2)]; sample_mask := labels 1 2 1 0 |}.

(** An item whose image has no channel dimension. *)
Definition item_flat : sample :=
  {| sample_image := plane 1 (-1) 2 (-2); sample_mask := labels 1 1 1 0 |}.

Definition batch2 : batch := collate [item2; item2].
Definition batch2_corrupt : batch := collate [item2; item2_corrupt].
Definition batch1 : batch := collate [item1; item1].
Definition batch1_corrupt : batch := collate [item1_corrupt].
Definition batch_flat : batch := collate [item_flat; item_flat].

(** A prediction and a target of shape (2, 2, 2): the first items overlap on
    two entries, the second items do not overlap. *)
Definition pred_pair : tensor Q := Dim [plane 1 1 0 0; plane 1 0 0 0].
Definition target_pair : tensor Q := Dim [plane 1 1 0 0; plane 0 0 1 1].

(** Two-class probabilities and a one-hot target of shape (2, 2, 2, 2). *)
Definition probs2 : tensor Q :=
  Dim [Dim [plane 1 0 (1 # 2) 0; plane 0 1 (1 # 2) 1];
       Dim [plane 0 0 0 0; plane 1 1 1 1]].
Definition onehot2 : tensor Q :=
  Dim [Dim [plane 1 0 0 0; plane 0 1 1 1];
       Dim [plane 0 1 0 0; plane 1 0 1 1]].

(** Collaborators of the script. *)
Definition load_net (_ : Z) (_ : bool) (_ : string)
  : result (bool -> tensor Q -> result (tensor Q)) := Ok identity.

Definition data (n : nat) : dataset := repeat item2 n.

(** The Carvana loader rejects the validation directory and reads 10 items
    from the undivided directory and 3 items elsewhere; the basic loader
    reads 2 items anywhere. *)
Definition CarvanaDataset (images _ : string) (_ : Q) : result dataset :=
  if String.eqb images dir_val_img
  then raise AssertionError "no mask file"
  else if String.eqb images dir_img then Ok (data 10)
  else Ok (data 3).

Definition BasicDataset (_ _ : string) (_ : Q) : result dataset := Ok (data 2).

(** A Carvana loader that reads 330 items from every directory. *)
Definition CarvanaLarge (_ _ : string) (_ : Q) : result dataset := Ok (data 330).

Definition random_split (d : dataset) (n_train n_val : nat) : result (dataset * dataset) :=
  Ok (firstn n_train d, skipn n_train d).

Definition interpolate (t : tensor Q) (_ : nat * nat) : result (tensor Q) := Ok t.
Definition make_grid (t : tensor Q) (_ : nat) : result (tensor Q) := Ok t.
Definition png (_ : tensor Q) : string := "png"%string.
Definition format_4f (_ : Q) : string := "0.0000"%string.
Definition repr (_ : Q) : string := "0.0"%string.

Definition args_split : args :=
  {| model := "MODEL.pth"; amp := false; bilinear := false; classes := 2;
     default := false |}.

Definition args_default : args :=
  {| model := "MODEL.pth"; amp := false; bilinear := false; classes := 2;
     default := true |}.

Definition empty_world : world := {| files := []; dirs := []; stdout := [] |}.

(** A world in which an earlier run has left the result directories and a
    first image grid. *)
Definition results_world : world :=
  {| files := [(["results"; "train"; "images.png"], "old");
               (["notes.txt"], "keep")]%string;
     dirs := [["results"; "train"]; ["results"]]%string;
     stdout := [] |}.

End Fixture.

(* ===================================================================== *)
(** ** Observations *)
(* ===================================================================== *)

(** Notions used to state what the dataloaders yield, what a batch
    contributes and where directories are created. *)
Module Observed.

(** The loop body returns on batch [b] with Dice score [fst o] and loss
    [snd o]. *)
Definition batch_outcome (sigmoid : Q -> Q)
    (softmax_dim1 : tensor Q -> result (tensor Q))
    (net : Net) (criterion : tensor Q -> pytensor -> result Q)
    (b : batch) (o : Q * Q) : Prop :=
  exists img mask_pred,
    to_channels_last (image b) = Ok img /\
    call net img = Ok mask_pred /\
    Evaluate.batch_loss sigmoid softmax_dim1 net criterion mask_pred (mask b) = Ok (snd o) /\
    Evaluate.batch_score sigmoid net mask_pred (mask b) = Ok (fst o).

(** The images and the masks that a dataloader yields, batch after batch. *)
Definition yielded_images (loader : list batch) : list (tensor Q) :=
  flat_map (fun b => children (image b)) loader.

Definition yielded_masks (loader : list batch) : list (tensor Z) :=
  flat_map (fun b => children (mask b)) loader.

(** The path [p] lies in or below [q]: it begins with the components of
    [q]. *)
Definition begins_with (p q : path) : Prop := exists r, p = q ++ r.

End Observed.

(* ===================================================================== *)
(** ** Properties of [evaluate] *)
(* ===================================================================== *)

Section EvaluateFacts.
Variable sigmoid : Q -> Q.
Variable softmax_dim1 : tensor Q -> result (tensor Q).
Variable CrossEntropyLoss : tensor Q -> pytensor -> result Q.
Variable BCEWithLogitsLoss : tensor Q -> pytensor -> result Q.

Local Abbreviation evaluate :=
  (Evaluate.evaluate sigmoid softmax_dim1 CrossEntropyLoss BCEWithLogitsLoss).
Local Abbreviation validation_round := (Evaluate.validation_round sigmoid softmax_dim1).
Local Abbreviation loop_body := (Evaluate.loop_body sigmoid softmax_dim1).
Local Abbreviation batch_loss := (Evaluate.batch_loss sigmoid softmax_dim1).
Local Abbreviation batch_score := (Evaluate.batch_score sigmoid).

(** The criterion that [evaluate] selects for a model. *)
Local Abbreviation criterion_of net :=
  (if (n_classes net >? 1)%Z then CrossEntropyLoss else BCEWithLogitsLoss).

Lemma net_eval_idempotent : forall net, net_eval (net_eval net) = net_eval net.
Proof. reflexivity. Qed.

Lemma net_eval_train : forall net, net_eval (net_train net) = net_eval net.
Proof. reflexivity. Qed.

(** [evaluate] is a function of the model in evaluation mode. *)
Lemma evaluate_from_eval_mode :
  forall net dataloader, evaluate net dataloader = evaluate (net_eval net) dataloader.
Proof. reflexivity. Qed.

Lemma evaluate_raise :
  forall net dataloader e,
    validation_round (net_eval net) (criterion_of (net_eval net)) dataloader
      (PyInt 0) (PyInt 0) = Raise e ->
    evaluate net dataloader = (Raise e, net_eval net).
Proof.
  intros net dataloader e H. unfold Evaluate.evaluate.
  cbv zeta. rewrite H. reflexivity.
Qed.

Lemma evaluate_ok :
  forall net dataloader dice_score loss_total,
    validation_round (net_eval net) (criterion_of (net_eval net)) dataloader
      (PyInt 0) (PyInt 0) = Ok (dice_score, loss_total) ->
    evaluate net dataloader =
      (score <- truediv dice_score (Z.max (Z.of_nat (length dataloader)) 1) ;;
       loss <- truediv loss_total (Z.max (Z.of_nat (length dataloader)) 1) ;;
       Ok (score, loss), net_train (net_eval net)).
Proof.
  intros net dataloader d l H. unfold Evaluate.evaluate.
  cbv zeta. rewrite H. reflexivity.
Qed.

(** The final divisor is never zero, so the two divisions return. *)
Lemma truediv_batches_ok :
  forall (x : pynum) (n : nat), exists y, truediv x (Z.max (Z.of_nat n) 1) = Ok y.
Proof.
  intros x n. unfold truediv.
  assert (Hn : (Z.max (Z.of_nat n) 1 =? 0)%Z = false) by (apply Z.eqb_neq; lia).
  destruct x; rewrite ?Hn; eexists; reflexivity.
Qed.

(** C1, as amended: [evaluate] puts the model in evaluation mode before
    anything else (its outcome is that of the call on the model in
    evaluation mode); when it returns, the model is in training mode; when
    an exception leaves the loop, [net.train()] is not reached and the model
    stays in evaluation mode. *)
Theorem evaluate_mode_after :
  forall net dataloader,
    evaluate net dataloader = evaluate (net_eval net) dataloader /\
    match fst (evaluate net dataloader) with
    | Ok _ => training (snd (evaluate net dataloader)) = true
    | Raise _ => training (snd (evaluate net dataloader)) = false
    end.
Proof.
  intros net dataloader. split; [reflexivity|].
  destruct (validation_round (net_eval net) (criterion_of (net_eval net)) dataloader
              (PyInt 0) (PyInt 0)) as [[d l]|e] eqn:E.
  - rewrite (evaluate_ok _ _ _ _ E). cbn [fst snd].
    destruct (truediv_batches_ok d (length dataloader)) as [s Hs].
    destruct (truediv_batches_ok l (length dataloader)) as [t Ht].
    rewrite Hs, Ht. reflexivity.
  - rewrite (evaluate_raise _ _ _ E). reflexivity.
Qed.

(** C5: on an empty dataloader [evaluate] returns score 0 and loss 0 (the
    Python floats [0 / 1]) and raises nothing; in general, when the loop
    finishes with sums [d] and [l], the call returns [d] and [l] divided by
    the number of batches, or by 1 when there is no batch. *)
Theorem evaluate_empty_dataloader :
  forall net,
    evaluate net [] = (Ok (PyFloat 0, PyFloat 0), net_train (net_eval net)) /\
    forall dataloader,
      match validation_round (net_eval net) (criterion_of (net_eval net)) dataloader
              (PyInt 0) (PyInt 0) with
      | Ok (d, l) =>
          let count := match dataloader with
                       | [] => 1%Z
                       | _ :: _ => Z.of_nat (length dataloader)
                       end in
          exists score loss,
            fst (evaluate net dataloader) = Ok (score, loss) /\
            truediv d count = Ok score /\ truediv l count = Ok loss
      | Raise e => fst (evaluate net dataloader) = Raise e
      end.
Proof.
  intros net. split; [reflexivity|].
  intros dataloader.
  destruct (validation_round (net_eval net) (criterion_of (net_eval net)) dataloader
              (PyInt 0) (PyInt 0)) as [[d l]|e] eqn:E.
  - rewrite (evaluate_ok _ _ _ _ E). cbn [fst].
    assert (Hc : Z.max (Z.of_nat (length dataloader)) 1 =
                 match dataloader with
                 | [] => 1%Z
                 | _ :: _ => Z.of_nat (length dataloader)
                 end).
    { destruct dataloader; [reflexivity|]. cbn [length]. lia. }
    cbv zeta. rewrite <- Hc.
    destruct (truediv_batches_ok d (length dataloader)) as [s Hs].
    destruct (truediv_batches_ok l (length dataloader)) as [t Ht].
    exists s, t. rewrite Hs, Ht. auto.
  - rewrite (evaluate_raise _ _ _ E). reflexivity.
Qed.
End EvaluateFacts.

(** C1, as stated, fails.  The image batches have the four dimensions
    (B, 1, H, W) that line 25 requires, and the one-class model returns
    predictions of shape (B, H, W), so that the evaluation of the first
    batch alone returns; the second batch holds the label 2, the assertion
    of line 46 raises there, and the model is left in evaluation mode
    although it was in training mode before the call. *)
Lemma evaluate_exception_keeps_eval_mode :
  let ev := evaluate Fixture.sigmoid Fixture.softmax_dim1 Fixture.CrossEntropyLoss
              Fixture.BCEWithLogitsLoss Fixture.net1 in
  shape (image Fixture.batch1) = Some [2; 1; 2; 2]%nat /\
  shape (image Fixture.batch1_corrupt) = Some [1; 1; 2; 2]%nat /\
  is_ok (fst (ev [Fixture.batch1])) = true /\
  training Fixture.net1 = true /\
  fst (ev [Fixture.batch1; Fixture.batch1_corrupt]) =
    Raise (mkExn AssertionError "True mask indices should be in [0, 1]") /\
  training (snd (ev [Fixture.batch1; Fixture.batch1_corrupt])) <> true.
Proof.
  cbv zeta. split; [reflexivity|]. split; [reflexivity|].
  split; [vm_compute; reflexivity|]. split; [reflexivity|].
  split; [vm_compute; reflexivity|].
  vm_compute. discriminate.
Qed.

(* ===================================================================== *)
(** ** The channels-last layout *)
(* ===================================================================== *)

(** Line 25 returns the image batch as it is, and only for a batch of four
    dimensions. *)
Lemma to_channels_last_inv :
  forall {A : Type} (t t' : tensor A),
    to_channels_last t = Ok t' ->
    t' = t /\ exists b c h w, shape t = Some [b; c; h; w].
Proof.
  intros A t t'. unfold to_channels_last.
  destruct (shape t) as [[|b [|c [|h [|w [|x s]]]]]|]; try discriminate.
  intros H. injection H as <-. split; [reflexivity|]. exists b, c, h, w. reflexivity.
Qed.

Lemma to_channels_last_rank4 :
  forall {A : Type} (t : tensor A) b c h w,
    shape t = Some [b; c; h; w] -> to_channels_last t = Ok t.
Proof. intros A t b c h w H. unfold to_channels_last. rewrite H. reflexivity. Qed.

(** Line 25: the loop body returns only on an image batch of four
    dimensions.  On any other batch the conversion to the channels-last
    layout raises [RuntimeError] before the model is called, whatever the
    model and the mask, and an evaluation that meets such a batch first
    raises that error and leaves the model in evaluation mode. *)
Theorem loop_body_needs_four_dimensions :
  forall sigmoid softmax_dim1 CrossEntropyLoss BCEWithLogitsLoss net criterion
         dice_score loss_total b,
    (forall dice_score' loss_total',
        Evaluate.loop_body sigmoid softmax_dim1 net criterion dice_score loss_total b =
          Ok (dice_score', loss_total') ->
        exists nb c h w, shape (image b) = Some [nb; c; h; w]) /\
    ((forall nb c h w, shape (image b) <> Some [nb; c; h; w]) ->
     Evaluate.loop_body sigmoid softmax_dim1 net criterion dice_score loss_total b =
       Raise (mkExn RuntimeError "required rank 4 tensor to use channels_last format") /\
     forall rest,
       evaluate sigmoid softmax_dim1 CrossEntropyLoss BCEWithLogitsLoss net (b :: rest) =
         (Raise (mkExn RuntimeError "required rank 4 tensor to use channels_last format"),
          net_eval net)).
Proof.
  intros sigmoid softmax_dim1 CE BCE net criterion ds lt b. split.
  - intros ds' lt' H. unfold Evaluate.loop_body in H.
    destruct (to_channels_last (image b)) as [img|e] eqn:E; [|discriminate].
    destruct (to_channels_last_inv _ _ E) as [_ Hs]. exact Hs.
  - intros Hrank.
    assert (E : to_channels_last (image b) =
                Raise (mkExn RuntimeError
                         "required rank 4 tensor to use channels_last format")).
    { unfold to_channels_last.
      destruct (shape (image b)) as [[|nb [|c [|h [|w [|x s]]]]]|] eqn:Hs;
        try reflexivity.
      exfalso. exact (Hrank nb c h w eq_refl). }
    split.
    + unfold Evaluate.loop_body. rewrite E. reflexivity.
    + intros rest. apply evaluate_raise. cbn [Evaluate.validation_round].
      unfold Evaluate.loop_body. cbn [net_eval]. rewrite E. reflexivity.
Qed.

(** An instance of [loop_body_needs_four_dimensions]: a batch of two images
    without a channel dimension, of shape (2, 2, 2). *)
Lemma loop_body_needs_four_dimensions_witness :
  shape (image Fixture.batch_flat) = Some [2; 2; 2]%nat /\
  evaluate Fixture.sigmoid Fixture.softmax_dim1 Fixture.CrossEntropyLoss
    Fixture.BCEWithLogitsLoss Fixture.net1 [Fixture.batch_flat; Fixture.batch1] =
    (Raise (mkExn RuntimeError "required rank 4 tensor to use channels_last format"),
     net_eval Fixture.net1).
Proof.
  split; [reflexivity|].
  apply (proj2 (loop_body_needs_four_dimensions Fixture.sigmoid Fixture.softmax_dim1
                  Fixture.CrossEntropyLoss Fixture.BCEWithLogitsLoss Fixture.net1
                  Fixture.BCEWithLogitsLoss (PyInt 0) (PyInt 0) Fixture.batch_flat)).
  intros nb c h w. vm_compute. discriminate.
Defined.

(* ===================================================================== *)
(** ** Label range checks *)
(* ===================================================================== *)

Lemma fold_min_lower :
  forall xs x, (fold_left Z.min xs x <= x)%Z /\
               forall y, In y xs -> (fold_left Z.min xs x <= y)%Z.
Proof.
  induction xs as [|a xs IH]; intros x; cbn [fold_left].
  - split; [lia|]. intros y [].
  - destruct (IH (Z.min x a)) as [H1 H2]. split; [lia|].
    intros y [->|Hy]; [lia|auto].
Qed.

Lemma fold_max_upper :
  forall xs x, (x <= fold_left Z.max xs x)%Z /\
               forall y, In y xs -> (y <= fold_left Z.max xs x)%Z.
Proof.
  induction xs as [|a xs IH]; intros x; cbn [fold_left].
  - split; [lia|]. intros y [].
  - destruct (IH (Z.max x a)) as [H1 H2]. split; [lia|].
    intros y [->|Hy]; [lia|auto].
Qed.

Lemma tmin_lower :
  forall t l, In l (elems t) -> exists lo, tmin t = Ok lo /\ (lo <= l)%Z.
Proof.
  intros t l Hl. unfold tmin. destruct (elems t) as [|x xs]; [destruct Hl|].
  eexists. split; [reflexivity|].
  destruct (fold_min_lower xs x) as [H1 H2]. destruct Hl as [->|Hl]; auto.
Qed.

Lemma tmax_upper :
  forall t l, In l (elems t) -> exists hi, tmax t = Ok hi /\ (l <= hi)%Z.
Proof.
  intros t l Hl. unfold tmax. destruct (elems t) as [|x xs]; [destruct Hl|].
  eexists. split; [reflexivity|].
  destruct (fold_max_upper xs x) as [H1 H2]. destruct Hl as [->|Hl]; auto.
Qed.

(** The range test of the two assertions fails as soon as one label fails
    it, for an upper test that is closed downwards. *)
Lemma labels_within_false :
  forall (t : tensor Z) (upper_ok : Z -> bool) l,
    (forall a b, (a <= b)%Z -> upper_ok b = true -> upper_ok a = true) ->
    In l (elems t) ->
    (0 <=? l)%Z && upper_ok l = false ->
    labels_within t upper_ok = Ok false.
Proof.
  intros t upper_ok l Hmono Hl Hbad. unfold labels_within.
  destruct (tmin_lower t l Hl) as [lo [-> Hlo]]. cbn [bind].
  destruct (0 <=? lo)%Z eqn:E; [|reflexivity].
  destruct (tmax_upper t l Hl) as [hi [-> Hhi]]. cbn [bind].
  apply Z.leb_le in E.
  assert (H0 : (0 <=? l)%Z = true) by (apply Z.leb_le; lia).
  rewrite H0 in Hbad. cbn in Hbad.
  destruct (upper_ok hi) eqn:U; [|reflexivity].
  rewrite (Hmono l hi Hhi U) in Hbad. discriminate.
Qed.

Lemma fold_min_in : forall xs x, In (fold_left Z.min xs x) (x :: xs).
Proof.
  induction xs as [|a xs IH]; intros x; cbn [fold_left].
  - left. reflexivity.
  - destruct (IH (Z.min x a)) as [H|H].
    + rewrite <- H.
      destruct (Z.min_spec x a) as [[_ E]|[_ E]]; rewrite E;
        [left|right; left]; reflexivity.
    + right. right. exact H.
Qed.

Lemma fold_max_in : forall xs x, In (fold_left Z.max xs x) (x :: xs).
Proof.
  induction xs as [|a xs IH]; intros x; cbn [fold_left].
  - left. reflexivity.
  - destruct (IH (Z.max x a)) as [H|H].
    + rewrite <- H.
      destruct (Z.max_spec x a) as [[_ E]|[_ E]]; rewrite E;
        [right; left|left]; reflexivity.
    + right. right. exact H.
Qed.

(** The outcomes of the range test: an empty mask makes [min()] raise
    [RuntimeError]; otherwise the test is false exactly when some label
    fails it. *)
Lemma labels_within_cases :
  forall (t : tensor Z) (upper_ok : Z -> bool),
    (elems t = [] /\ exists msg, labels_within t upper_ok = Raise (mkExn RuntimeError msg)) \/
    (labels_within t upper_ok = Ok true) \/
    (labels_within t upper_ok = Ok false /\
     exists l, In l (elems t) /\ (0 <=? l)%Z && upper_ok l = false).
Proof.
  intros t upper_ok. unfold labels_within, tmin, tmax.
  destruct (elems t) as [|x xs].
  - left. split; [reflexivity|]. eexists. reflexivity.
  - right. cbn [bind].
    destruct (0 <=? fold_left Z.min xs x)%Z eqn:E; cbn [bind].
    + destruct (upper_ok (fold_left Z.max xs x)) eqn:U.
      * left. reflexivity.
      * right. split; [reflexivity|]. exists (fold_left Z.max xs x).
        split; [apply fold_max_in|]. rewrite U. apply andb_false_r.
    + right. split; [reflexivity|]. exists (fold_left Z.min xs x).
      split; [apply fold_min_in|]. rewrite E. reflexivity.
Qed.

(** The range test holds exactly on a mask that has labels, all of which
    pass it, for an upper test that is closed downwards. *)
Lemma labels_within_iff :
  forall (t : tensor Z) (upper_ok : Z -> bool),
    (forall a b, (a <= b)%Z -> upper_ok b = true -> upper_ok a = true) ->
    (labels_within t upper_ok = Ok true <->
     elems t <> [] /\ forall l, In l (elems t) -> (0 <=? l)%Z && upper_ok l = true).
Proof.
  intros t upper_ok Hmono. split.
  - intros H. unfold labels_within, tmin, tmax in H.
    destruct (elems t) as [|x xs]; [discriminate|]. cbn [bind] in H.
    destruct (0 <=? fold_left Z.min xs x)%Z eqn:E; cbn [bind] in H; [|discriminate].
    injection H as H. split; [discriminate|]. intros l Hl.
    apply Z.leb_le in E.
    destruct (fold_min_lower xs x) as [L1 L2]. destruct (fold_max_upper xs x) as [U1 U2].
    apply andb_true_intro. split.
    + apply Z.leb_le. destruct Hl as [<-|Hl]; [lia|]. specialize (L2 l Hl). lia.
    + apply (Hmono l (fold_left Z.max xs x)); [|exact H].
      destruct Hl as [<-|Hl]; [exact U1|]. apply U2. exact Hl.
  - intros [Hne Hall].
    destruct (labels_within_cases t upper_ok) as [[He _]|[E|[_ [l [Hl Hbad]]]]].
    + congruence.
    + exact E.
    + rewrite (Hall l Hl) in Hbad. discriminate.
Qed.

Lemma upper_le_closed :
  forall a b, (a <= b)%Z -> (b <=? 1)%Z = true -> (a <=? 1)%Z = true.
Proof. intros a b Hab H. apply Z.leb_le in H. apply Z.leb_le. lia. Qed.

Lemma upper_lt_closed :
  forall n a b, (a <= b)%Z -> (b <? n)%Z = true -> (a <? n)%Z = true.
Proof. intros n a b Hab H. apply Z.ltb_lt in H. apply Z.ltb_lt. lia. Qed.

(** The two assertions of the score step hold exactly on the masks with
    valid labels. *)
Lemma labels_within_valid :
  forall n (t : tensor Z),
    labels_within t (if (n =? 1)%Z then (fun hi => (hi <=? 1)%Z)
                     else (fun hi => (hi <? n)%Z)) = Ok true <->
    Claimed.valid_labels n t.
Proof.
  intros n t. unfold Claimed.valid_labels, Claimed.label_in_range.
  destruct (n =? 1)%Z.
  - apply labels_within_iff. exact upper_le_closed.
  - apply labels_within_iff. exact (upper_lt_closed n).
Qed.

Section RangeCheck.
Variable sigmoid : Q -> Q.
Variable softmax_dim1 : tensor Q -> result (tensor Q).
Variable CrossEntropyLoss : tensor Q -> pytensor -> result Q.
Variable BCEWithLogitsLoss : tensor Q -> pytensor -> result Q.

Local Abbreviation evaluate :=
  (Evaluate.evaluate sigmoid softmax_dim1 CrossEntropyLoss BCEWithLogitsLoss).
Local Abbreviation validation_round := (Evaluate.validation_round sigmoid softmax_dim1).
Local Abbreviation loop_body := (Evaluate.loop_body sigmoid softmax_dim1).
Local Abbreviation batch_score := (Evaluate.batch_score sigmoid).

Lemma batch_score_assertion :
  forall net mask_pred b,
    Claimed.out_of_range (n_classes net) b ->
    exists msg, batch_score net mask_pred (mask b) = Raise (mkExn AssertionError msg).
Proof.
  intros net mask_pred b [l [Hl Hbad]].
  unfold Evaluate.batch_score, Claimed.label_in_range in *.
  destruct (n_classes net =? 1)%Z.
  - rewrite (labels_within_false (mask b) (fun hi => (hi <=? 1)%Z) l); auto.
    + eexists. reflexivity.
    + intros a c Hac Hc. apply Z.leb_le in Hc. apply Z.leb_le. lia.
  - rewrite (labels_within_false (mask b) (fun hi => (hi <? n_classes net)%Z) l); auto.
    + eexists. reflexivity.
    + intros a c Hac Hc. apply Z.ltb_lt in Hc. apply Z.ltb_lt. lia.
Qed.

Lemma loop_body_out_of_range :
  forall net criterion dice_score loss_total b,
    Claimed.out_of_range (n_classes net) b ->
    exists e, loop_body net criterion dice_score loss_total b = Raise e.
Proof.
  intros net criterion ds lt b Hb. unfold Evaluate.loop_body.
  destruct (to_channels_last (image b)) as [img|e]; [|eexists; reflexivity].
  cbn [bind].
  destruct (call net img) as [mask_pred|e]; [|eexists; reflexivity].
  cbn [bind].
  destruct (Evaluate.batch_loss sigmoid softmax_dim1 net criterion mask_pred (mask b))
    as [loss|e]; [|eexists; reflexivity].
  cbn [bind].
  destruct (batch_score_assertion net mask_pred b Hb) as [msg ->].
  eexists. reflexivity.
Qed.

Lemma validation_round_out_of_range :
  forall net criterion b,
    Claimed.out_of_range (n_classes net) b ->
    forall before dice_score loss_total,
    exists e, forall after,
      validation_round net criterion (before ++ b :: after) dice_score loss_total = Raise e.
Proof.
  intros net criterion b Hb. induction before as [|a before IH]; intros ds lt.
  - destruct (loop_body_out_of_range net criterion ds lt b Hb) as [e He].
    exists e. intros after. cbn. rewrite He. reflexivity.
  - cbn [app Evaluate.validation_round].
    destruct (loop_body net criterion ds lt a) as [sums|e].
    + cbn [bind]. apply IH.
    + exists e. intros after. reflexivity.
Qed.

(** C6: when a batch holds a ground-truth label out of the valid class
    range, the range assertion of the score step fails on it, the loop body
    raises on it, and the evaluation of any dataloader that contains it
    raises, with an exception that does not depend on the batches after it;
    no score is returned. *)
Theorem out_of_range_batch_aborts :
  forall net b,
    Claimed.out_of_range (n_classes net) b ->
    (forall mask_pred,
        exists msg, batch_score net mask_pred (mask b) = Raise (mkExn AssertionError msg)) /\
    (forall criterion dice_score loss_total,
        exists e, loop_body net criterion dice_score loss_total b = Raise e) /\
    (forall before,
        exists e, forall after, fst (evaluate net (before ++ b :: after)) = Raise e).
Proof.
  intros net b Hb. split; [|split].
  - intros mask_pred. apply batch_score_assertion; assumption.
  - intros. apply loop_body_out_of_range; assumption.
  - intros before.
    destruct (validation_round_out_of_range (net_eval net)
                (if (n_classes (net_eval net) >? 1)%Z
                 then CrossEntropyLoss else BCEWithLogitsLoss)
                b Hb before (PyInt 0) (PyInt 0)) as [e He].
    exists e. intros after. unfold Evaluate.evaluate. cbv zeta.
    rewrite (He after). reflexivity.
Qed.
End RangeCheck.

(** An instance of [out_of_range_batch_aborts]: the one-class batch whose
    mask holds the label 2, after a batch that is processed. *)
Lemma out_of_range_batch_aborts_witness :
  Claimed.out_of_range (n_classes Fixture.net1) Fixture.batch1_corrupt /\
  exists e, forall after,
    fst (evaluate Fixture.sigmoid Fixture.softmax_dim1 Fixture.CrossEntropyLoss
           Fixture.BCEWithLogitsLoss Fixture.net1
           ([Fixture.batch1] ++ Fixture.batch1_corrupt :: after)) = Raise e.
Proof.
  assert (H : Claimed.out_of_range (n_classes Fixture.net1) Fixture.batch1_corrupt).
  { exists 2%Z. split; [cbn; auto|reflexivity]. }
  split; [exact H|].
  exact (proj2 (proj2 (out_of_range_batch_aborts Fixture.sigmoid Fixture.softmax_dim1
                         Fixture.CrossEntropyLoss Fixture.BCEWithLogitsLoss
                         Fixture.net1 Fixture.batch1_corrupt H)) [Fixture.batch1]).
Defined.

(* ===================================================================== *)
(** ** Properties of the evaluation script *)
(* ===================================================================== *)

Section ScriptFacts.
Variable sigmoid : Q -> Q.
Variable softmax_dim1 : tensor Q -> result (tensor Q).
Variable CrossEntropyLoss : tensor Q -> pytensor -> result Q.
Variable BCEWithLogitsLoss : tensor Q -> pytensor -> result Q.
Variable load_net : Z -> bool -> string -> result (bool -> tensor Q -> result (tensor Q)).
Variable CarvanaDataset : string -> string -> Q -> result dataset.
Variable BasicDataset : string -> string -> Q -> result dataset.
Variable random_split : dataset -> nat -> nat -> result (dataset * dataset).
Variable interpolate : tensor Q -> nat * nat -> result (tensor Q).
Variable make_grid : tensor Q -> nat -> result (tensor Q).
Variable png : tensor Q -> string.
Variable format_4f : Q -> string.
Variable repr : Q -> string.

Local Abbreviation evaluate :=
  (Evaluate.evaluate sigmoid softmax_dim1 CrossEntropyLoss BCEWithLogitsLoss).
Local Abbreviation call_evaluate :=
  (EvaluateDataset.call_evaluate sigmoid softmax_dim1 CrossEntropyLoss BCEWithLogitsLoss).
Local Abbreviation load_dataset :=
  (EvaluateDataset.load_dataset CarvanaDataset BasicDataset).
Local Abbreviation splits :=
  (EvaluateDataset.splits CarvanaDataset BasicDataset random_split).
Local Abbreviation scores :=
  (EvaluateDataset.scores sigmoid softmax_dim1 CrossEntropyLoss BCEWithLogitsLoss
     load_net CarvanaDataset BasicDataset random_split).
Local Abbreviation report := (EvaluateDataset.report format_4f repr).
Local Abbreviation qualitative_results :=
  (EvaluateDataset.qualitative_results interpolate make_grid png).
Local Abbreviation main :=
  (EvaluateDataset.main sigmoid softmax_dim1 CrossEntropyLoss BCEWithLogitsLoss
     load_net CarvanaDataset BasicDataset random_split interpolate make_grid png
     format_4f repr).

(** *** Subsampling in [qualitative_results] *)

Lemma qualitative_results_zero_step :
  forall d path net w,
    (length d / 6 = 0)%nat ->
    qualitative_results d path net w =
      (Raise (mkExn ValueError "range() arg 3 must not be zero"), w).
Proof.
  intros d path net w H. unfold EvaluateDataset.qualitative_results.
  cbv zeta. unfold bindM at 1. unfold lift at 1. unfold range. rewrite H. reflexivity.
Qed.

(** C9: on a dataset of fewer than 6 items the subsampling step
    [len(dataset) // 6] is 0, [range] refuses it, and [qualitative_results]
    raises [ValueError] with the world as it found it: no image file is
    written. *)
Theorem qualitative_results_small_dataset :
  forall d path net w,
    (length d < 6)%nat ->
    (length d / 6 = 0)%nat /\
    qualitative_results d path net w =
      (Raise (mkExn ValueError "range() arg 3 must not be zero"), w).
Proof.
  intros d path net w H.
  assert (H0 : (length d / 6 = 0)%nat) by (apply Nat.div_small; exact H).
  split; [exact H0|]. apply qualitative_results_zero_step; exact H0.
Qed.

(** Conversely, a call that returns was given at least 6 items. *)
Lemma qualitative_results_returns :
  forall d path net w w',
    qualitative_results d path net w = (Ok tt, w') -> (6 <= length d)%nat.
Proof.
  intros d path net w w' H.
  destruct (Nat.lt_ge_cases (length d) 6) as [Hlt|Hge]; [|exact Hge].
  rewrite (qualitative_results_zero_step d path net w) in H.
  - discriminate.
  - apply Nat.div_small; exact Hlt.
Qed.

(** *** Dataset construction *)


(** *** The three scores *)

Lemma evaluate_returns_in_training_mode :
  forall net loader x,
    fst (evaluate net loader) = Ok x ->
    snd (evaluate net loader) = net_train (net_eval net).
Proof.
  intros net loader x. unfold Evaluate.evaluate. cbv zeta.
  destruct (Evaluate.validation_round _ _ _ _ _ _ _) as [[d l]|e]; cbn [fst snd].
  - reflexivity.
  - discriminate.
Qed.

Lemma call_evaluate_inv :
  forall net loader v net',
    call_evaluate net loader = Ok (v, net') ->
    exists score loss,
      v = Tuple score loss /\
      evaluate net loader = (Ok (score, loss), net') /\
      net' = net_train (net_eval net).
Proof.
  intros net loader v net'. unfold EvaluateDataset.call_evaluate.
  pose proof (evaluate_returns_in_training_mode net loader) as Hmode.
  destruct (evaluate net loader) as [[[s l]|e] n'] eqn:E; [|discriminate].
  intros H. injection H as <- <-. exists s, l.
  cbn [fst snd] in Hmode. rewrite (Hmode _ eq_refl). auto.
Qed.

(** The outcome of a call does not depend on the mode the model is in. *)
Lemma call_evaluate_mode :
  forall net loader,
    call_evaluate (net_train (net_eval net)) loader = call_evaluate net loader.
Proof. reflexivity. Qed.

Lemma scores_inv :
  forall a net sets train_score val_score test_score,
    scores a = Ok (net, sets, (train_score, val_score, test_score)) ->
    exists fwd net1 net2,
      load_net (classes a) (bilinear a) (model a) = Ok fwd /\
      splits a = Ok sets /\
      call_evaluate
        (net_eval {| n_classes := classes a; training := true; forward := fwd |})
        (fst (fst (loaders sets))) = Ok (train_score, net1) /\
      call_evaluate net1 (snd (fst (loaders sets))) = Ok (val_score, net2) /\
      call_evaluate net2 (snd (loaders sets)) = Ok (test_score, net).
Proof.
  intros a net sets s1 s2 s3. unfold EvaluateDataset.scores.
  destruct (load_net (classes a) (bilinear a) (model a)) as [fwd|e]; [|discriminate].
  cbn [bind].
  destruct (EvaluateDataset.splits _ _ _ a) as [sets'|e]; [|discriminate].
  cbn [bind].
  destruct (loaders sets') as [[tl vl] tsl] eqn:EL.
  destruct (call_evaluate _ tl) as [[v1 n1]|e] eqn:E1; [|discriminate]. cbn [bind fst snd].
  destruct (call_evaluate n1 vl) as [[v2 n2]|e] eqn:E2; [|discriminate]. cbn [bind fst snd].
  destruct (call_evaluate n2 tsl) as [[v3 n3]|e] eqn:E3; [|discriminate]. cbn [bind fst snd].
  intros H. injection H as <- <- <- <- <-.
  exists fwd, n1, n2. rewrite EL. cbn [fst snd]. auto.
Qed.

(** C7, on the code: whenever the three evaluations return, the script
    raises [TypeError] at the first formatted print, because [evaluate]
    returns a pair; the world is as before the call, so [results/scores.csv]
    is not written. *)
Theorem main_raises_before_scores_csv :
  forall a r w,
    scores a = Ok r ->
    main a w =
      (Raise (mkExn TypeError "unsupported format string passed to tuple.__format__"), w).
Proof.
  intros a [[net sets] [[s1 s2] s3]] w H.
  destruct (scores_inv _ _ _ _ _ _ H) as [fwd [n1 [n2 [_ [_ [H1 _]]]]]].
  destruct (call_evaluate_inv _ _ _ _ H1) as [score [loss [-> _]]].
  unfold EvaluateDataset.main. unfold bindM at 1. unfold lift at 1. rewrite H.
  destruct sets as [[train_set val_set] test_set]. reflexivity.
Qed.

(** C10: with [--default], once the three scores are computed, the test
    split is the validation split, the test loader yields the batches of the
    validation loader, and the test evaluation returns the pair that the
    validation evaluation returned. *)
Theorem default_test_is_validation :
  forall a net train_set val_set test_set train_score val_score test_score,
    default a = true ->
    scores a = Ok (net, (train_set, val_set, test_set),
                   (train_score, val_score, test_score)) ->
    test_set = val_set /\
    snd (loaders (train_set, val_set, test_set)) =
      snd (fst (loaders (train_set, val_set, test_set))) /\
    test_score = val_score.
Proof.
  intros a net train_set val_set test_set s1 s2 s3 Ha H.
  destruct (scores_inv _ _ _ _ _ _ H) as [fwd [n1 [n2 [_ [Hs [_ [H2 H3]]]]]]].
  assert (Hset : test_set = val_set).
  { unfold EvaluateDataset.splits in Hs. rewrite Ha in Hs.
    destruct (EvaluateDataset.load_dataset _ _ _ _ _) as [d|e]; [|discriminate].
    cbn [bind] in Hs.
    destruct (random_split _ _ _) as [parts|e]; [|discriminate].
    cbn [bind] in Hs. injection Hs as _ <- <-. reflexivity. }
  subst test_set. split; [reflexivity|]. split; [reflexivity|].
  cbn [loaders fst snd] in H2, H3.
  destruct (call_evaluate_inv _ _ _ _ H2) as [sc [lo [_ [_ Hn2]]]].
  rewrite Hn2, call_evaluate_mode, H2 in H3. injection H3 as <- _. reflexivity.
Qed.
End ScriptFacts.

(** An instance of [qualitative_results_small_dataset]: five items. *)
Lemma qualitative_results_small_dataset_witness :
  (length (Fixture.data 5) < 6)%nat /\
  qualitative_results Fixture.interpolate Fixture.make_grid Fixture.png
    (Fixture.data 5) train_path Fixture.net2 Fixture.empty_world =
    (Raise (mkExn ValueError "range() arg 3 must not be zero"), Fixture.empty_world).
Proof.
  assert (H : (length (Fixture.data 5) < 6)%nat) by (cbn; lia).
  split; [exact H|].
  exact (proj2 (qualitative_results_small_dataset Fixture.interpolate Fixture.make_grid
                  Fixture.png (Fixture.data 5) train_path Fixture.net2
                  Fixture.empty_world H)).
Defined.

(** An instance of [main_raises_before_scores_csv]: the three splits are
    read from their directories, the three evaluations return, and the
    script stops at the first print. *)
Lemma main_raises_before_scores_csv_witness :
  is_ok (scores Fixture.sigmoid Fixture.softmax_dim1 Fixture.CrossEntropyLoss
           Fixture.BCEWithLogitsLoss Fixture.load_net Fixture.CarvanaDataset
           Fixture.BasicDataset Fixture.random_split Fixture.args_split) = true /\
  main Fixture.sigmoid Fixture.softmax_dim1 Fixture.CrossEntropyLoss
    Fixture.BCEWithLogitsLoss Fixture.load_net Fixture.CarvanaDataset
    Fixture.BasicDataset Fixture.random_split Fixture.interpolate Fixture.make_grid
    Fixture.png Fixture.format_4f Fixture.repr Fixture.args_split Fixture.empty_world =
    (Raise (mkExn TypeError "unsupported format string passed to tuple.__format__"),
     Fixture.empty_world).
Proof.
  split; [vm_compute; reflexivity|].
  eapply main_raises_before_scores_csv. vm_compute. reflexivity.
Defined.

(* ===================================================================== *)
(** ** Shapes *)
(* ===================================================================== *)

Lemma shape_eqb_eq : forall s1 s2, shape_eqb s1 s2 = true -> s1 = s2.
Proof.
  intros [a|] [b|]; cbn; try discriminate; auto.
  destruct (list_eq_dec Nat.eq_dec a b); [congruence|discriminate].
Qed.

Lemma shape_eqb_refl : forall s, shape_eqb s s = true.
Proof.
  intros [a|]; cbn; auto.
  destruct (list_eq_dec Nat.eq_dec a a); [reflexivity|congruence].
Qed.

Section ShapeFacts.
Context {A : Type}.

(** A non-empty list of tensors of one shape is a tensor. *)
Lemma shape_uniform :
  forall (l : list (tensor A)) s,
    l <> [] -> Forall (fun x => shape x = Some s) l ->
    shape (Dim l) = Some (length l :: s).
Proof.
  intros [|x xs] s Hne Hall; [congruence|].
  inversion Hall as [|? ? Hx Hxs]; subst. cbn [shape]. rewrite Hx.
  replace (forallb (fun y => shape_eqb (shape y) (Some s)) xs) with true; [reflexivity|].
  symmetry. apply forallb_forall. intros y Hy.
  rewrite Forall_forall in Hxs. rewrite (Hxs y Hy). apply shape_eqb_refl.
Qed.

(** What a shape says about the items of a tensor. *)
Lemma shape_Dim_inv :
  forall (l : list (tensor A)) s,
    shape (Dim l) = Some s ->
    (l = [] /\ s = [O]) \/
    (exists s', l <> [] /\ s = length l :: s' /\ Forall (fun x => shape x = Some s') l).
Proof.
  intros [|x xs] s H.
  - left. cbn in H. injection H as <-. auto.
  - right. cbn [shape] in H. destruct (shape x) as [s'|] eqn:Hx; [|discriminate].
    destruct (forallb _ xs) eqn:Hf; [|discriminate].
    injection H as <-. exists s'. split; [discriminate|]. split; [reflexivity|].
    constructor; [exact Hx|]. apply Forall_forall. intros y Hy.
    rewrite forallb_forall in Hf. apply shape_eqb_eq. apply Hf. exact Hy.
Qed.

Lemma shape_Scalar_inv : forall (t : tensor A) , shape t = Some [] -> exists a, t = Scalar a.
Proof.
  intros [a|l] H; [eauto|].
  destruct (shape_Dim_inv l [] H) as [[_ H1]|[s' [_ [H1 _]]]]; discriminate.
Qed.

(** A tensor with at least one dimension is a [Dim]. *)
Lemma shape_cons_inv :
  forall (t : tensor A) n s, shape t = Some (n :: s) -> exists l, t = Dim l /\ length l = n.
Proof.
  intros [a|l] n s H; [discriminate|]. exists l. split; [reflexivity|].
  destruct (shape_Dim_inv l _ H) as [[-> H1]|[s' [_ [H1 _]]]];
    injection H1 as -> _; reflexivity.
Qed.

(** With two dimensions or more, every item has the rest of the shape. *)
Lemma shape_items :
  forall (l : list (tensor A)) n m s,
    shape (Dim l) = Some (n :: m :: s) ->
    l <> [] /\ length l = n /\ Forall (fun x => shape x = Some (m :: s)) l.
Proof.
  intros l n m s H.
  destruct (shape_Dim_inv l _ H) as [[_ H1]|[s' [Hne [H1 Hall]]]]; [discriminate|].
  injection H1 as -> <-. auto.
Qed.
End ShapeFacts.

(* ===================================================================== *)
(** ** Sums *)
(* ===================================================================== *)

Local Open Scope Q_scope.

Lemma Qsum_app : forall a b, Qsum (a ++ b) == Qsum a + Qsum b.
Proof.
  unfold Qsum. induction a as [|x a IH]; intros b; cbn [app fold_right].
  - ring.
  - rewrite IH. ring.
Qed.

Lemma tsum_elems : forall t, tsum t == Qsum (elems t).
Proof.
  induction t as [q|l IH] using tensor_induction.
  - cbn [tsum elems]. unfold Qsum. cbn [fold_right]. ring.
  - cbn [tsum elems]. induction IH as [|x xs Hx _ IHxs]; cbn [map flat_map].
    + reflexivity.
    + rewrite Qsum_app, <- Hx, <- IHxs. reflexivity.
Qed.

Lemma map2_app :
  forall {A B C : Type} (f : A -> B -> C) a1 a2 b1 b2,
    length a1 = length b1 ->
    map2 f (a1 ++ a2) (b1 ++ b2) = map2 f a1 b1 ++ map2 f a2 b2.
Proof.
  induction a1 as [|x a1 IH]; intros a2 [|y b1] b2 H; cbn in *; try discriminate.
  - reflexivity.
  - f_equal. apply IH. lia.
Qed.

Lemma tzip_Dim :
  forall {A B C : Type} (f : A -> B -> C) la lb,
    tzip f (Dim la) (Dim lb) = Dim (map2 (tzip f) la lb).
Proof.
  intros A B C f la lb. cbn [tzip]. f_equal.
  revert lb. induction la as [|x la IH]; intros [|y lb]; cbn; try reflexivity.
  f_equal. apply IH.
Qed.

(** On two tensors of one shape, [tzip] combines the entries pairwise. *)
Lemma elems_tzip :
  forall {A B C : Type} (f : A -> B -> C) (a : tensor A) (b : tensor B) s,
    shape a = Some s -> shape b = Some s ->
    length (elems a) = length (elems b) /\
    elems (tzip f a b) = map2 f (elems a) (elems b).
Proof.
  intros A B C f a. induction a as [x|la IH] using tensor_induction; intros b s Ha Hb.
  - cbn in Ha. injection Ha as <-. destruct (shape_Scalar_inv b Hb) as [y ->].
    cbn. auto.
  - destruct b as [y|lb].
    { cbn in Hb. injection Hb as <-.
      destruct (shape_Dim_inv la [] Ha) as [[_ H1]|[s' [_ [H1 _]]]]; discriminate. }
    rewrite tzip_Dim. cbn [elems].
    destruct (shape_Dim_inv la s Ha) as [[-> ->]|[s' [Hne [-> Hall]]]].
    + destruct (shape_Dim_inv lb _ Hb) as [[-> _]|[s'' [Hne [H1 _]]]].
      * cbn. auto.
      * injection H1 as H1 _. destruct lb; [congruence|discriminate].
    + destruct (shape_Dim_inv lb _ Hb) as [[-> H1]|[s'' [Hne' [H1 Hall']]]].
      * injection H1 as H1 _. destruct la; [congruence|discriminate].
      * injection H1 as Hlen <-. clear Ha Hb Hne Hne'.
        revert lb Hlen Hall'. induction la as [|x la IHla]; intros [|y lb] Hlen Hall';
          cbn in Hlen; try discriminate.
        { cbn. auto. }
        inversion IH as [|? ? IHx IHrest]; subst.
        inversion Hall as [|? ? Hx Hrest]; subst.
        inversion Hall' as [|? ? Hy Hrest']; subst.
        destruct (IHx y s' Hx Hy) as [L1 E1].
        destruct (IHla IHrest Hrest lb ltac:(lia) Hrest') as [L2 E2].
        cbn [flat_map map2]. rewrite !length_app, map2_app by exact L1.
        split; [lia|]. rewrite E1, E2. reflexivity.
Qed.

(* ===================================================================== *)
(** ** The Dice coefficient *)
(* ===================================================================== *)

Lemma dice_entries :
  forall epsilon pred target s,
    shape pred = Some s -> shape target = Some s ->
    dice epsilon pred target == Claimed.dice_of_entries epsilon pred target.
Proof.
  intros epsilon pred target s Hp Ht. unfold dice, Claimed.dice_of_entries, Claimed.dot, tmul.
  cbv zeta. rewrite !tsum_elems.
  destruct (elems_tzip Qmult pred target s Hp Ht) as [_ ->]. reflexivity.
Qed.

Lemma Qsum_pointwise :
  forall l1 l2, Forall2 Qeq l1 l2 -> Qsum l1 == Qsum l2.
Proof.
  unfold Qsum. induction 1 as [|x y l1 l2 Hxy _ IH]; cbn [fold_right].
  - reflexivity.
  - rewrite Hxy, IH. reflexivity.
Qed.

Lemma mean_pointwise :
  forall l1 l2, Forall2 Qeq l1 l2 -> mean l1 == mean l2.
Proof.
  intros l1 l2 H. unfold mean.
  rewrite (Qsum_pointwise _ _ H), (Forall2_length H). reflexivity.
Qed.

Lemma dice_entries_items :
  forall epsilon preds targets s,
    Forall (fun x => shape x = Some s) preds ->
    Forall (fun x => shape x = Some s) targets ->
    Forall2 Qeq (map2 (dice epsilon) preds targets)
                (map2 (Claimed.dice_of_entries epsilon) preds targets).
Proof.
  intros epsilon preds targets s Hp. revert targets.
  induction Hp as [|p preds Hp _ IH]; intros targets Ht; cbn [map2].
  - constructor.
  - destruct Ht as [|t targets Ht Hts]; cbn [map2]; constructor.
    + apply (dice_entries epsilon p t s Hp Ht).
    + apply IH. exact Hts.
Qed.

Lemma dice_coeff_same_shape :
  forall input target reduce_batch_first epsilon,
    shape input = shape target ->
    dice_coeff input target reduce_batch_first epsilon =
      if reduce_batch_first then Ok (dice epsilon input target)
      else match input, target with
           | Dim preds, Dim targets => Ok (mean (map2 (dice epsilon) preds targets))
           | _, _ => Ok (dice epsilon input target)
           end.
Proof.
  intros input target rbf epsilon H. unfold dice_coeff.
  rewrite H, shape_eqb_refl. reflexivity.
Qed.

(** C2 (spec-modelled): on two arrays of one shape, [dice_coeff] with
    [reduce_batch_first] returns [(2*intersection + eps) / (sum(pred) +
    sum(target) + eps)], the intersection and the sums running over all the
    entries; without it, it returns the arithmetic mean over the batch of
    that value computed on each batch item. *)
Theorem dice_coeff_formula :
  forall pred target s epsilon,
    shape pred = Some s -> shape target = Some s ->
    (exists d, dice_coeff pred target true epsilon = Ok d /\
               d == Claimed.dice_of_entries epsilon pred target) /\
    (forall preds targets,
        pred = Dim preds -> target = Dim targets ->
        exists d, dice_coeff pred target false epsilon = Ok d /\
                  d == mean (map2 (Claimed.dice_of_entries epsilon) preds targets)).
Proof.
  intros pred target s epsilon Hp Ht. split.
  - exists (dice epsilon pred target). split.
    + rewrite dice_coeff_same_shape by congruence. reflexivity.
    + apply (dice_entries epsilon pred target s Hp Ht).
  - intros preds targets -> ->.
    exists (mean (map2 (dice epsilon) preds targets)). split.
    + rewrite dice_coeff_same_shape by congruence. reflexivity.
    + apply mean_pointwise.
      destruct (shape_Dim_inv preds s Hp) as [[-> _]|[s' [_ [-> Hall]]]].
      * constructor.
      * destruct (shape_Dim_inv targets _ Ht) as [[-> _]|[s'' [_ [H1 Hall']]]].
        { destruct preds; constructor. }
        injection H1 as _ <-. apply (dice_entries_items epsilon preds targets s' Hall Hall').
Qed.

(* ===================================================================== *)
(** ** The Dice loss *)
(* ===================================================================== *)

Lemma traverse_ok :
  forall {A B : Type} (f : A -> result B) l,
    (forall a, In a l -> exists b, f a = Ok b) ->
    exists bs, traverse f l = Ok bs.
Proof.
  intros A B f. induction l as [|a l IH]; intros H; cbn [traverse].
  - eexists. reflexivity.
  - destruct (H a (or_introl eq_refl)) as [b ->].
    destruct IH as [bs ->]; [intros; apply H; right; assumption|].
    eexists. reflexivity.
Qed.

(** A class channel of a tensor of shape (B, C, ...) has shape (B, ...). *)
Lemma shape_channel :
  forall {A : Type} (t : tensor A) b c rest k,
    shape t = Some (b :: c :: rest) -> (k < c)%nat ->
    shape (channel k t) = Some (b :: rest).
Proof.
  intros A t b c rest k Ht Hk.
  destruct (shape_cons_inv t _ _ Ht) as [items [-> _]].
  destruct (shape_items items _ _ _ Ht) as [Hne [Hlen Hall]].
  unfold channel. cbn [children].
  assert (H : length (flat_map (fun item => match nth_error (children item) k with
                                            | Some x => [x]
                                            | None => []
                                            end) items) = length items /\
              Forall (fun x => shape x = Some rest)
                (flat_map (fun item => match nth_error (children item) k with
                                       | Some x => [x]
                                       | None => []
                                       end) items)).
  { clear Ht Hne Hlen. induction Hall as [|item items Hitem _ IH]; cbn [flat_map].
    - split; [reflexivity|constructor].
    - destruct (shape_cons_inv item _ _ Hitem) as [chans [-> Hc]]. cbn [children].
      destruct (nth_error chans k) as [x|] eqn:Hx.
      + destruct IH as [IH1 IH2]. cbn [app length]. split; [lia|].
        constructor; [|exact IH2].
        destruct (shape_Dim_inv chans _ Hitem) as [[-> _]|[s' [_ [H1 Hch]]]].
        * destruct k; discriminate.
        * injection H1 as _ <-. rewrite Forall_forall in Hch.
          apply Hch. eapply nth_error_In. exact Hx.
      + apply nth_error_None in Hx. lia. }
  destruct H as [H1 H2]. rewrite <- Hlen, <- H1.
  apply shape_uniform; [|exact H2].
  intros E. rewrite E in H1. destruct items; [congruence|discriminate].
Qed.

Lemma multiclass_dice_coeff_ok :
  forall input target b c rest epsilon,
    shape input = Some (b :: c :: rest) -> shape target = Some (b :: c :: rest) ->
    exists d, multiclass_dice_coeff input target true epsilon = Ok d.
Proof.
  intros input target b c rest epsilon Hi Ht. unfold multiclass_dice_coeff.
  rewrite Hi, Ht, shape_eqb_refl. cbn [negb].
  destruct (traverse_ok (fun k => dice_coeff (channel k input) (channel k target) true epsilon)
              (seq 0 c)) as [ds ->].
  - intros k Hk. apply in_seq in Hk.
    rewrite dice_coeff_same_shape.
    + eexists. reflexivity.
    + rewrite (shape_channel input b c rest k Hi), (shape_channel target b c rest k Ht);
        [reflexivity|lia|lia].
  - eexists. reflexivity.
Qed.

(** C4 (spec-modelled): on a prediction and a target of one shape,
    [dice_loss] is exactly one minus the Dice coefficient computed with
    [reduce_batch_first = true]: [dice_coeff] when the flag is off, and, on
    arrays with a class dimension, [multiclass_dice_coeff] when it is on. *)
Theorem dice_loss_complement :
  forall input target s,
    shape input = Some s -> shape target = Some s ->
    (exists d, dice_coeff input target true default_epsilon = Ok d /\
               dice_loss input target false = Ok (1 - d)%Q) /\
    (forall b c rest,
        s = b :: c :: rest ->
        exists d, multiclass_dice_coeff input target true default_epsilon = Ok d /\
                  dice_loss input target true = Ok (1 - d)%Q).
Proof.
  intros input target s Hi Ht. split.
  - exists (dice default_epsilon input target).
    assert (H : dice_coeff input target true default_epsilon =
                Ok (dice default_epsilon input target))
      by (rewrite dice_coeff_same_shape by congruence; reflexivity).
    split; [exact H|]. unfold dice_loss. cbv zeta. rewrite H. reflexivity.
  - intros b c rest ->.
    destruct (multiclass_dice_coeff_ok input target b c rest default_epsilon Hi Ht)
      as [d Hd].
    exists d. split; [exact Hd|]. unfold dice_loss. cbv zeta. rewrite Hd. reflexivity.
Qed.

(* ===================================================================== *)
(** ** Shapes through the tensor operations *)
(* ===================================================================== *)

Lemma shape_tmap :
  forall {A B : Type} (f : A -> B) (t : tensor A), shape (tmap f t) = shape t.
Proof.
  intros A B f t. induction t as [a|l IH] using tensor_induction; [reflexivity|].
  cbn [tmap]. destruct l as [|x xs]; [reflexivity|].
  inversion IH as [|? ? Hx Hxs]; subst. cbn [map shape]. rewrite Hx.
  destruct (shape x) as [s|]; [|reflexivity].
  replace (forallb (fun y => shape_eqb (shape y) (Some s)) (map (tmap f) xs))
    with (forallb (fun y => shape_eqb (shape y) (Some s)) xs).
  - cbn [length]. rewrite length_map. reflexivity.
  - clear Hx IH. induction Hxs as [|y ys Hy _ IHys]; cbn [map forallb]; [reflexivity|].
    rewrite Hy, IHys. reflexivity.
Qed.

Lemma Forall_map2_shape :
  forall {A B C : Type} (g : tensor A -> tensor B -> tensor C) la lb s,
    Forall (fun x => forall b s, shape x = Some s -> shape b = Some s ->
                                 shape (g x b) = Some s) la ->
    Forall (fun x => shape x = Some s) la ->
    Forall (fun x => shape x = Some s) lb ->
    length la = length lb ->
    length (map2 g la lb) = length la /\
    Forall (fun x => shape x = Some s) (map2 g la lb).
Proof.
  intros A B C g la. induction la as [|x la IH]; intros [|y lb] s Hg Ha Hb Hlen;
    cbn in Hlen; try discriminate; cbn [map2 length].
  - split; [reflexivity|constructor].
  - inversion Hg as [|? ? Hg1 Hg2]; inversion Ha as [|? ? Ha1 Ha2];
      inversion Hb as [|? ? Hb1 Hb2]; subst.
    destruct (IH lb s Hg2 Ha2 Hb2 ltac:(lia)) as [L F].
    split; [lia|]. constructor; auto.
Qed.

Lemma shape_tzip :
  forall {A B C : Type} (f : A -> B -> C) (a : tensor A) (b : tensor B) s,
    shape a = Some s -> shape b = Some s -> shape (tzip f a b) = Some s.
Proof.
  intros A B C f a. induction a as [x|la IH] using tensor_induction; intros b s Ha Hb.
  - cbn in Ha. injection Ha as <-. destruct (shape_Scalar_inv b Hb) as [y ->].
    reflexivity.
  - destruct b as [y|lb].
    { cbn in Hb. injection Hb as <-.
      destruct (shape_Dim_inv la [] Ha) as [[_ H1]|[s' [_ [H1 _]]]]; discriminate. }
    rewrite tzip_Dim.
    destruct (shape_Dim_inv la s Ha) as [[-> ->]|[s' [Hne [-> Hall]]]].
    + destruct (shape_Dim_inv lb _ Hb) as [[-> _]|[s'' [Hne [H1 _]]]].
      * reflexivity.
      * injection H1 as H1 _. destruct lb; [congruence|discriminate].
    + destruct (shape_Dim_inv lb _ Hb) as [[-> H1]|[s'' [Hne' [H1 Hall']]]].
      * injection H1 as H1 _. destruct la; [congruence|discriminate].
      * injection H1 as Hlen <-.
        destruct (Forall_map2_shape (tzip f) la lb s' IH Hall Hall' Hlen) as [L F].
        rewrite <- L. apply shape_uniform; [|exact F].
        intros E. rewrite E in L. destruct la; [congruence|discriminate].
Qed.

Lemma shape_argmax_scan :
  forall chans k best s,
    shape best = Some s -> Forall (fun x => shape x = Some s) chans ->
    shape (argmax_scan k best chans) = Some s.
Proof.
  induction chans as [|c chans IH]; intros k best s Hb Hc; cbn [argmax_scan].
  - exact Hb.
  - inversion Hc; subst. apply IH; [|assumption].
    apply shape_tzip; assumption.
Qed.

Lemma shape_argmax_channels :
  forall chans s,
    chans <> [] -> Forall (fun x => shape x = Some s) chans ->
    shape (argmax_channels chans) = Some s.
Proof.
  intros [|c0 rest] s Hne Hall; [congruence|]. inversion Hall; subst.
  unfold argmax_channels. rewrite shape_tmap. apply shape_argmax_scan; [|assumption].
  rewrite shape_tmap. assumption.
Qed.

(** [argmax(dim=1)] on a tensor of shape (B, C, ...) with C > 0 returns a
    tensor of shape (B, ...). *)
Lemma argmax_dim1_shape :
  forall t b c rest,
    shape t = Some (b :: S c :: rest) ->
    exists labels, argmax_dim1 t = Ok labels /\ shape labels = Some (b :: rest).
Proof.
  intros t b c rest Ht. unfold argmax_dim1. rewrite Ht.
  eexists. split; [reflexivity|].
  destruct (shape_cons_inv t _ _ Ht) as [items [-> _]]. cbn [children].
  destruct (shape_items items _ _ _ Ht) as [Hne [Hlen Hall]].
  rewrite <- Hlen, <- (length_map (fun item => argmax_channels (children item)) items).
  apply shape_uniform.
  - destruct items; [congruence|discriminate].
  - apply Forall_map. eapply Forall_impl; [|exact Hall].
    intros item Hitem. cbn beta.
    destruct (shape_cons_inv item _ _ Hitem) as [chans [-> Hc]]. cbn [children].
    destruct (shape_Dim_inv chans _ Hitem) as [[_ H1]|[s' [Hne' [H1 Hch]]]];
      [discriminate|].
    injection H1 as _ <-. apply shape_argmax_channels; assumption.
Qed.

(** [one_hot] appends a dimension when no dimension is empty. *)
Lemma shape_encode :
  forall n (t : tensor Z) s,
    (0 < n)%nat -> shape t = Some s -> ~ In O s ->
    shape (encode n t) = Some (s ++ [n]).
Proof.
  intros n t. induction t as [l|items IH] using tensor_induction; intros s Hn Ht Hs.
  - cbn in Ht. injection Ht as <-. cbn [encode app].
    pose proof (shape_uniform
                  (map (fun c => Scalar (if (l =? Z.of_nat c)%Z then 1%Z else 0%Z)) (seq 0 n))
                  []) as H.
    rewrite length_map, length_seq in H. apply H.
    + destruct n; [lia|discriminate].
    + apply Forall_map. apply Forall_forall. reflexivity.
  - destruct (shape_Dim_inv items s Ht) as [[-> ->]|[s' [Hne [-> Hall]]]].
    + exfalso. apply Hs. left. reflexivity.
    + cbn [encode app]. rewrite <- (length_map (encode n) items).
      apply shape_uniform.
      * destruct items; [congruence|discriminate].
      * apply Forall_map. rewrite Forall_forall in *. intros x Hx.
        apply IH; auto. intros H0. apply Hs. right. exact H0.
Qed.

(* ===================================================================== *)
(** ** Hard masks *)
(* ===================================================================== *)

Lemma tmap_tmap :
  forall {A B C : Type} (f : A -> B) (g : B -> C) (t : tensor A),
    tmap g (tmap f t) = tmap (fun a => g (f a)) t.
Proof.
  intros A B C f g t. induction t as [a|l IH] using tensor_induction; [reflexivity|].
  cbn [tmap]. f_equal. rewrite map_map. apply map_ext_in.
  rewrite Forall_forall in IH. exact IH.
Qed.

Lemma tmap_ext :
  forall {A B : Type} (f g : A -> B) (t : tensor A),
    (forall a, f a = g a) -> tmap f t = tmap g t.
Proof.
  intros A B f g t H. induction t as [a|l IH] using tensor_induction.
  - cbn. f_equal. apply H.
  - cbn [tmap]. f_equal. apply map_ext_in. rewrite Forall_forall in IH. exact IH.
Qed.

Lemma nth_error_map_seq :
  forall {A : Type} (g : nat -> A) n a k,
    (k < n)%nat -> nth_error (map g (seq a n)) k = Some (g (a + k)%nat).
Proof.
  intros A g. induction n as [|n IH]; intros a k Hk; [lia|].
  cbn [seq map]. destruct k as [|k]; cbn [nth_error].
  - rewrite Nat.add_0_r. reflexivity.
  - rewrite IH by lia. f_equal. f_equal. lia.
Qed.

(** The first dimensions of a shape are not empty. *)
Lemma shape_leading_positive :
  forall {A : Type} (t : tensor A) n m s, shape t = Some (n :: m :: s) -> (0 < n)%nat.
Proof.
  intros A t n m s Ht. destruct (shape_cons_inv t _ _ Ht) as [l [-> _]].
  destruct (shape_items l _ _ _ Ht) as [Hne [Hlen _]].
  destruct l; [congruence|]. cbn in Hlen. lia.
Qed.

Lemma shape_second_positive :
  forall {A : Type} (t : tensor A) n m k s,
    shape t = Some (n :: m :: k :: s) -> (0 < m)%nat.
Proof.
  intros A t n m k s Ht. destruct (shape_cons_inv t _ _ Ht) as [l [-> _]].
  destruct (shape_items l _ _ _ Ht) as [Hne [_ Hall]].
  destruct l as [|x l]; [congruence|]. inversion Hall; subst.
  eapply shape_leading_positive; eassumption.
Qed.

(** The label indicator that [one_hot] writes. *)
Local Abbreviation hot c := (fun l : Z => if (l =? Z.of_nat c)%Z then 1%Z else 0%Z).

(** One-hot encoding followed by [permute(0, 3, 1, 2)] lays out, for each
    batch item, one indicator plane per class. *)
Lemma permute_one_hot :
  forall n (t : tensor Z) b h w,
    (0 < n)%nat -> (0 < w)%nat -> shape t = Some [b; h; w] ->
    permute_0312 (encode n t) =
      Ok (Dim (map (fun item => Dim (map (fun c => tmap (hot c) item) (seq 0 n)))
                   (children t))).
Proof.
  intros n t b h w Hn Hw Ht.
  assert (Hshape : shape (encode n t) = Some [b; h; w; n]).
  { apply (shape_encode n t [b; h; w] Hn Ht).
    pose proof (shape_leading_positive t _ _ _ Ht).
    pose proof (shape_second_positive t _ _ _ _ Ht).
    cbn. lia. }
  unfold permute_0312. rewrite Hshape. f_equal. f_equal.
  destruct (shape_cons_inv t _ _ Ht) as [items [-> _]].
  destruct (shape_items items _ _ _ Ht) as [_ [_ Hitems]].
  cbn [encode children]. rewrite map_map. apply map_ext_in.
  intros item Hitem. rewrite Forall_forall in Hitems. specialize (Hitems item Hitem).
  destruct (shape_cons_inv item _ _ Hitems) as [rows [-> _]].
  destruct (shape_items rows _ _ _ Hitems) as [_ [_ Hrows]].
  unfold last_to_front. cbn [encode children tmap]. f_equal.
  apply map_ext_in. intros k Hk. apply in_seq in Hk. f_equal.
  rewrite map_map. apply map_ext_in.
  intros row Hrow. rewrite Forall_forall in Hrows. specialize (Hrows row Hrow).
  destruct (shape_cons_inv row _ _ Hrows) as [pxs [-> Hlen]].
  destruct (shape_Dim_inv pxs _ Hrows) as [[-> _]|[s' [_ [H1 Hpxs]]]];
    [cbn in Hlen; lia|].
  injection H1 as _ <-. cbn [encode children tmap]. f_equal.
  clear Hrows Hrow Hlen. induction Hpxs as [|px pxs Hpx _ IH]; [reflexivity|].
  destruct (shape_Scalar_inv px Hpx) as [l ->].
  cbn [map flat_map encode children tmap].
  rewrite (nth_error_map_seq (fun c => Scalar (hot c l)) n 0 k) by lia.
  cbn [app Nat.add]. f_equal. exact IH.
Qed.

Lemma to_float_planes :
  forall n (t : tensor Z),
    to_float (Dim (map (fun item => Dim (map (fun c => tmap (hot c) item) (seq 0 n)))
                       (children t))) =
    Claimed.class_planes 0 n t.
Proof.
  intros n t. unfold to_float, Claimed.class_planes. cbn [tmap]. f_equal.
  rewrite map_map. apply map_ext. intros item. cbn [tmap]. f_equal.
  rewrite map_map. apply map_ext. intros c. rewrite tmap_tmap.
  apply tmap_ext. intros l. unfold Claimed.indicator.
  destruct (l =? Z.of_nat c)%Z; reflexivity.
Qed.

(** Dropping channel 0 of the planes of all classes leaves the planes of
    the classes from 1 on. *)
Lemma drop_channel0_planes :
  forall n (t : tensor Z) b h w,
    shape t = Some [b; h; w] ->
    drop_channel0 (Claimed.class_planes 0 (S n) t) = Ok (Claimed.class_planes 1 n t).
Proof.
  intros n t b h w Ht.
  destruct (shape_cons_inv t _ _ Ht) as [items [-> _]].
  destruct (shape_items items _ _ _ Ht) as [Hne [Hlen Hitems]].
  assert (Hshape : shape (Claimed.class_planes 0 (S n) (Dim items)) =
                   Some [b; S n; h; w]).
  { unfold Claimed.class_planes. cbn [children].
    rewrite <- Hlen,
      <- (length_map (fun item => Dim (map (fun c => tmap (Claimed.indicator c) item)
                                           (seq 0 (S n)))) items).
    apply shape_uniform.
    - destruct items; [congruence|discriminate].
    - apply Forall_map. eapply Forall_impl; [|exact Hitems].
      intros item Hitem. cbn beta.
      pose proof (shape_uniform
                    (map (fun c => tmap (Claimed.indicator c) item) (seq 0 (S n)))
                    [h; w]) as H.
      rewrite length_map, length_seq in H. apply H; [discriminate|].
      apply Forall_map. apply Forall_forall. intros c _. rewrite shape_tmap. exact Hitem. }
  unfold drop_channel0. rewrite Hshape. f_equal.
  unfold Claimed.class_planes. cbn [children]. f_equal. rewrite map_map. reflexivity.
Qed.

Lemma labels_within_true :
  forall (t : tensor Z) (upper_ok : Z -> bool),
    labels_within t upper_ok = Ok true ->
    exists x xs, elems t = x :: xs /\
                 (0 <= fold_left Z.min xs x)%Z /\
                 upper_ok (fold_left Z.max xs x) = true.
Proof.
  intros t upper_ok. unfold labels_within, tmin, tmax.
  destruct (elems t) as [|x xs]; [discriminate|]. cbn [bind].
  destruct (0 <=? fold_left Z.min xs x)%Z eqn:E; cbn [bind]; [|discriminate].
  intros H. injection H as H. exists x, xs. apply Z.leb_le in E. auto.
Qed.

Lemma one_hot_inv :
  forall t num_classes hot,
    one_hot t num_classes = Ok hot -> num_classes <> (-1)%Z ->
    hot = encode (Z.to_nat num_classes) t.
Proof.
  intros t n hot H Hn. unfold one_hot in H.
  apply Z.eqb_neq in Hn.
  destruct (elems t) as [|x xs].
  - destruct (n <=? 0)%Z; [discriminate|]. injection H as <-. reflexivity.
  - destruct (fold_left Z.min xs x <? 0)%Z; [discriminate|]. rewrite Hn in H.
    destruct (fold_left Z.max xs x <? n)%Z; [|discriminate].
    injection H as <-. reflexivity.
Qed.

Lemma one_hot_in_range :
  forall t num_classes x xs,
    elems t = x :: xs ->
    (0 <= fold_left Z.min xs x)%Z ->
    (fold_left Z.max xs x <? num_classes)%Z = true ->
    one_hot t num_classes = Ok (encode (Z.to_nat num_classes) t).
Proof.
  intros t n x xs He Hlo Hhi. unfold one_hot. rewrite He.
  replace (fold_left Z.min xs x <? 0)%Z with false
    by (symmetry; apply Z.ltb_ge; exact Hlo).
  rewrite Hhi.
  destruct (n =? -1)%Z eqn:E; [|reflexivity].
  exfalso. apply Z.eqb_eq in E. apply Z.ltb_lt in Hhi.
  destruct (fold_min_lower xs x) as [H1 _]. destruct (fold_max_upper xs x) as [H2 _]. lia.
Qed.

(** The comparison of [torch] on exact numbers is the strict order. *)
Lemma Qltb_lt : forall a b, Qltb a b = true <-> a < b.
Proof.
  intros a b. unfold Qltb. rewrite negb_true_iff. split.
  - intros H. apply Qnot_le_lt. intros Hle. apply Qle_bool_iff in Hle. congruence.
  - intros H. destruct (Qle_bool b a) eqn:E; [|reflexivity].
    apply Qle_bool_iff in E. exfalso. exact (Qlt_not_le _ _ H E).
Qed.

(** [(F.sigmoid(p) > 0.5).float()] is the hard mask of the specification. *)
Lemma threshold_thresholded :
  forall sigmoid (t : tensor Q),
    threshold (tmap sigmoid t) = Claimed.thresholded sigmoid t.
Proof.
  intros sigmoid t. unfold threshold, Claimed.thresholded. rewrite tmap_tmap.
  apply tmap_ext. intros x.
  destruct (Qlt_le_dec (1 # 2) (sigmoid x)) as [Hlt|Hle].
  - apply Qltb_lt in Hlt. rewrite Hlt. reflexivity.
  - destruct (Qltb (1 # 2) (sigmoid x)) eqn:E; [|reflexivity].
    apply Qltb_lt in E. exfalso. exact (Qlt_not_le _ _ E Hle).
Qed.

Lemma elems_tmap :
  forall {A B : Type} (f : A -> B) (t : tensor A), elems (tmap f t) = map f (elems t).
Proof.
  intros A B f t. induction t as [a|l IH] using tensor_induction; [reflexivity|].
  cbn [tmap elems]. induction IH as [|x xs Hx _ IHxs]; [reflexivity|].
  cbn [map flat_map]. rewrite map_app, Hx, IHxs. reflexivity.
Qed.

Lemma nth_error_map2 :
  forall {A B C : Type} (f : A -> B -> C) l1 l2 p c,
    nth_error (map2 f l1 l2) p = Some c ->
    exists a b, nth_error l1 p = Some a /\ nth_error l2 p = Some b /\ c = f a b.
Proof.
  intros A B C f. induction l1 as [|x l1 IH]; intros [|y l2] [|p] c H;
    cbn in H; try discriminate.
  - injection H as <-. exists x, y. auto.
  - cbn [nth_error]. apply IH. exact H.
Qed.

Lemma nth_error_map_inv :
  forall {A B : Type} (f : A -> B) l p b,
    nth_error (map f l) p = Some b -> exists a, nth_error l p = Some a /\ b = f a.
Proof.
  intros A B f. induction l as [|x l IH]; intros [|p] b H; cbn in H; try discriminate.
  - injection H as <-. exists x. auto.
  - cbn [nth_error]. apply IH. exact H.
Qed.

Lemma scores_at_app :
  forall p processed c,
    Claimed.scores_at p (processed ++ [c]) =
      Claimed.scores_at p processed ++ [nth p (elems c) 0].
Proof. intros p processed c. unfold Claimed.scores_at. rewrite map_app. reflexivity. Qed.

(** Taking one more value into account: the arg-max moves to the new value
    exactly when it is strictly larger. *)
Lemma first_max_step :
  forall vals k v,
    Claimed.first_max vals k ->
    Claimed.first_max (vals ++ [v])
      (if Qltb (nth k vals 0) v then length vals else k).
Proof.
  intros vals k v [Hk [Hmax Hfirst]].
  destruct (Qltb (nth k vals 0) v) eqn:E.
  - apply Qltb_lt in E. unfold Claimed.first_max.
    rewrite length_app, nth_middle. cbn [length]. split; [lia|]. split.
    + intros j Hj. destruct (Nat.eq_dec j (length vals)) as [->|Hne].
      * rewrite nth_middle. apply Qle_refl.
      * rewrite app_nth1 by lia. apply Qlt_le_weak.
        apply Qle_lt_trans with (nth k vals 0); [apply Hmax; lia|exact E].
    + intros j Hj. rewrite app_nth1 by lia.
      apply Qle_lt_trans with (nth k vals 0); [apply Hmax; lia|exact E].
  - assert (Hle : v <= nth k vals 0).
    { apply Qnot_lt_le. intros Hlt. apply Qltb_lt in Hlt. congruence. }
    unfold Claimed.first_max. rewrite length_app. cbn [length].
    rewrite (app_nth1 vals [v] 0 Hk). split; [lia|]. split.
    + intros j Hj. destruct (Nat.eq_dec j (length vals)) as [->|Hne].
      * rewrite nth_middle. exact Hle.
      * rewrite app_nth1 by lia. apply Hmax. lia.
    + intros j Hj. rewrite app_nth1 by lia. apply Hfirst. exact Hj.
Qed.

(** The scan over the channels keeps, at every position, the first largest
    value seen so far and its index. *)
Lemma argmax_scan_spec :
  forall s rest processed best,
    shape best = Some s ->
    Forall (fun c => shape c = Some s) rest ->
    (forall p e, nth_error (elems best) p = Some e ->
       exists k, e = (nth k (Claimed.scores_at p processed) 0, Z.of_nat k) /\
                 Claimed.first_max (Claimed.scores_at p processed) k) ->
    forall p e,
      nth_error (elems (argmax_scan (Z.of_nat (length processed)) best rest)) p = Some e ->
      exists k, e = (nth k (Claimed.scores_at p (processed ++ rest)) 0, Z.of_nat k) /\
                Claimed.first_max (Claimed.scores_at p (processed ++ rest)) k.
Proof.
  intros s. induction rest as [|c rest IH]; intros processed best Hbest Hrest Hinv p e He.
  - rewrite app_nil_r. cbn [argmax_scan] in He. apply Hinv. exact He.
  - inversion Hrest as [|? ? Hc Hrest']; subst. cbn [argmax_scan] in He.
    replace (processed ++ c :: rest) with ((processed ++ [c]) ++ rest)
      by (rewrite <- app_assoc; reflexivity).
    apply (IH (processed ++ [c])
              (tzip (better (Z.of_nat (length processed))) best c)).
    + apply shape_tzip; assumption.
    + exact Hrest'.
    + clear p e He. intros p e He.
      destruct (elems_tzip (better (Z.of_nat (length processed))) best c s Hbest Hc)
        as [_ Hel].
      rewrite Hel in He.
      destruct (nth_error_map2 _ _ _ _ _ He) as [b0 [v [Hb [Hv ->]]]].
      destruct (Hinv p b0 Hb) as [k [-> Hmax]].
      rewrite scores_at_app. rewrite (nth_error_nth _ _ 0 Hv).
      pose proof (first_max_step _ _ v Hmax) as Hstep.
      unfold better. cbn [fst].
      assert (Hlen : length (Claimed.scores_at p processed) = length processed)
        by (unfold Claimed.scores_at; apply length_map).
      destruct (Qltb (nth k (Claimed.scores_at p processed) 0) v).
      * exists (length processed). rewrite <- Hlen. rewrite nth_middle.
        split; [reflexivity|exact Hstep].
      * exists k. destruct Hmax as [Hk _].
        rewrite (app_nth1 _ [v] 0 Hk). split; [reflexivity|exact Hstep].
    + rewrite length_app. cbn [length].
      replace (Z.of_nat (length processed + 1)) with (Z.of_nat (length processed) + 1)%Z
        by lia.
      exact He.
Qed.

(** [argmax_channels] is the arg-max of the specification on every batch
    item. *)
Lemma argmax_channels_spec :
  forall chans s,
    chans <> [] -> Forall (fun c => shape c = Some s) chans ->
    Claimed.argmax_item chans (argmax_channels chans).
Proof.
  intros [|c0 rest] s Hne Hall; [congruence|].
  split.
  - intros c Hc. rewrite (shape_argmax_channels (c0 :: rest) s Hne Hall).
    rewrite Forall_forall in Hall. symmetry. apply Hall. exact Hc.
  - inversion Hall as [|? ? Hc0 Hrest]; subst.
    intros p l Hl. unfold argmax_channels in Hl. rewrite elems_tmap in Hl.
    destruct (nth_error_map_inv _ _ _ _ Hl) as [e [He ->]].
    destruct (argmax_scan_spec s rest [c0] (tmap (fun v => (v, 0%Z)) c0)) with (p := p) (e := e)
      as [k [-> Hmax]].
    + rewrite shape_tmap. exact Hc0.
    + exact Hrest.
    + intros p' e' He'. rewrite elems_tmap in He'.
      destruct (nth_error_map_inv _ _ _ _ He') as [v [Hv ->]].
      exists 0%nat. unfold Claimed.scores_at. cbn [map nth].
      rewrite (nth_error_nth _ _ 0 Hv). split; [reflexivity|].
      split; [cbn; lia|]. split.
      * intros j Hj. cbn [length] in Hj. replace j with 0%nat by lia.
        cbn [nth]. apply Qle_refl.
      * intros j Hj. lia.
    + exact He.
    + exists k. split; [reflexivity|exact Hmax].
Qed.

(** [argmax(dim=1)] is the arg-max of the specification. *)
Lemma argmax_dim1_labels :
  forall t labels, argmax_dim1 t = Ok labels -> Claimed.argmax_labels t labels.
Proof.
  intros t labels H. unfold argmax_dim1 in H.
  destruct (shape t) as [[|b [|[|c] rest]]|] eqn:Ht; try discriminate.
  injection H as <-.
  destruct (shape_cons_inv t _ _ Ht) as [items [-> _]].
  destruct (shape_items items _ _ _ Ht) as [_ [_ Hall]].
  unfold Claimed.argmax_labels. cbn [children].
  clear Ht. induction Hall as [|item items Hitem _ IH]; cbn [map]; constructor;
    [|exact IH].
  destruct (shape_cons_inv item _ _ Hitem) as [chans [-> _]]. cbn [children].
  destruct (shape_Dim_inv chans _ Hitem) as [[_ H1]|[s' [Hne [_ Hch]]]]; [discriminate|].
  apply (argmax_channels_spec chans s' Hne Hch).
Qed.

Lemma Forall2_In_r :
  forall {A B : Type} (R : A -> B -> Prop) l1 l2 y,
    Forall2 R l1 l2 -> In y l2 -> exists x, In x l1 /\ R x y.
Proof.
  intros A B R l1 l2 y H. induction H as [|a b l1 l2 Hab _ IH]; intros Hy; [destruct Hy|].
  destruct Hy as [<-|Hy].
  - exists a. split; [left; reflexivity|exact Hab].
  - destruct (IH Hy) as [x [Hx Hr]]. exists x. split; [right; exact Hx|exact Hr].
Qed.

(** The arg-max labels of a prediction with [c] channels are below [c]. *)
Lemma argmax_labels_range :
  forall t labels b c rest,
    shape t = Some (b :: c :: rest) ->
    shape labels = Some (b :: rest) ->
    Claimed.argmax_labels t labels ->
    forall l, In l (elems labels) -> (0 <= l < Z.of_nat c)%Z.
Proof.
  intros t labels b c rest Ht Hl Harg l Hin.
  destruct (shape_cons_inv t _ _ Ht) as [items [-> _]].
  destruct (shape_items items _ _ _ Ht) as [_ [_ Hall]].
  destruct (shape_cons_inv labels _ _ Hl) as [labs [-> _]].
  unfold Claimed.argmax_labels in Harg. cbn [children] in Harg.
  cbn [elems] in Hin. apply in_flat_map in Hin. destruct Hin as [lab [Hlab Hin]].
  destruct (Forall2_In_r _ _ _ _ Harg Hlab) as [item [Hitem [_ Hpos]]].
  rewrite Forall_forall in Hall. specialize (Hall item Hitem).
  destruct (shape_cons_inv item _ _ Hall) as [chans [-> Hlen]]. cbn [children] in Hpos.
  destruct (In_nth_error _ _ Hin) as [p Hp].
  destruct (Hpos p l Hp) as [k [-> [Hk _]]].
  unfold Claimed.scores_at in Hk. rewrite length_map, Hlen in Hk. lia.
Qed.

(** [one_hot] returns on labels below the number of classes. *)
Lemma one_hot_valid :
  forall t n,
    (0 < n)%Z -> (forall l, In l (elems t) -> (0 <= l < n)%Z) ->
    one_hot t n = Ok (encode (Z.to_nat n) t).
Proof.
  intros t n Hn Hall. unfold one_hot.
  destruct (elems t) as [|x xs] eqn:E.
  - replace (n <=? 0)%Z with false by (symmetry; apply Z.leb_gt; exact Hn). reflexivity.
  - pose proof (Hall _ (fold_min_in xs x)) as Hmin.
    pose proof (Hall _ (fold_max_in xs x)) as Hmax.
    replace (fold_left Z.min xs x <? 0)%Z with false by (symmetry; apply Z.ltb_ge; lia).
    replace (n =? -1)%Z with false by (symmetry; apply Z.eqb_neq; lia).
    replace (fold_left Z.max xs x <? n)%Z with true by (symmetry; apply Z.ltb_lt; lia).
    reflexivity.
Qed.

(** The planes of [count] classes of labels of shape (B, H, W) have shape
    (B, count, H, W). *)
Lemma shape_class_planes :
  forall first count (t : tensor Z) b h w,
    shape t = Some [b; h; w] -> (0 < count)%nat ->
    shape (Claimed.class_planes first count t) = Some [b; count; h; w].
Proof.
  intros first count t b h w Ht Hcount.
  destruct (shape_cons_inv t _ _ Ht) as [items [-> _]].
  destruct (shape_items items _ _ _ Ht) as [Hne [Hlen Hitems]].
  unfold Claimed.class_planes. cbn [children].
  rewrite <- Hlen,
    <- (length_map (fun item => Dim (map (fun c => tmap (Claimed.indicator c) item)
                                         (seq first count))) items).
  apply shape_uniform.
  - destruct items; [congruence|discriminate].
  - apply Forall_map. eapply Forall_impl; [|exact Hitems].
    intros item Hitem. cbn beta.
    pose proof (shape_uniform
                  (map (fun c => tmap (Claimed.indicator c) item) (seq first count))
                  [h; w]) as H.
    rewrite length_map, length_seq in H. apply H.
    + destruct count; [lia|discriminate].
    + apply Forall_map. apply Forall_forall. intros c _. rewrite shape_tmap. exact Hitem.
Qed.

(** On arguments of one shape with a class dimension the multiclass
    coefficient is defined, with and without [reduce_batch_first]. *)
Lemma multiclass_dice_coeff_returns :
  forall input target b c rest reduce_batch_first epsilon,
    shape input = Some (b :: c :: rest) -> shape target = Some (b :: c :: rest) ->
    exists d, multiclass_dice_coeff input target reduce_batch_first epsilon = Ok d.
Proof.
  intros input target b c rest rbf epsilon Hi Ht. unfold multiclass_dice_coeff.
  rewrite Hi, Ht, shape_eqb_refl. cbn [negb].
  destruct (traverse_ok (fun k => dice_coeff (channel k input) (channel k target) rbf epsilon)
              (seq 0 c)) as [ds ->].
  - intros k Hk. apply in_seq in Hk.
    rewrite dice_coeff_same_shape.
    + destruct rbf; [eexists; reflexivity|]. unfold channel. eexists. reflexivity.
    + rewrite (shape_channel input b c rest k Hi), (shape_channel target b c rest k Ht);
        [reflexivity|lia|lia].
  - eexists. reflexivity.
Qed.

Section HardMasks.
Variable sigmoid : Q -> Q.
Variable softmax_dim1 : tensor Q -> result (tensor Q).

Local Abbreviation loop_body := (Evaluate.loop_body sigmoid softmax_dim1).
Local Abbreviation batch_loss := (Evaluate.batch_loss sigmoid softmax_dim1).
Local Abbreviation batch_score := (Evaluate.batch_score sigmoid).

(** What a returning loop body has done. *)
Lemma loop_body_inv :
  forall net criterion dice_score loss_total b dice_score' loss_total',
    loop_body net criterion dice_score loss_total b = Ok (dice_score', loss_total') ->
    exists mask_pred loss d,
      to_channels_last (image b) = Ok (image b) /\
      call net (image b) = Ok mask_pred /\
      batch_loss net criterion mask_pred (mask b) = Ok loss /\
      batch_score net mask_pred (mask b) = Ok d /\
      dice_score' = iadd_tensor dice_score d /\
      loss_total' = iadd_tensor loss_total loss.
Proof.
  intros net criterion ds lt b ds' lt' H. unfold Evaluate.loop_body in H.
  destruct (to_channels_last (image b)) as [img|e] eqn:EI; [|discriminate].
  destruct (to_channels_last_inv _ _ EI) as [-> _]. cbn [bind] in H.
  destruct (call net (image b)) as [mask_pred|e]; [|discriminate]. cbn [bind] in H.
  destruct (Evaluate.batch_loss _ _ _ _ _ _) as [loss|e] eqn:EL; [|discriminate].
  cbn [bind] in H.
  destruct (batch_score net mask_pred (mask b)) as [d|e] eqn:ES; [|discriminate].
  cbn [bind] in H. injection H as <- <-.
  exists mask_pred, loss, d. auto 7.
Qed.

(** On valid labels the one-class score is the Dice coefficient of the
    thresholded sigmoid output, whether it is defined or not. *)
Lemma batch_score_one_class :
  forall net mask_pred mask_true,
    n_classes net = 1%Z ->
    Claimed.valid_labels 1 mask_true ->
    batch_score net mask_pred mask_true =
      dice_coeff (Claimed.thresholded sigmoid mask_pred) (to_float mask_true) false
        default_epsilon.
Proof.
  intros net mask_pred mask_true Hn Hvalid. unfold Evaluate.batch_score.
  rewrite Hn. apply (labels_within_valid 1) in Hvalid.
  cbn [Z.eqb Pos.eqb] in *. rewrite Hvalid. cbn [bind py_assert].
  rewrite threshold_thresholded. reflexivity.
Qed.

Lemma batch_score_binary :
  forall net mask_pred mask_true d,
    n_classes net = 1%Z ->
    batch_score net mask_pred mask_true = Ok d ->
    dice_coeff (Claimed.thresholded sigmoid mask_pred) (to_float mask_true) false
      default_epsilon = Ok d.
Proof.
  intros net mask_pred mask_true d Hn H. unfold Evaluate.batch_score in H.
  rewrite Hn in H. cbn [Z.eqb Pos.eqb] in H.
  destruct (labels_within mask_true _) as [[|]|e]; cbn [bind py_assert] in H;
    try discriminate.
  rewrite threshold_thresholded in H. exact H.
Qed.

(** With the channel dimension that a U-Net output has, the one-class
    branch hands [dice_coeff] a prediction of shape (B, 1, H, W) and a mask
    of shape (B, H, W): under the shape rule of section 4.1 no score is
    returned for such a batch. *)
Lemma batch_score_one_class_channel_dim :
  forall net mask_pred mask_true nb h w,
    n_classes net = 1%Z ->
    shape mask_pred = Some [nb; 1%nat; h; w] ->
    shape mask_true = Some [nb; h; w] ->
    exists e, batch_score net mask_pred mask_true = Raise e.
Proof.
  intros net mask_pred mask_true nb h w Hn Hp Hm.
  destruct (batch_score net mask_pred mask_true) as [d|e] eqn:E; [|eauto].
  exfalso. apply (batch_score_binary net _ _ _ Hn) in E.
  unfold dice_coeff, Claimed.thresholded, to_float in E.
  rewrite !shape_tmap, Hp, Hm in E. unfold shape_eqb in E.
  destruct (list_eq_dec Nat.eq_dec [nb; 1%nat; h; w] [nb; h; w]) as [Heq|_].
  - injection Heq as _ _ Heq. discriminate Heq.
  - discriminate E.
Qed.

Lemma batch_score_multiclass :
  forall net mask_pred mask_true nb c h w d,
    n_classes net <> 1%Z ->
    shape mask_pred = Some [nb; c; h; w] ->
    shape mask_true = Some [nb; h; w] ->
    (0 < w)%nat ->
    batch_score net mask_pred mask_true = Ok d ->
    exists labels,
      argmax_dim1 mask_pred = Ok labels /\
      Claimed.argmax_labels mask_pred labels /\
      multiclass_dice_coeff
        (Claimed.class_planes 1 (Z.to_nat (n_classes net) - 1) labels)
        (Claimed.class_planes 1 (Z.to_nat (n_classes net) - 1) mask_true)
        false default_epsilon = Ok d.
Proof.
  intros net mask_pred mask_true nb c h w d Hn Hpred Hmask Hw H.
  unfold Evaluate.batch_score in H.
  apply Z.eqb_neq in Hn. rewrite Hn in H.
  destruct (labels_within mask_true _) as [[|]|e] eqn:EL; cbn [bind py_assert] in H;
    try discriminate.
  destruct (labels_within_true _ _ EL) as [x [xs [He [Hlo Hhi]]]].
  rewrite (one_hot_in_range mask_true _ x xs He Hlo Hhi) in H. cbn [bind] in H.
  assert (HN : (0 < Z.to_nat (n_classes net))%nat).
  { apply Z.ltb_lt in Hhi.
    destruct (fold_min_lower xs x) as [H1 _]. destruct (fold_max_upper xs x) as [H2 _].
    lia. }
  rewrite (permute_one_hot _ mask_true nb h w HN Hw Hmask) in H. cbn [bind] in H.
  destruct c as [|c].
  { unfold argmax_dim1 in H. rewrite Hpred in H. discriminate. }
  destruct (argmax_dim1_shape mask_pred nb c [h; w] Hpred) as [labels [Ha Hl]].
  rewrite Ha in H. cbn [bind] in H.
  destruct (one_hot labels (n_classes net)) as [hot_pred|e] eqn:EO; [|discriminate].
  cbn [bind] in H.
  assert (Hm1 : n_classes net <> (-1)%Z) by lia.
  rewrite (one_hot_inv _ _ _ EO Hm1) in H.
  rewrite (permute_one_hot _ labels nb h w HN Hw Hl) in H. cbn [bind] in H.
  rewrite !to_float_planes in H.
  destruct (Z.to_nat (n_classes net)) as [|n]; [lia|].
  rewrite (drop_channel0_planes n labels nb h w Hl) in H. cbn [bind] in H.
  rewrite (drop_channel0_planes n mask_true nb h w Hmask) in H. cbn [bind] in H.
  exists labels. split; [exact Ha|]. split; [apply argmax_dim1_labels; exact Ha|].
  replace (S n - 1)%nat with n by lia. exact H.
Qed.

(** A prediction with one channel per class and a mask with valid labels
    always get a score. *)
Lemma batch_score_multiclass_returns :
  forall net mask_pred mask_true nb c h w,
    (1 < n_classes net)%Z ->
    n_classes net = Z.of_nat c ->
    shape mask_pred = Some [nb; c; h; w] ->
    shape mask_true = Some [nb; h; w] ->
    (0 < w)%nat ->
    Claimed.valid_labels (n_classes net) mask_true ->
    exists d, batch_score net mask_pred mask_true = Ok d.
Proof.
  intros net mask_pred mask_true nb c h w Hn Hc Hpred Hmask Hw Hvalid.
  unfold Evaluate.batch_score.
  assert (Hn1 : (n_classes net =? 1)%Z = false) by (apply Z.eqb_neq; lia).
  pose proof (proj2 (labels_within_valid (n_classes net) mask_true) Hvalid) as HL.
  rewrite Hn1 in *. rewrite HL. cbn [bind py_assert].
  assert (Hrange : forall l, In l (elems mask_true) -> (0 <= l < n_classes net)%Z).
  { intros l Hl. destruct Hvalid as [_ Hall]. specialize (Hall l Hl).
    unfold Claimed.label_in_range in Hall. rewrite Hn1 in Hall.
    apply andb_prop in Hall. destruct Hall as [H1 H2].
    apply Z.leb_le in H1. apply Z.ltb_lt in H2. lia. }
  rewrite (one_hot_valid mask_true (n_classes net)) by (lia || exact Hrange).
  cbn [bind].
  assert (HN : (0 < Z.to_nat (n_classes net))%nat) by lia.
  rewrite (permute_one_hot _ mask_true nb h w HN Hw Hmask). cbn [bind].
  destruct c as [|c]; [lia|].
  destruct (argmax_dim1_shape mask_pred nb c [h; w] Hpred) as [labels [Ha Hl]].
  rewrite Ha. cbn [bind].
  pose proof (argmax_labels_range mask_pred labels nb (S c) [h; w] Hpred Hl
                (argmax_dim1_labels _ _ Ha)) as Hlab.
  rewrite (one_hot_valid labels (n_classes net)) by (lia || (rewrite Hc; exact Hlab)).
  cbn [bind].
  rewrite (permute_one_hot _ labels nb h w HN Hw Hl). cbn [bind].
  rewrite !to_float_planes.
  replace (Z.to_nat (n_classes net)) with (S c) by lia.
  rewrite (drop_channel0_planes c labels nb h w Hl). cbn [bind].
  rewrite (drop_channel0_planes c mask_true nb h w Hmask). cbn [bind].
  apply (multiclass_dice_coeff_returns _ _ nb c [h; w]).
  - apply shape_class_planes; [exact Hl|lia].
  - apply shape_class_planes; [exact Hmask|lia].
Qed.

(** C3: the Dice score that a batch adds to the running sum is the score
    of the predictions on the masks of the batch.  For a one-class model
    and valid labels that score is the Dice coefficient, with
    [reduce_batch_first = false], of the mask that is 1 exactly where the
    sigmoid output exceeds 0.5.  For a model with several classes it is the
    multiclass Dice coefficient, with [reduce_batch_first = false], of the
    one-hot planes of the classes 1 and above of the arg-max labels (at
    every position the first class with the largest value) and of the
    ground truth; this score is defined whenever the prediction has one
    channel per class and the labels are valid. *)
Theorem score_on_hard_masks :
  forall net,
    (forall criterion dice_score loss_total b dice_score' loss_total',
        loop_body net criterion dice_score loss_total b = Ok (dice_score', loss_total') ->
        exists mask_pred d,
          call net (image b) = Ok mask_pred /\
          batch_score net mask_pred (mask b) = Ok d /\
          dice_score' = iadd_tensor dice_score d) /\
    (forall mask_pred mask_true,
        n_classes net = 1%Z ->
        Claimed.valid_labels 1 mask_true ->
        batch_score net mask_pred mask_true =
          dice_coeff (Claimed.thresholded sigmoid mask_pred) (to_float mask_true) false
            default_epsilon) /\
    (forall mask_pred mask_true nb c h w d,
        n_classes net <> 1%Z ->
        shape mask_pred = Some [nb; c; h; w] ->
        shape mask_true = Some [nb; h; w] ->
        (0 < w)%nat ->
        batch_score net mask_pred mask_true = Ok d ->
        exists labels,
          argmax_dim1 mask_pred = Ok labels /\
          Claimed.argmax_labels mask_pred labels /\
          multiclass_dice_coeff
            (Claimed.class_planes 1 (Z.to_nat (n_classes net) - 1) labels)
            (Claimed.class_planes 1 (Z.to_nat (n_classes net) - 1) mask_true)
            false default_epsilon = Ok d) /\
    (forall mask_pred mask_true nb c h w,
        (1 < n_classes net)%Z ->
        n_classes net = Z.of_nat c ->
        shape mask_pred = Some [nb; c; h; w] ->
        shape mask_true = Some [nb; h; w] ->
        (0 < w)%nat ->
        Claimed.valid_labels (n_classes net) mask_true ->
        exists d, batch_score net mask_pred mask_true = Ok d).
Proof.
  intros net. split; [|split; [|split]].
  - intros criterion ds lt b ds' lt' H.
    destruct (loop_body_inv _ _ _ _ _ _ _ H) as [mask_pred [loss [d [_ [Hc [_ [Hs [Hd _]]]]]]]].
    exists mask_pred, d. auto.
  - apply batch_score_one_class.
  - apply batch_score_multiclass.
  - apply batch_score_multiclass_returns.
Qed.
End HardMasks.

(** An instance of [score_on_hard_masks].  Two-class model: on a batch of
    two items whose second channel wins on the top row and ties with the
    first at the last position, the arg-max labels are 1 1 0 0 and their
    class-1 plane is scored against that of the ground truth.  One-class
    model: the step sigmoid exceeds 0.5 on the positive entries, so the hard
    mask of the prediction 1 -1 2 -2 is 1 0 1 0. *)
Lemma score_on_hard_masks_witness :
  (exists d,
     Evaluate.batch_score Fixture.sigmoid Fixture.net2 (image Fixture.batch2)
       (mask Fixture.batch2) = Ok d /\
     argmax_dim1 (image Fixture.batch2) =
       Ok (Dim [Fixture.labels 1 1 0 0; Fixture.labels 1 1 0 0]) /\
     multiclass_dice_coeff
       (Claimed.class_planes 1 1 (Dim [Fixture.labels 1 1 0 0; Fixture.labels 1 1 0 0]))
       (Claimed.class_planes 1 1 (mask Fixture.batch2)) false default_epsilon = Ok d) /\
  (exists mask_pred d,
     call Fixture.net1 (image Fixture.batch1) = Ok mask_pred /\
     Claimed.thresholded Fixture.sigmoid mask_pred =
       Dim [Fixture.plane 1 0 1 0; Fixture.plane 1 0 1 0] /\
     Evaluate.batch_score Fixture.sigmoid Fixture.net1 mask_pred (mask Fixture.batch1) = Ok d /\
     dice_coeff (Dim [Fixture.plane 1 0 1 0; Fixture.plane 1 0 1 0])
       (to_float (mask Fixture.batch1)) false default_epsilon = Ok d).
Proof.
  destruct (score_on_hard_masks Fixture.sigmoid Fixture.softmax_dim1 Fixture.net2)
    as [_ [_ [Hmulti Hreturns]]].
  destruct (score_on_hard_masks Fixture.sigmoid Fixture.softmax_dim1 Fixture.net1)
    as [Hbody [Hone _]].
  split.
  - destruct (Hreturns (image Fixture.batch2) (mask Fixture.batch2)
                2%nat 2%nat 2%nat 2%nat ltac:(reflexivity) eq_refl eq_refl eq_refl
                ltac:(lia)) as [d Hd].
    { split; [discriminate|]. intros l Hl. cbn in Hl.
      repeat (destruct Hl as [<-|Hl]; [reflexivity|]). destruct Hl. }
    destruct (Hmulti (image Fixture.batch2) (mask Fixture.batch2)
                2%nat 2%nat 2%nat 2%nat d ltac:(discriminate) eq_refl eq_refl
                ltac:(lia) Hd) as [labels [Ha [_ Hm]]].
    assert (Hl : labels = Dim [Fixture.labels 1 1 0 0; Fixture.labels 1 1 0 0]).
    { revert Ha. vm_compute. intros Ha. injection Ha as <-. reflexivity. }
    subst labels. exists d. auto.
  - destruct (Evaluate.loop_body Fixture.sigmoid Fixture.softmax_dim1 Fixture.net1
                Fixture.BCEWithLogitsLoss (PyInt 0) (PyInt 0) Fixture.batch1)
      as [[ds' lt']|e] eqn:E; [|exfalso; revert E; vm_compute; discriminate].
    destruct (Hbody _ _ _ _ _ _ E) as [mask_pred [d [Hc [Hs _]]]].
    assert (Hp : mask_pred = Dim [Fixture.plane 1 (-1) 2 (-2); Fixture.plane 1 (-1) 2 (-2)]).
    { revert Hc. vm_compute. intros Hc. injection Hc as <-. reflexivity. }
    assert (Ht : Claimed.thresholded Fixture.sigmoid mask_pred =
                 Dim [Fixture.plane 1 0 1 0; Fixture.plane 1 0 1 0]).
    { rewrite Hp. vm_compute. reflexivity. }
    exists mask_pred, d. split; [exact Hc|]. split; [exact Ht|]. split; [exact Hs|].
    rewrite <- Ht. rewrite <- Hs. symmetry. apply (Hone mask_pred); [reflexivity|].
    split; [discriminate|]. intros l Hl. cbn in Hl.
    repeat (destruct Hl as [<-|Hl]; [reflexivity|]). destruct Hl.
Defined.

(** An instance of [dice_coeff_formula]: intersection 2, sums 3 and 4 over
    the whole batch; per item, a full overlap and an empty one. *)
Lemma dice_coeff_formula_witness :
  shape Fixture.pred_pair = Some [2; 2; 2]%nat /\
  shape Fixture.target_pair = Some [2; 2; 2]%nat /\
  (exists d, dice_coeff Fixture.pred_pair Fixture.target_pair true default_epsilon = Ok d /\
             d == (2 * 2 + default_epsilon) / (3 + 4 + default_epsilon))%Q /\
  (exists d, dice_coeff Fixture.pred_pair Fixture.target_pair false default_epsilon = Ok d /\
             d == ((2 * 2 + default_epsilon) / (2 + 2 + default_epsilon) +
                   (2 * 0 + default_epsilon) / (1 + 2 + default_epsilon)) / 2)%Q.
Proof.
  split; [reflexivity|]. split; [reflexivity|].
  destruct (dice_coeff_formula Fixture.pred_pair Fixture.target_pair [2; 2; 2]%nat
              default_epsilon eq_refl eq_refl) as [[d1 [H1 E1]] H2].
  destruct (H2 _ _ eq_refl eq_refl) as [d2 [H3 E2]].
  split.
  - exists d1. split; [exact H1|]. rewrite E1. vm_compute. reflexivity.
  - exists d2. split; [exact H3|]. rewrite E2. vm_compute. reflexivity.
Defined.

(** Where [evaluate] uses the Dice loss: the loss of a batch is the
    criterion plus [dice_loss], called without the multiclass flag on the
    sigmoid output of a one-class model and with it on the softmax output
    otherwise. *)
Lemma batch_loss_adds_dice_loss :
  forall sigmoid softmax_dim1 net criterion mask_pred mask_true x,
    Evaluate.batch_loss sigmoid softmax_dim1 net criterion mask_pred mask_true = Ok x ->
    if (n_classes net =? 1)%Z then
      exists squeezed loss dl,
        squeeze1 mask_pred = Ok squeezed /\
        criterion squeezed (TFloat (to_float mask_true)) = Ok loss /\
        dice_loss (tmap sigmoid squeezed) (to_float mask_true) false = Ok dl /\
        x = (loss + dl)%Q
    else
      exists loss probs hot dl,
        criterion mask_pred (TLong mask_true) = Ok loss /\
        softmax_dim1 mask_pred = Ok probs /\
        (h <- one_hot mask_true (n_classes net) ;; permute_0312 h) = Ok hot /\
        dice_loss probs (to_float hot) true = Ok dl /\
        x = (loss + dl)%Q.
Proof.
  intros sigmoid softmax_dim1 net criterion mask_pred mask_true x.
  unfold Evaluate.batch_loss. destruct (n_classes net =? 1)%Z.
  - destruct (squeeze1 mask_pred) as [sq|e] eqn:E1; [|discriminate]. cbn [bind].
    destruct (criterion sq _) as [l|e] eqn:E2; [|discriminate]. cbn [bind].
    destruct (dice_loss _ _ false) as [dl|e] eqn:E3; [|discriminate]. cbn [bind].
    intros H. injection H as <-. exists sq, l, dl. auto.
  - destruct (criterion mask_pred _) as [l|e] eqn:E1; [|discriminate]. cbn [bind].
    destruct (softmax_dim1 mask_pred) as [probs|e] eqn:E2; [|discriminate]. cbn [bind].
    destruct (one_hot mask_true (n_classes net)) as [h|e] eqn:E3; [|discriminate].
    cbn [bind].
    destruct (permute_0312 h) as [hot|e] eqn:E4; [|discriminate]. cbn [bind].
    destruct (dice_loss _ _ true) as [dl|e] eqn:E5; [|discriminate]. cbn [bind].
    intros H. injection H as <-. exists l, probs, hot, dl. auto 6.
Qed.

(** An instance of [dice_loss_complement], for both values of the flag. *)
Lemma dice_loss_complement_witness :
  (exists d, dice_coeff Fixture.probs2 Fixture.onehot2 true default_epsilon = Ok d /\
             dice_loss Fixture.probs2 Fixture.onehot2 false = Ok (1 - d)%Q) /\
  (exists d, multiclass_dice_coeff Fixture.probs2 Fixture.onehot2 true default_epsilon = Ok d /\
             dice_loss Fixture.probs2 Fixture.onehot2 true = Ok (1 - d)%Q).
Proof.
  destruct (dice_loss_complement Fixture.probs2 Fixture.onehot2 [2; 2; 2; 2]%nat
              eq_refl eq_refl) as [H1 H2].
  split; [exact H1|]. exact (H2 2%nat 2%nat [2; 2]%nat eq_refl).
Defined.

(* ===================================================================== *)
(** ** Further properties of [evaluate] *)
(* ===================================================================== *)

Section EvaluateMore.
Variable sigmoid : Q -> Q.
Variable softmax_dim1 : tensor Q -> result (tensor Q).
Variable CrossEntropyLoss : tensor Q -> pytensor -> result Q.
Variable BCEWithLogitsLoss : tensor Q -> pytensor -> result Q.

Local Abbreviation evaluate :=
  (Evaluate.evaluate sigmoid softmax_dim1 CrossEntropyLoss BCEWithLogitsLoss).
Local Abbreviation validation_round := (Evaluate.validation_round sigmoid softmax_dim1).
Local Abbreviation loop_body := (Evaluate.loop_body sigmoid softmax_dim1).
Local Abbreviation batch_loss := (Evaluate.batch_loss sigmoid softmax_dim1).
Local Abbreviation batch_score := (Evaluate.batch_score sigmoid).
Local Abbreviation criterion_of net :=
  (if (n_classes net >? 1)%Z then CrossEntropyLoss else BCEWithLogitsLoss).
Local Abbreviation batch_outcome := (Observed.batch_outcome sigmoid softmax_dim1).

(** The loop over two dataloaders in a row is the loop over the first,
    followed by the loop over the second on the sums reached. *)
Lemma validation_round_app :
  forall net criterion before after dice_score loss_total,
    validation_round net criterion (before ++ after) dice_score loss_total =
      (sums <- validation_round net criterion before dice_score loss_total ;;
       validation_round net criterion after (fst sums) (snd sums)).
Proof.
  intros net criterion. induction before as [|b before IH]; intros after ds lt.
  - reflexivity.
  - cbn [app Evaluate.validation_round].
    destruct (loop_body net criterion ds lt b) as [sums|e]; cbn [bind].
    + apply IH.
    + reflexivity.
Qed.

(** The exception of [evaluate] is that of the first batch on which the loop
    body raises: the batches before it have been processed, those after it
    are not looked at, and the model stays in evaluation mode. *)
Theorem evaluate_first_failure :
  forall net before b after dice_score loss_total e,
    validation_round (net_eval net) (criterion_of (net_eval net)) before
      (PyInt 0) (PyInt 0) = Ok (dice_score, loss_total) ->
    loop_body (net_eval net) (criterion_of (net_eval net)) dice_score loss_total b
      = Raise e ->
    evaluate net (before ++ b :: after) = (Raise e, net_eval net).
Proof.
  intros net before b after ds lt e Hbefore Hb.
  unfold Evaluate.evaluate. cbv zeta.
  rewrite validation_round_app, Hbefore. cbn [bind fst snd Evaluate.validation_round].
  rewrite Hb. reflexivity.
Qed.

Lemma validation_round_sums :
  forall net criterion dataloader outs,
    Forall2 (batch_outcome net criterion) dataloader outs ->
    forall dice_score loss_total,
      dataloader <> [] ->
      exists s l,
        validation_round net criterion dataloader dice_score loss_total =
          Ok (Tensor0 s, Tensor0 l) /\
        (s == num_value dice_score + Qsum (map fst outs))%Q /\
        (l == num_value loss_total + Qsum (map snd outs))%Q.
Proof.
  intros net criterion dataloader outs H.
  induction H as [|b o dataloader outs [img [mask_pred [Hi [Hc [Hl Hs]]]]] Hrest IH];
    intros ds lt Hne; [congruence|].
  cbn [Evaluate.validation_round]. unfold Evaluate.loop_body.
  rewrite Hi. cbn [bind]. rewrite Hc. cbn [bind]. rewrite Hl. cbn [bind].
  rewrite Hs. cbn [bind fst snd].
  destruct dataloader as [|b' dataloader].
  - inversion Hrest; subst. cbn [Evaluate.validation_round map].
    eexists. eexists. split; [reflexivity|].
    unfold iadd_tensor, Qsum. cbn [fold_right]. split; ring.
  - destruct (IH (iadd_tensor ds (fst o)) (iadd_tensor lt (snd o)) ltac:(discriminate))
      as [s [l [Hv [Es El]]]].
    exists s, l. split; [exact Hv|].
    cbn [map]. unfold Qsum in *. cbn [fold_right iadd_tensor num_value] in *.
    rewrite Es, El. split; ring.
Qed.

(** The loop returns when its body returns on every batch. *)
Lemma validation_round_returns :
  forall net criterion dataloader outs,
    Forall2 (batch_outcome net criterion) dataloader outs ->
    forall dice_score loss_total,
      exists sums,
        validation_round net criterion dataloader dice_score loss_total = Ok sums /\
        (dataloader <> [] -> exists s l, sums = (Tensor0 s, Tensor0 l)).
Proof.
  intros net criterion dataloader outs H ds lt.
  destruct dataloader as [|b rest].
  - exists (ds, lt). split; [reflexivity|congruence].
  - destruct (validation_round_sums _ _ _ _ H ds lt ltac:(discriminate))
      as [s [l [Hv _]]].
    exists (Tensor0 s, Tensor0 l). split; [exact Hv|]. intros _. eauto.
Qed.

(** When the loop body returns on every batch of a non-empty dataloader,
    [evaluate] returns two 0-dimensional tensors: the arithmetic mean of the
    Dice scores of the batches and the arithmetic mean of their losses; the
    model is back in training mode. *)
Theorem evaluate_returns_means :
  forall net dataloader outs,
    Forall2 (batch_outcome (net_eval net) (criterion_of (net_eval net))) dataloader outs ->
    dataloader <> [] ->
    exists score loss,
      evaluate net dataloader =
        (Ok (Tensor0 score, Tensor0 loss), net_train (net_eval net)) /\
      (score == mean (map fst outs))%Q /\
      (loss == mean (map snd outs))%Q.
Proof.
  intros net dataloader outs H Hne.
  destruct (validation_round_sums _ _ _ _ H (PyInt 0) (PyInt 0) Hne)
    as [s [l [Hv [Es El]]]].
  unfold Evaluate.evaluate. cbv zeta. rewrite Hv. cbn [truediv bind].
  eexists. eexists. split; [reflexivity|].
  assert (Hlen : Z.max (Z.of_nat (length dataloader)) 1 = Z.of_nat (length outs)).
  { rewrite <- (Forall2_length H). destruct dataloader; [congruence|].
    cbn [length]. lia. }
  rewrite Hlen. unfold mean. rewrite !length_map, Es, El.
  cbn [num_value]. split; apply Qdiv_comp; try reflexivity.
  - change (inject_Z 0) with 0%Q. ring.
  - change (inject_Z 0) with 0%Q. ring.
Qed.

(** *** The range assertion *)

(** The range assertion of the score step (lines 46 and 51).  Its
    condition is true exactly on a mask that has labels, all of them in the
    valid class range.  It is false exactly when some label is out of
    range, and the score step then raises [AssertionError] with the message
    of its branch.  On a mask without labels [min()] raises [RuntimeError]
    before any comparison, and so does the score step. *)
Theorem label_range_assertion :
  forall net mask_pred mask_true,
    let condition :=
      labels_within mask_true
        (if (n_classes net =? 1)%Z then (fun hi => (hi <=? 1)%Z)
         else (fun hi => (hi <? n_classes net)%Z)) in
    let message :=
      if (n_classes net =? 1)%Z then "True mask indices should be in [0, 1]"%string
      else "True mask indices should be in [0, n_classes["%string in
    (condition = Ok true <-> Claimed.valid_labels (n_classes net) mask_true) /\
    (condition = Ok false <->
     exists l, In l (elems mask_true) /\
               Claimed.label_in_range (n_classes net) l = false) /\
    (condition = Ok false ->
     batch_score net mask_pred mask_true = Raise (mkExn AssertionError message)) /\
    ((exists msg, condition = Raise (mkExn RuntimeError msg)) <-> elems mask_true = []) /\
    (elems mask_true = [] ->
     exists msg, batch_score net mask_pred mask_true = Raise (mkExn RuntimeError msg)).
Proof.
  intros net mask_pred mask_true. cbv zeta.
  split; [apply labels_within_valid|].
  unfold Evaluate.batch_score, Claimed.label_in_range.
  destruct (n_classes net =? 1)%Z.
  - destruct (labels_within_cases mask_true (fun hi => (hi <=? 1)%Z))
      as [[He [m E]]|[E|[E Hl]]]; rewrite E; cbn [bind py_assert].
    + rewrite He. repeat split; try discriminate; eauto.
      intros [l [[] _]].
    + destruct (labels_within_true _ _ E) as [x [xs [He _]]]. rewrite He.
      repeat split; try discriminate.
      * intros [l [Hl Hbad]].
        rewrite (labels_within_false mask_true _ l upper_le_closed) in E;
          [discriminate|rewrite He; exact Hl|exact Hbad].
      * intros [msg Hm]. discriminate Hm.
    + destruct Hl as [l [Hl Hbad]]. repeat split; eauto.
      * intros [msg Hm]. discriminate Hm.
      * intros He. rewrite He in Hl. destruct Hl.
      * intros He. rewrite He in Hl. destruct Hl.
  - destruct (labels_within_cases mask_true (fun hi => (hi <? n_classes net)%Z))
      as [[He [m E]]|[E|[E Hl]]]; rewrite E; cbn [bind py_assert].
    + rewrite He. repeat split; try discriminate; eauto.
      intros [l [[] _]].
    + destruct (labels_within_true _ _ E) as [x [xs [He _]]]. rewrite He.
      repeat split; try discriminate.
      * intros [l [Hl Hbad]].
        rewrite (labels_within_false mask_true _ l (upper_lt_closed (n_classes net))) in E;
          [discriminate|rewrite He; exact Hl|exact Hbad].
      * intros [msg Hm]. discriminate Hm.
    + destruct Hl as [l [Hl Hbad]]. repeat split; eauto.
      * intros [msg Hm]. discriminate Hm.
      * intros He. rewrite He in Hl. destruct Hl.
      * intros He. rewrite He in Hl. destruct Hl.
Qed.

(** *** A model without classes *)

Lemma batch_score_nonpositive :
  forall net mask_pred mask_true,
    (n_classes net <= 0)%Z ->
    exists e, batch_score net mask_pred mask_true = Raise e.
Proof.
  intros net mask_pred mask_true Hn. unfold Evaluate.batch_score.
  replace (n_classes net =? 1)%Z with false by (symmetry; apply Z.eqb_neq; lia).
  destruct (labels_within_cases mask_true (fun hi => (hi <? n_classes net)%Z))
    as [[_ [m E]]|[E|[E _]]].
  - rewrite E. eexists. reflexivity.
  - exfalso. destruct (labels_within_true _ _ E) as [x [xs [_ [Hlo Hhi]]]].
    apply Z.ltb_lt in Hhi.
    destruct (fold_min_lower xs x) as [H1 _]. destruct (fold_max_upper xs x) as [H2 _].
    lia.
  - rewrite E. eexists. reflexivity.
Qed.

(** With [n_classes <= 0] the multiclass branch is taken and its assertion
    [max() < n_classes] cannot hold together with [min() >= 0]: [evaluate]
    raises on every dataloader that has a batch, and returns the zero scores
    only on the empty one. *)
Theorem evaluate_nonpositive_classes :
  forall net b rest,
    (n_classes net <= 0)%Z ->
    exists e, evaluate net (b :: rest) = (Raise e, net_eval net).
Proof.
  intros net b rest Hn. unfold Evaluate.evaluate. cbv zeta.
  cbn [Evaluate.validation_round]. unfold Evaluate.loop_body.
  destruct (to_channels_last (image b)) as [img|e]; [|eexists; reflexivity].
  cbn [bind].
  destruct (call (net_eval net) img) as [mask_pred|e];
    [|eexists; reflexivity].
  cbn [bind].
  destruct (batch_loss _ _ mask_pred (mask b)) as [loss|e]; [|eexists; reflexivity].
  cbn [bind].
  destruct (batch_score_nonpositive (net_eval net) mask_pred (mask b) Hn) as [e ->].
  eexists. reflexivity.
Qed.
End EvaluateMore.

(* ===================================================================== *)
(** ** Batching *)
(* ===================================================================== *)

Section Grouping.
Context {A : Type}.
Variable batch_size : nat.
Hypothesis batch_size_positive : (0 < batch_size)%nat.

(** Without [drop_last] the groups, put end to end, are the items in their
    order. *)
Lemma group_concat_keep :
  forall (l cur : list A),
    (length cur < batch_size)%nat ->
    concat (group batch_size false cur l) = rev cur ++ l.
Proof.
  induction l as [|x xs IH]; intros cur Hcur; cbn [group].
  - destruct cur as [|c cur]; cbn [concat]; [reflexivity|].
    rewrite !app_nil_r. reflexivity.
  - destruct (length (x :: cur) =? batch_size)%nat eqn:E.
    + cbn [concat]. rewrite IH by (cbn; lia). cbn [rev app].
      rewrite <- app_assoc. reflexivity.
    + apply Nat.eqb_neq in E. rewrite IH by (cbn in *; lia).
      cbn [rev]. rewrite <- app_assoc. reflexivity.
Qed.

(** With [drop_last] every group is full. *)
Lemma group_full :
  forall (l cur : list A),
    Forall (fun g => length g = batch_size) (group batch_size true cur l).
Proof.
  induction l as [|x xs IH]; intros cur; cbn [group].
  - destruct cur; constructor.
  - destruct (length (x :: cur) =? batch_size)%nat eqn:E.
    + constructor; [|apply IH]. rewrite length_rev. apply Nat.eqb_eq. exact E.
    + apply IH.
Qed.

Lemma group_length_drop :
  forall (l cur : list A),
    (length cur < batch_size)%nat ->
    length (group batch_size true cur l) = ((length cur + length l) / batch_size)%nat.
Proof.
  induction l as [|x xs IH]; intros cur Hcur; cbn [group].
  - rewrite Nat.add_0_r, Nat.div_small by exact Hcur. destruct cur; reflexivity.
  - destruct (length (x :: cur) =? batch_size)%nat eqn:E.
    + apply Nat.eqb_eq in E. cbn [length] in *. rewrite IH by (cbn; lia).
      cbn [length Nat.add]. replace (length cur + S (length xs))%nat
        with (length xs + 1 * batch_size)%nat by lia.
      rewrite Nat.div_add by lia. lia.
    + apply Nat.eqb_neq in E. cbn [length] in *. rewrite IH by (cbn; lia).
      cbn [length]. f_equal. lia.
Qed.

(** With [drop_last] the groups, put end to end, are the longest prefix of
    the items whose length is a multiple of the batch size. *)
Lemma group_concat_drop :
  forall (l cur : list A),
    (length cur < batch_size)%nat ->
    concat (group batch_size true cur l) =
      firstn (batch_size * ((length cur + length l) / batch_size)) (rev cur ++ l).
Proof.
  induction l as [|x xs IH]; intros cur Hcur; cbn [group].
  - rewrite Nat.add_0_r, Nat.div_small by exact Hcur. rewrite Nat.mul_0_r.
    destruct cur; reflexivity.
  - destruct (length (x :: cur) =? batch_size)%nat eqn:E.
    + apply Nat.eqb_eq in E. cbn [concat]. rewrite IH by (cbn; lia).
      cbn [length rev app Nat.add] in *.
      replace (length cur + S (length xs))%nat
        with (length xs + 1 * batch_size)%nat by lia.
      rewrite Nat.div_add by lia.
      replace (rev cur ++ x :: xs) with ((rev cur ++ [x]) ++ xs)
        by (rewrite <- app_assoc; reflexivity).
      rewrite firstn_app.
      assert (Hl : length (rev cur ++ [x]) = batch_size)
        by (rewrite length_app, length_rev; cbn; lia).
      rewrite Hl.
      rewrite (firstn_all2 (rev cur ++ [x])) by (rewrite Hl; nia).
      f_equal. f_equal. nia.
    + apply Nat.eqb_neq in E. rewrite IH by (cbn in *; lia).
      cbn [length rev]. rewrite <- app_assoc. cbn [app].
      f_equal. f_equal. f_equal. lia.
Qed.

Lemma group_sizes_keep :
  forall (l cur : list A),
    (length cur < batch_size)%nat ->
    Forall (fun g => (0 < length g <= batch_size)%nat) (group batch_size false cur l).
Proof.
  induction l as [|x xs IH]; intros cur Hcur; cbn [group].
  - destruct cur as [|c cur]; constructor; [|constructor].
    rewrite length_rev. cbn [length] in *. lia.
  - destruct (length (x :: cur) =? batch_size)%nat eqn:E.
    + constructor; [|apply IH; cbn; lia].
      apply Nat.eqb_eq in E. rewrite length_rev. lia.
    + apply Nat.eqb_neq in E. apply IH. cbn [length] in *. lia.
Qed.
End Grouping.

(* ===================================================================== *)
(** ** Further properties of the evaluation script *)
(* ===================================================================== *)

Lemma yielded_images_collate :
  forall groups,
    Observed.yielded_images (map collate groups) = map sample_image (concat groups).
Proof.
  unfold Observed.yielded_images. induction groups as [|g groups IH]; [reflexivity|].
  cbn [map flat_map concat]. rewrite IH, map_app. reflexivity.
Qed.

Lemma yielded_masks_collate :
  forall groups,
    Observed.yielded_masks (map collate groups) = map sample_mask (concat groups).
Proof.
  unfold Observed.yielded_masks. induction groups as [|g groups IH]; [reflexivity|].
  cbn [map flat_map concat]. rewrite IH, map_app. reflexivity.
Qed.

(** The three loaders of the script: the training loader yields every item
    of the training set, in order and in batches of at most 32; the
    validation and the test loader yield full batches of 32 only, that is
    the first [32 * (n / 32)] items of their set, and drop the rest. *)
Theorem loaders_coverage :
  forall train_set val_set test_set,
    let train_loader := fst (fst (loaders (train_set, val_set, test_set))) in
    let val_loader := snd (fst (loaders (train_set, val_set, test_set))) in
    let test_loader := snd (loaders (train_set, val_set, test_set)) in
    let kept (d : dataset) := firstn (32 * (length d / 32)) d in
    (Observed.yielded_images train_loader = map sample_image train_set /\
     Observed.yielded_masks train_loader = map sample_mask train_set /\
     Forall (fun b => (0 < length (children (image b)) <= 32)%nat) train_loader) /\
    (Observed.yielded_images val_loader = map sample_image (kept val_set) /\
     Observed.yielded_masks val_loader = map sample_mask (kept val_set) /\
     length val_loader = (length val_set / 32)%nat /\
     Forall (fun b => length (children (image b)) = 32%nat) val_loader) /\
    (Observed.yielded_images test_loader = map sample_image (kept test_set) /\
     Observed.yielded_masks test_loader = map sample_mask (kept test_set) /\
     length test_loader = (length test_set / 32)%nat /\
     Forall (fun b => length (children (image b)) = 32%nat) test_loader).
Proof.
  intros train_set val_set test_set. cbv zeta. cbn [loaders fst snd].
  unfold DataLoader, batch_size.
  assert (H32 : (0 < 32)%nat) by lia.
  assert (Hdrop : forall d : dataset,
    Observed.yielded_images (map collate (group 32 true [] d)) =
      map sample_image (firstn (32 * (length d / 32)) d) /\
    Observed.yielded_masks (map collate (group 32 true [] d)) =
      map sample_mask (firstn (32 * (length d / 32)) d) /\
    length (map collate (group 32 true [] d)) = (length d / 32)%nat /\
    Forall (fun b => length (children (image b)) = 32%nat)
      (map collate (group 32 true [] d))).
  { intros d. rewrite yielded_images_collate, yielded_masks_collate, length_map.
    rewrite (group_concat_drop 32 H32 d []) by (cbn; lia).
    rewrite (group_length_drop 32 H32 d []) by (cbn; lia).
    cbn [length rev app Nat.add]. repeat split.
    apply Forall_map. eapply Forall_impl; [|apply (group_full 32 d [])].
    intros g Hg. cbn [collate image children]. rewrite length_map. exact Hg. }
  split; [|split; apply Hdrop].
  rewrite yielded_images_collate, yielded_masks_collate.
  rewrite (group_concat_keep 32 H32 train_set []) by (cbn; lia).
  cbn [rev app]. repeat split.
  apply Forall_map. eapply Forall_impl; [|apply (group_sizes_keep 32 H32 train_set [])].
  - intros g Hg. cbn [collate image children]. rewrite length_map. exact Hg.
  - cbn; lia.
Qed.

Section ScriptMore.
Variable sigmoid : Q -> Q.
Variable softmax_dim1 : tensor Q -> result (tensor Q).
Variable CrossEntropyLoss : tensor Q -> pytensor -> result Q.
Variable BCEWithLogitsLoss : tensor Q -> pytensor -> result Q.
Variable load_net : Z -> bool -> string -> result (bool -> tensor Q -> result (tensor Q)).
Variable CarvanaDataset : string -> string -> Q -> result dataset.
Variable BasicDataset : string -> string -> Q -> result dataset.
Variable random_split : dataset -> nat -> nat -> result (dataset * dataset).
Variable interpolate : tensor Q -> nat * nat -> result (tensor Q).
Variable make_grid : tensor Q -> nat -> result (tensor Q).
Variable png : tensor Q -> string.
Variable format_4f : Q -> string.
Variable repr : Q -> string.

Local Abbreviation evaluate :=
  (Evaluate.evaluate sigmoid softmax_dim1 CrossEntropyLoss BCEWithLogitsLoss).
Local Abbreviation call_evaluate :=
  (EvaluateDataset.call_evaluate sigmoid softmax_dim1 CrossEntropyLoss BCEWithLogitsLoss).
Local Abbreviation load_dataset :=
  (EvaluateDataset.load_dataset CarvanaDataset BasicDataset).
Local Abbreviation splits :=
  (EvaluateDataset.splits CarvanaDataset BasicDataset random_split).
Local Abbreviation scores :=
  (EvaluateDataset.scores sigmoid softmax_dim1 CrossEntropyLoss BCEWithLogitsLoss
     load_net CarvanaDataset BasicDataset random_split).
Local Abbreviation report := (EvaluateDataset.report format_4f repr).
Local Abbreviation qualitative_results :=
  (EvaluateDataset.qualitative_results interpolate make_grid png).

(** *** When the three evaluations return *)

Lemma call_evaluate_returns :
  forall net loader outs,
    Forall2 (Observed.batch_outcome sigmoid softmax_dim1 (net_eval net)
               (if (n_classes net >? 1)%Z then CrossEntropyLoss else BCEWithLogitsLoss))
      loader outs ->
    exists v,
      call_evaluate net loader = Ok (v, net_train (net_eval net)) /\
      (loader <> [] -> exists s l, v = Tuple (Tensor0 s) (Tensor0 l)).
Proof.
  intros net loader outs H.
  destruct (validation_round_returns sigmoid softmax_dim1 _ _ _ _ H (PyInt 0) (PyInt 0))
    as [[d l] [Hv Hne]].
  unfold EvaluateDataset.call_evaluate.
  rewrite (evaluate_ok sigmoid softmax_dim1 CrossEntropyLoss BCEWithLogitsLoss
             net loader d l Hv).
  destruct (truediv_batches_ok d (length loader)) as [x Hx].
  destruct (truediv_batches_ok l (length loader)) as [y Hy].
  rewrite Hx, Hy. cbn [bind]. exists (Tuple x y). split; [reflexivity|].
  intros Hl. destruct (Hne Hl) as [s [t E]]. injection E as -> ->.
  cbn [truediv] in Hx, Hy. injection Hx as <-. injection Hy as <-. eauto.
Qed.

(** The three scores are computed when the model loads, the splits are
    built and the loop body returns on every batch of the three loaders. *)
Lemma scores_returns :
  forall a fwd sets outs1 outs2 outs3,
    load_net (classes a) (bilinear a) (model a) = Ok fwd ->
    splits a = Ok sets ->
    let net := net_eval {| n_classes := classes a; training := true; forward := fwd |} in
    let criterion := if (classes a >? 1)%Z then CrossEntropyLoss else BCEWithLogitsLoss in
    Forall2 (Observed.batch_outcome sigmoid softmax_dim1 net criterion)
      (fst (fst (loaders sets))) outs1 ->
    Forall2 (Observed.batch_outcome sigmoid softmax_dim1 net criterion)
      (snd (fst (loaders sets))) outs2 ->
    Forall2 (Observed.batch_outcome sigmoid softmax_dim1 net criterion)
      (snd (loaders sets)) outs3 ->
    exists train_score val_score test_score,
      scores a = Ok (net_train net, sets, (train_score, val_score, test_score)) /\
      (snd (fst (loaders sets)) <> [] ->
       exists s l, val_score = Tuple (Tensor0 s) (Tensor0 l)).
Proof.
  intros a fwd sets outs1 outs2 outs3 Hload Hsplit net criterion H1 H2 H3.
  unfold EvaluateDataset.scores. rewrite Hload. cbn [bind]. rewrite Hsplit. cbn [bind].
  destruct (loaders sets) as [[tl vl] tsl]. cbn [fst snd] in *.
  destruct (call_evaluate_returns net tl outs1 H1) as [v1 [E1 _]].
  destruct (call_evaluate_returns (net_train (net_eval net)) vl outs2 H2) as [v2 [E2 N2]].
  destruct (call_evaluate_returns (net_train (net_eval net)) tsl outs3 H3) as [v3 [E3 _]].
  fold net. rewrite E1. cbn [bind fst snd]. rewrite E2. cbn [bind fst snd].
  change (net_train (net_eval (net_train (net_eval net)))) with (net_train (net_eval net)).
  rewrite E3. cbn [bind fst snd].
  exists v1, v2, v3. split; [reflexivity|exact N2].
Qed.

(** *** The model after the evaluations *)

(** The script puts the model in evaluation mode after loading it, but each
    [evaluate] ends with [net.train()]: once the three scores are computed
    the model is in training mode, with the class count of the command
    line. *)
Theorem scores_leave_training_mode :
  forall a net sets train_score val_score test_score,
    scores a = Ok (net, sets, (train_score, val_score, test_score)) ->
    training net = true /\ n_classes net = classes a.
Proof.
  intros a net sets s1 s2 s3 H.
  destruct (scores_inv _ _ _ _ _ _ _ _ _ _ _ _ _ _ H)
    as [fwd [n1 [n2 [_ [_ [H1 [H2 H3]]]]]]].
  destruct (call_evaluate_inv _ _ _ _ _ _ _ _ H1) as [? [? [_ [_ ->]]]].
  destruct (call_evaluate_inv _ _ _ _ _ _ _ _ H2) as [? [? [_ [_ ->]]]].
  destruct (call_evaluate_inv _ _ _ _ _ _ _ _ H3) as [? [? [_ [_ ->]]]].
  split; reflexivity.
Qed.

(** *** Splits that do not fill a batch *)

Lemma DataLoader_drop_last_small :
  forall (d : dataset) n,
    (length d < n)%nat -> DataLoader d n true = [].
Proof.
  intros d n H. unfold DataLoader.
  assert (Hn : (0 < n)%nat) by lia.
  pose proof (group_length_drop n Hn d [] ltac:(cbn; lia)) as L.
  cbn [length Nat.add] in L. rewrite Nat.div_small in L by exact H.
  destruct (group n true [] d); [reflexivity|discriminate].
Qed.

(** With [drop_last=True] a validation (or test) set of fewer than 32 items
    yields no batch, and the score and the loss recorded for it are the
    Python floats [0 / 1], whatever the model. *)
Theorem small_split_scores_zero :
  forall a net train_set val_set test_set train_score val_score test_score,
    scores a = Ok (net, (train_set, val_set, test_set),
                   (train_score, val_score, test_score)) ->
    ((length val_set < 32)%nat -> val_score = Tuple (PyFloat 0) (PyFloat 0)) /\
    ((length test_set < 32)%nat -> test_score = Tuple (PyFloat 0) (PyFloat 0)).
Proof.
  intros a net train_set val_set test_set s1 s2 s3 H.
  destruct (scores_inv _ _ _ _ _ _ _ _ _ _ _ _ _ _ H)
    as [fwd [n1 [n2 [_ [_ [_ [H2 H3]]]]]]].
  cbn [loaders fst snd] in H2, H3. unfold batch_size in H2, H3.
  split; intros Hlen.
  - rewrite (DataLoader_drop_last_small val_set 32 Hlen) in H2.
    cbv in H2. injection H2 as <- _. reflexivity.
  - rewrite (DataLoader_drop_last_small test_set 32 Hlen) in H3.
    cbv in H3. injection H3 as <- _. reflexivity.
Qed.

(** *** The sizes of the random split *)

Lemma floor_tenth :
  forall n : nat,
    Z.to_nat (Qfloor (inject_Z (Z.of_nat n) * val_percent)) = (n / 10)%nat.
Proof.
  intros n. unfold val_percent, Qfloor, Qmult, inject_Z. cbn [Qnum Qden].
  rewrite Z.mul_1_r. change (Z.pos (1 * 10)) with (Z.of_nat 10).
  rewrite <- Nat2Z.inj_div. apply Nat2Z.id.
Qed.

(** With [--default] the dataset is split into [len // 10] validation items
    and the remaining training items: the two sizes handed to [random_split]
    always add up to the size of the dataset. *)
Theorem default_split_sizes :
  forall a train_set val_set test_set,
    default a = true ->
    splits a = Ok (train_set, val_set, test_set) ->
    exists d,
      load_dataset dir_img dir_mask img_scale = Ok d /\
      random_split d (length d - length d / 10) (length d / 10) = Ok (train_set, val_set) /\
      (length d - length d / 10 + length d / 10 = length d)%nat.
Proof.
  intros a train_set val_set test_set Ha H. unfold EvaluateDataset.splits in H.
  rewrite Ha in H.
  destruct (load_dataset dir_img dir_mask img_scale) as [d|e]; [|discriminate].
  cbn [bind] in H. rewrite floor_tenth in H.
  destruct (random_split d _ _) as [[tr va]|e] eqn:E; [|discriminate].
  cbn [bind fst snd] in H. injection H as <- <- _.
  exists d. split; [reflexivity|]. split; [exact E|].
  pose proof (Nat.Div0.div_le_upper_bound (length d) 10 (length d)) as Hle.
  assert ((length d / 10 <= length d)%nat) by (apply Nat.Div0.div_le_upper_bound; lia).
  lia.
Qed.
End ScriptMore.

(* ===================================================================== *)
(** ** Sub-sampling in [qualitative_results] *)
(* ===================================================================== *)

Lemma range_from_multiples :
  forall step, (0 < step)%nat ->
  forall fuel start stop,
    (stop <= fuel + start)%nat ->
    range_from fuel start stop step =
      map (fun k => start + k * step)%nat (seq 0 ((stop - start + step - 1) / step)).
Proof.
  intros step Hstep. induction fuel as [|fuel IH]; intros start stop Hfuel.
  - cbn [range_from]. replace (stop - start)%nat with 0%nat by lia.
    rewrite Nat.div_small by lia. reflexivity.
  - cbn [range_from]. destruct (start <? stop)%nat eqn:E.
    + apply Nat.ltb_lt in E. rewrite IH by lia.
      replace ((stop - start + step - 1) / step)%nat
        with (S ((stop - (start + step) + step - 1) / step)).
      * cbn [seq map]. f_equal; [lia|].
        rewrite <- seq_shift, map_map. apply map_ext. intros k. lia.
      * destruct (Nat.le_gt_cases step (stop - start)) as [Hge|Hlt].
        -- replace (stop - start + step - 1)%nat
             with ((stop - (start + step) + step - 1) + 1 * step)%nat by lia.
           rewrite Nat.div_add by lia. lia.
        -- replace (stop - (start + step))%nat with 0%nat by lia.
           rewrite (Nat.div_small (0 + step - 1)) by lia.
           apply Nat.div_unique with (r := (stop - start - 1)%nat); lia.
    + apply Nat.ltb_ge in E. replace (stop - start)%nat with 0%nat by lia.
      rewrite Nat.div_small by lia. reflexivity.
Qed.

(** [range(0, n, step)] lists the multiples of [step] below [n]. *)
Lemma range_multiples :
  forall n step,
    (0 < step)%nat ->
    range 0 n step = Ok (map (fun k => k * step)%nat (seq 0 ((n + step - 1) / step))).
Proof.
  intros n step Hstep. unfold range.
  replace (step =? 0)%nat with false by (symmetry; apply Nat.eqb_neq; lia).
  rewrite (range_from_multiples step Hstep n 0 n) by lia.
  rewrite Nat.sub_0_r. reflexivity.
Qed.

(** The number of sub-sampled items: between 6 and 11. *)
Lemma subsample_count :
  forall n,
    (6 <= n)%nat ->
    (0 < n / 6)%nat /\
    (6 <= (n + n / 6 - 1) / (n / 6) <= 11)%nat /\
    (forall k, (k < (n + n / 6 - 1) / (n / 6))%nat -> (k * (n / 6) < n)%nat).
Proof.
  intros n Hn.
  pose proof (Nat.div_mod_eq n 6) as Hdm.
  pose proof (Nat.mod_upper_bound n 6 ltac:(lia)) as Hr.
  set (s := (n / 6)%nat) in *. set (r := (n mod 6)%nat) in *.
  assert (Hs : (0 < s)%nat) by lia.
  pose proof (Nat.div_mod_eq (n + s - 1) s) as Hc.
  pose proof (Nat.mod_upper_bound (n + s - 1) s ltac:(lia)) as Hcr.
  set (c := ((n + s - 1) / s)%nat) in *. set (cr := ((n + s - 1) mod s)%nat) in *.
  split; [exact Hs|]. split; [split; nia|].
  intros k Hk. nia.
Qed.

Lemma Subset_length :
  forall (d : dataset) indices,
    Forall (fun i => (i < length d)%nat) indices ->
    length (Subset d indices) = length indices.
Proof.
  intros d indices H. unfold Subset. induction H as [|i indices Hi _ IH]; [reflexivity|].
  cbn [flat_map]. destruct (nth_error d i) as [x|] eqn:E.
  - cbn [app length]. rewrite IH. reflexivity.
  - apply nth_error_None in E. lia.
Qed.

(** The first group is the first [batch_size] items. *)
Lemma group_head :
  forall {A : Type} batch_size (l cur : list A),
    (0 < batch_size)%nat -> (length cur < batch_size)%nat ->
    rev cur ++ l <> [] ->
    exists rest,
      group batch_size false cur l = firstn batch_size (rev cur ++ l) :: rest.
Proof.
  intros A bs. induction l as [|x xs IH]; intros cur Hbs Hcur Hne; cbn [group].
  - rewrite app_nil_r in *. destruct cur as [|c cur]; [cbn in Hne; congruence|].
    exists []. rewrite firstn_all2 by (rewrite length_rev; lia). reflexivity.
  - destruct (length (x :: cur) =? bs)%nat eqn:E.
    + apply Nat.eqb_eq in E. eexists. f_equal.
      replace (rev cur ++ x :: xs) with (rev (x :: cur) ++ xs)
        by (cbn [rev]; rewrite <- app_assoc; reflexivity).
      rewrite firstn_app, length_rev, E, Nat.sub_diag, firstn_O, app_nil_r.
      rewrite firstn_all2 by (rewrite length_rev; lia). reflexivity.
    + apply Nat.eqb_neq in E.
      destruct (IH (x :: cur) Hbs ltac:(cbn [length] in *; lia)) as [rest Hr].
      * cbn [rev]. destruct (rev cur); discriminate.
      * exists rest. rewrite Hr. cbn [rev]. rewrite <- app_assoc. reflexivity.
Qed.

(* ===================================================================== *)
(** ** The file system *)
(* ===================================================================== *)

Lemma path_eqb_eq : forall p q : path, path_eqb p q = true <-> p = q.
Proof.
  intros p q. unfold path_eqb.
  destruct (list_eq_dec string_dec p q); split; congruence.
Qed.

Lemma path_eqb_refl : forall p : path, path_eqb p p = true.
Proof. intros p. apply path_eqb_eq. reflexivity. Qed.

Lemma existsb_path_In :
  forall (p : path) l, existsb (path_eqb p) l = true <-> In p l.
Proof.
  intros p l. rewrite existsb_exists. split.
  - intros [x [Hx E]]. apply path_eqb_eq in E. subst. exact Hx.
  - intros H. exists p. split; [exact H|apply path_eqb_refl].
Qed.

Lemma existsb_file_In :
  forall (p : path) (fs : list (path * string)),
    existsb (fun f => path_eqb p (fst f)) fs = true <-> In p (map fst fs).
Proof.
  intros p fs. rewrite existsb_exists, in_map_iff. split.
  - intros [f [Hf E]]. apply path_eqb_eq in E. exists f. auto.
  - intros [f [E Hf]]. exists f. split; [exact Hf|]. apply path_eqb_eq. auto.
Qed.

(** Resolving a path with one more component. *)
Lemma lookup_from_snoc :
  forall w r base name,
    lookup_from w base (r ++ [name]) =
      match lookup_from w base r with
      | SDir =>
          match entry_at w (base ++ r ++ [name]) with
          | IsDir => SDir
          | IsFile => SFile
          | NoEntry => ENOENT
          end
      | SFile => ENOTDIR
      | ENOENT => ENOENT
      | ENOTDIR => ENOTDIR
      end.
Proof.
  intros w. induction r as [|x r IH]; intros base name; cbn [app lookup_from].
  - destruct (entry_at w base); reflexivity.
  - destruct (entry_at w base); try reflexivity.
    rewrite IH, <- app_assoc. reflexivity.
Qed.

(** A path other than the working directory is resolved through its
    parent. *)
Lemma lookup_through_parent :
  forall w p,
    p <> [] ->
    lookup w p =
      match lookup w (parent p) with
      | SDir =>
          match entry_at w p with
          | IsDir => SDir
          | IsFile => SFile
          | NoEntry => ENOENT
          end
      | SFile => ENOTDIR
      | ENOENT => ENOENT
      | ENOTDIR => ENOTDIR
      end.
Proof.
  intros w p Hp. unfold lookup, parent.
  rewrite (app_removelast_last EmptyString Hp) at 1.
  rewrite lookup_from_snoc. cbn [app].
  rewrite <- (app_removelast_last EmptyString Hp). reflexivity.
Qed.

Lemma lookup_found_parent :
  forall w p, p <> [] -> path_exists w p = true -> lookup w (parent p) = SDir.
Proof.
  intros w p Hp. unfold path_exists. rewrite (lookup_through_parent w p Hp).
  destruct (lookup w (parent p)); try discriminate. reflexivity.
Qed.

Lemma parent_join : forall p name, parent (path_join p name) = p.
Proof. intros p name. unfold parent, path_join. apply removelast_last. Qed.

(** Directories and files that stay make the paths that exist stay. *)
Lemma entry_at_mono :
  forall w w' q,
    incl (dirs w) (dirs w') ->
    incl (map fst (files w)) (map fst (files w')) ->
    match entry_at w q with
    | IsDir => entry_at w' q = IsDir
    | IsFile => entry_at w' q <> NoEntry
    | NoEntry => True
    end.
Proof.
  intros w w' q Hd Hf. unfold entry_at. destruct q as [|x q]; [reflexivity|].
  destruct (existsb (path_eqb (x :: q)) (dirs w)) eqn:E.
  - apply existsb_path_In in E. apply Hd in E. apply existsb_path_In in E.
    rewrite E. reflexivity.
  - destruct (existsb (fun f => path_eqb (x :: q) (fst f)) (files w)) eqn:F; [|exact I].
    apply existsb_file_In in F. apply Hf in F. apply existsb_file_In in F.
    rewrite F. destruct (existsb _ (dirs w')); discriminate.
Qed.

Lemma lookup_from_mono :
  forall w w',
    incl (dirs w) (dirs w') ->
    incl (map fst (files w)) (map fst (files w')) ->
    forall rest base,
      match lookup_from w base rest with
      | SDir => lookup_from w' base rest = SDir
      | SFile => lookup_from w' base rest = SFile \/ lookup_from w' base rest = SDir
      | _ => True
      end.
Proof.
  intros w w' Hd Hf. induction rest as [|x rest IH]; intros base; cbn [lookup_from].
  - pose proof (entry_at_mono w w' base Hd Hf) as H.
    destruct (entry_at w base); [exact I| |rewrite H; reflexivity].
    destruct (entry_at w' base); [congruence|left; reflexivity|right; reflexivity].
  - pose proof (entry_at_mono w w' base Hd Hf) as H.
    destruct (entry_at w base); [exact I|exact I|]. rewrite H. apply IH.
Qed.

Lemma is_dir_mono :
  forall w w' p,
    incl (dirs w) (dirs w') ->
    incl (map fst (files w)) (map fst (files w')) ->
    is_dir w p = true -> is_dir w' p = true.
Proof.
  intros w w' p Hd Hf. unfold is_dir, lookup.
  pose proof (lookup_from_mono w w' Hd Hf p []) as H.
  destruct (lookup_from w [] p); try discriminate. rewrite H. reflexivity.
Qed.

Lemma path_exists_mono :
  forall w w' p,
    incl (dirs w) (dirs w') ->
    incl (map fst (files w)) (map fst (files w')) ->
    path_exists w p = true -> path_exists w' p = true.
Proof.
  intros w w' p Hd Hf. unfold path_exists, lookup.
  pose proof (lookup_from_mono w w' Hd Hf p []) as H.
  destruct (lookup_from w [] p); try discriminate.
  - rewrite H. reflexivity.
  - destruct H as [-> | ->]; reflexivity.
Qed.

(** Writing a file keeps the names of the files there were, and keeps the
    content of the files of another name. *)
Lemma put_file_names :
  forall p content fs, incl (map fst fs) (map fst (put_file p content fs)).
Proof.
  intros p content fs q Hq. unfold put_file. cbn [map fst].
  destruct (list_eq_dec string_dec p q) as [->|Hne]; [left; reflexivity|].
  right. apply in_map_iff in Hq. destruct Hq as [f [<- Hf]].
  apply in_map. apply filter_In. split; [exact Hf|].
  apply negb_true_iff. destruct (path_eqb p (fst f)) eqn:E; [|reflexivity].
  apply path_eqb_eq in E. congruence.
Qed.

Lemma put_file_others :
  forall p content fs q c,
    q <> p -> (In (q, c) (put_file p content fs) <-> In (q, c) fs).
Proof.
  intros p content fs q c Hne. unfold put_file. split.
  - intros [E|H]; [congruence|]. apply filter_In in H. tauto.
  - intros H. right. apply filter_In. split; [exact H|]. cbn [fst].
    apply negb_true_iff. destruct (path_eqb p q) eqn:E; [|reflexivity].
    apply path_eqb_eq in E. congruence.
Qed.

(** A write that returns found the directory of the file, and replaced the
    file. *)
Lemma write_file_inv :
  forall p content w w',
    write_file p content w = (Ok tt, w') ->
    w' = {| files := put_file p content (files w); dirs := dirs w; stdout := stdout w |} /\
    is_dir w (parent p) = true.
Proof.
  intros p content w w'. unfold write_file, is_dir. cbv zeta.
  destruct p as [|x p].
  { cbn. discriminate. }
  rewrite (lookup_through_parent w (x :: p)) by discriminate.
  destruct (lookup w (parent (x :: p))); try discriminate.
  destruct (entry_at w (x :: p)); try discriminate;
    intros H; injection H as <-; auto.
Qed.

Lemma bindM_inv :
  forall {A B : Type} (c : M A) (k : A -> M B) w b w',
    bindM c k w = (Ok b, w') ->
    exists a w1, c w = (Ok a, w1) /\ k a w1 = (Ok b, w').
Proof.
  intros A B c k w b w'. unfold bindM.
  destruct (c w) as [[a|e] w1]; [|discriminate]. eauto.
Qed.

Lemma lift_inv :
  forall {A : Type} (r : result A) w a w', lift r w = (Ok a, w') -> r = Ok a /\ w' = w.
Proof. intros A r w a w'. unfold lift. intros H. injection H as -> ->. auto. Qed.

(** [os.mkdir] that returns has added the directory under an existing
    parent; one that raises has changed nothing. *)
Lemma os_mkdir_inv :
  forall p w u w',
    os_mkdir p w = (Ok u, w') ->
    w' = {| files := files w; dirs := p :: dirs w; stdout := stdout w |} /\
    is_dir w (parent p) = true /\ p <> [].
Proof.
  intros p w u w'. unfold os_mkdir, is_dir.
  destruct (lookup w p) eqn:E; try discriminate.
  destruct (lookup w (parent p)); try discriminate.
  intros H. injection H as _ <-. split; [reflexivity|]. split; [reflexivity|].
  intros ->. cbn in E. discriminate.
Qed.

Lemma os_mkdir_raises :
  forall p w e w', os_mkdir p w = (Raise e, w') -> w' = w.
Proof.
  intros p w e w'. unfold os_mkdir.
  destruct (lookup w p); try (intros H; injection H as _ <-; reflexivity).
  destruct (lookup w (parent p)); try discriminate;
    intros H; injection H as _ <-; reflexivity.
Qed.

Lemma is_dir_added :
  forall w p,
    p <> [] -> is_dir w (parent p) = true ->
    is_dir {| files := files w; dirs := p :: dirs w; stdout := stdout w |} p = true.
Proof.
  intros w p Hp Hpar.
  pose proof (is_dir_mono w {| files := files w; dirs := p :: dirs w; stdout := stdout w |}
                (parent p)) as Hm.
  cbn [files dirs] in Hm. specialize (Hm (incl_tl p (incl_refl _)) (incl_refl _) Hpar).
  clear Hpar. unfold is_dir in *. rewrite (lookup_through_parent _ p Hp).
  destruct (lookup _ (parent p)); try discriminate Hm.
  unfold entry_at. destruct p as [|x p]; [congruence|]. cbn [dirs existsb].
  rewrite path_eqb_refl. reflexivity.
Qed.

Lemma begins_with_of_parent :
  forall p q, Observed.begins_with (parent p) q -> Observed.begins_with p q.
Proof.
  intros p q [r Hr]. destruct p as [|x p].
  - cbn in Hr. exists r. exact Hr.
  - exists (r ++ [last (x :: p) EmptyString]).
    rewrite (app_removelast_last EmptyString (l := x :: p)) at 1 by discriminate.
    unfold parent in Hr. rewrite Hr, <- app_assoc. reflexivity.
Qed.

(** [mkdir] that returns has left the files and the output alone, has kept
    the directories there were, has added only directories on the way to
    its argument, and its argument is a directory afterwards. *)
Lemma mkdir_inv :
  forall fuel p parents exist_ok w u w',
    mkdir fuel p parents exist_ok w = (Ok u, w') ->
    files w' = files w /\ stdout w' = stdout w /\
    incl (dirs w) (dirs w') /\
    (forall q, In q (dirs w') -> In q (dirs w) \/ (q <> [] /\ Observed.begins_with p q)) /\
    is_dir w' p = true.
Proof.
  induction fuel as [|fuel IH]; intros p parents exist_ok w u w' H; cbn [mkdir] in H.
  - destruct (os_mkdir p w) as [[u0|e] w0] eqn:E.
    + injection H as _ <-. destruct (os_mkdir_inv _ _ _ _ E) as [-> [Hpar Hp]].
      cbn [files dirs stdout]. repeat split; auto.
      * apply incl_tl, incl_refl.
      * intros q [<-|Hq]; [right; split; [exact Hp|exists []; symmetry; apply app_nil_r]|auto].
      * apply is_dir_added; assumption.
    + rewrite (os_mkdir_raises _ _ _ _ E) in *.
      destruct (exn_class_eqb (exn_cls e) FileNotFoundError).
      * destruct (negb parents || path_eqb (parent p) p); discriminate.
      * destruct (exist_ok && is_dir w p) eqn:D; [|discriminate].
        injection H as _ <-. apply andb_prop in D. destruct D as [_ D].
        repeat split; auto. apply incl_refl.
  - destruct (os_mkdir p w) as [[u0|e] w0] eqn:E.
    + injection H as _ <-. destruct (os_mkdir_inv _ _ _ _ E) as [-> [Hpar Hp]].
      cbn [files dirs stdout]. repeat split; auto.
      * apply incl_tl, incl_refl.
      * intros q [<-|Hq]; [right; split; [exact Hp|exists []; symmetry; apply app_nil_r]|auto].
      * apply is_dir_added; assumption.
    + rewrite (os_mkdir_raises _ _ _ _ E) in *.
      destruct (exn_class_eqb (exn_cls e) FileNotFoundError).
      * destruct (negb parents || path_eqb (parent p) p); [discriminate|].
        destruct (bindM_inv _ _ _ _ _ H) as [u1 [w1 [H1 H2]]].
        destruct (IH _ _ _ _ _ _ H1) as [F1 [S1 [I1 [N1 _]]]].
        destruct (IH _ _ _ _ _ _ H2) as [F2 [S2 [I2 [N2 D2]]]].
        split; [congruence|]. split; [congruence|].
        split; [eapply incl_tran; eassumption|]. split; [|exact D2].
        intros q Hq. destruct (N2 q Hq) as [Hq1|Hq1]; [|right; exact Hq1].
        destruct (N1 q Hq1) as [Hq0|[Hne Hb]]; [left; exact Hq0|].
        right. split; [exact Hne|]. apply begins_with_of_parent. exact Hb.
      * destruct (exist_ok && is_dir w p) eqn:D; [|discriminate].
        injection H as _ <-. apply andb_prop in D. destruct D as [_ D].
        repeat split; auto. apply incl_refl.
Qed.

(** [ensure_dir] that returns has left the files and the output alone, has
    kept the directories there were, has added only directories on the way
    to its argument, and its argument exists afterwards. *)
Lemma ensure_dir_inv :
  forall p w u w',
    ensure_dir p w = (Ok u, w') ->
    files w' = files w /\ stdout w' = stdout w /\
    incl (dirs w) (dirs w') /\
    (forall q, In q (dirs w') -> In q (dirs w) \/ (q <> [] /\ Observed.begins_with p q)) /\
    path_exists w' p = true.
Proof.
  intros p w u w'. unfold ensure_dir.
  destruct (path_exists w p) eqn:E.
  - intros H. injection H as _ <-. repeat split; auto. apply incl_refl.
  - intros H. destruct (mkdir_inv _ _ _ _ _ _ _ H) as [F [S [I [N D]]]].
    repeat split; auto. unfold is_dir in D. unfold path_exists.
    destruct (lookup w' p); try discriminate. reflexivity.
Qed.

Section QualitativeResults.
Variable interpolate : tensor Q -> nat * nat -> result (tensor Q).
Variable make_grid : tensor Q -> nat -> result (tensor Q).
Variable png : tensor Q -> string.

Local Abbreviation qualitative_results :=
  (EvaluateDataset.qualitative_results interpolate make_grid png).

(** For at least 6 items, the indices are the multiples of [len // 6] below
    [len], and the batch taken from the loader holds the first
    [len // 6 + 1] sub-sampled items. *)
Lemma qualitative_results_batch :
  forall d : dataset,
    (6 <= length d)%nat ->
    let step := (length d / 6)%nat in
    let count := ((length d + step - 1) / step)%nat in
    let indices := map (fun k => k * step)%nat (seq 0 count) in
    range 0 (length d) step = Ok indices /\
    length (Subset d indices) = count /\
    next (DataLoader (Subset d indices) (step + 1) false) =
      Ok (collate (firstn (step + 1) (Subset d indices))).
Proof.
  intros d Hd. cbv zeta.
  destruct (subsample_count (length d) Hd) as [Hstep [[Hlo Hhi] Hidx]].
  split; [apply range_multiples; exact Hstep|].
  assert (Hlen : length (Subset d (map (fun k => (k * (length d / 6))%nat)
                   (seq 0 ((length d + length d / 6 - 1) / (length d / 6))))) =
                 ((length d + length d / 6 - 1) / (length d / 6))%nat).
  { rewrite Subset_length; [rewrite length_map, length_seq; reflexivity|].
    apply Forall_map. apply Forall_forall. intros k Hk. apply in_seq in Hk.
    apply Hidx. lia. }
  split; [exact Hlen|].
  unfold DataLoader.
  destruct (group_head (length d / 6 + 1)
              (Subset d (map (fun k => (k * (length d / 6))%nat)
                 (seq 0 ((length d + length d / 6 - 1) / (length d / 6))))) [])
    as [rest Hr].
  - lia.
  - cbn; lia.
  - cbn [rev app]. intros E. rewrite E in Hlen. cbn [length] in Hlen. lia.
  - rewrite Hr. reflexivity.
Qed.

(** The sub-sample of a dataset of at least 6 items has between 6 and 11
    items, but the batch handed to the model holds only the first
    [len // 6 + 1] of them: two images for 6 to 11 items.  When the model
    raises on that batch, [qualitative_results] raises the same exception
    and writes nothing. *)
Theorem qualitative_results_selection :
  forall d path net w,
    (6 <= length d)%nat ->
    let step := (length d / 6)%nat in
    let row_n := (step + 1)%nat in
    let count := ((length d + step - 1) / step)%nat in
    let subset := Subset d (map (fun k => k * step)%nat (seq 0 count)) in
    let shown := firstn row_n subset in
    (6 <= length subset <= 11)%nat /\
    length shown = Nat.min row_n (length subset) /\
    ((length d < 12)%nat -> length shown = 2%nat) /\
    (forall e,
        call net (Dim (map sample_image shown)) = Raise e ->
        qualitative_results d path net w = (Raise e, w)).
Proof.
  intros d path net w Hd. cbv zeta.
  destruct (qualitative_results_batch d Hd) as [Hrange [Hlen Hnext]].
  destruct (subsample_count (length d) Hd) as [Hstep [[Hlo Hhi] _]].
  split; [rewrite Hlen; lia|]. split; [apply length_firstn|]. split.
  - intros H12. rewrite length_firstn, Hlen.
    assert (Hs : (length d / 6 = 1)%nat).
    { symmetry. apply Nat.div_unique with (r := (length d - 6)%nat); lia. }
    rewrite Hs in *. lia.
  - intros e He. unfold EvaluateDataset.qualitative_results. cbv zeta.
    unfold bindM at 1. unfold lift at 1. rewrite Hrange.
    unfold bindM at 1. unfold lift at 1. rewrite Hnext.
    unfold bindM at 1. unfold lift at 1.
    cbn [collate image]. rewrite He. reflexivity.
Qed.

(** When [qualitative_results] returns, it has called the model once, on
    the first [len // 6 + 1] sub-sampled images, and has written three
    files in the directory [path], which existed: [images.png],
    [true_masks.png] and [out_masks.png], the grids of the resized images,
    ground-truth masks and arg-max predictions (at every position the first
    class with the largest value).  A file of one of these names is
    replaced; every other file is as before; nothing is printed and no
    directory is created. *)
Theorem qualitative_results_output :
  forall d path net w w',
    qualitative_results d path net w = (Ok tt, w') ->
    let step := (length d / 6)%nat in
    let row_n := (step + 1)%nat in
    let count := ((length d + step - 1) / step)%nat in
    let shown := firstn row_n (Subset d (map (fun k => k * step)%nat (seq 0 count))) in
    exists pred labels images true_masks out_masks g1 g2 g3,
      call net (Dim (map sample_image shown)) = Ok pred /\
      argmax_dim1 pred = Ok labels /\
      Claimed.argmax_labels pred labels /\
      interpolate (Dim (map sample_image shown)) (175, 140)%nat = Ok images /\
      interpolate (to_float (unsqueeze1 (Dim (map sample_mask shown)))) (175, 140)%nat
        = Ok true_masks /\
      interpolate (to_float (unsqueeze1 labels)) (175, 140)%nat = Ok out_masks /\
      make_grid images row_n = Ok g1 /\
      make_grid true_masks row_n = Ok g2 /\
      make_grid out_masks row_n = Ok g3 /\
      is_dir w path = true /\
      w' = {| files := put_file (path_join path "out_masks.png") (png g3)
                         (put_file (path_join path "true_masks.png") (png g2)
                            (put_file (path_join path "images.png") (png g1) (files w)));
              dirs := dirs w;
              stdout := stdout w |} /\
      (forall q c,
          ~ In q [path_join path "images.png"; path_join path "true_masks.png";
                  path_join path "out_masks.png"] ->
          (In (q, c) (files w') <-> In (q, c) (files w))).
Proof.
  intros d path net w w' H. cbv zeta.
  pose proof (qualitative_results_returns _ _ _ _ _ _ _ _ H) as Hd.
  destruct (qualitative_results_batch d Hd) as [Hrange [_ Hnext]].
  unfold EvaluateDataset.qualitative_results in H. cbv zeta in H.
  unfold bindM at 1 in H. unfold lift at 1 in H. rewrite Hrange in H.
  unfold bindM at 1 in H. unfold lift at 1 in H. rewrite Hnext in H.
  cbn [collate image mask fst snd full_img_size] in H.
  destruct (bindM_inv _ _ _ _ _ H) as [pred [w1 [E1 H1]]]. clear H.
  apply lift_inv in E1. destruct E1 as [E1 ->].
  destruct (bindM_inv _ _ _ _ _ H1) as [labels [w1 [E2 H2]]]. clear H1.
  apply lift_inv in E2. destruct E2 as [E2 ->].
  destruct (bindM_inv _ _ _ _ _ H2) as [images [w1 [E3 H3]]]. clear H2.
  apply lift_inv in E3. destruct E3 as [E3 ->].
  destruct (bindM_inv _ _ _ _ _ H3) as [tm [w1 [E4 H4]]]. clear H3.
  apply lift_inv in E4. destruct E4 as [E4 ->].
  destruct (bindM_inv _ _ _ _ _ H4) as [om [w1 [E5 H5]]]. clear H4.
  apply lift_inv in E5. destruct E5 as [E5 ->].
  destruct (bindM_inv _ _ _ _ _ H5) as [g1 [w1 [E6 H6]]]. clear H5.
  apply lift_inv in E6. destruct E6 as [E6 ->].
  destruct (bindM_inv _ _ _ _ _ H6) as [[] [w1 [S1 H7]]]. clear H6.
  destruct (write_file_inv _ _ _ _ S1) as [-> D1]. rewrite parent_join in D1.
  destruct (bindM_inv _ _ _ _ _ H7) as [g2 [w2 [E7 H8]]]. clear H7.
  apply lift_inv in E7. destruct E7 as [E7 ->].
  destruct (bindM_inv _ _ _ _ _ H8) as [[] [w2 [S2 H9]]]. clear H8.
  destruct (write_file_inv _ _ _ _ S2) as [-> _].
  destruct (bindM_inv _ _ _ _ _ H9) as [g3 [w3 [E8 H10]]]. clear H9.
  apply lift_inv in E8. destruct E8 as [E8 ->].
  destruct (write_file_inv _ _ _ _ H10) as [-> _].
  cbn [files dirs stdout].
  exists pred, labels, images, tm, om, g1, g2, g3.
  split; [exact E1|]. split; [exact E2|]. split; [apply argmax_dim1_labels; exact E2|].
  split; [exact E3|]. split; [exact E4|]. split; [exact E5|].
  split; [exact E6|]. split; [exact E7|]. split; [exact E8|].
  split; [exact D1|]. split; [reflexivity|].
  intros q c Hq. cbn [In] in Hq.
  rewrite !put_file_others by (intros ->; apply Hq; auto).
  reflexivity.
Qed.
End QualitativeResults.

(* ===================================================================== *)
(** ** Saving the scores *)
(* ===================================================================== *)

Lemma string_app_assoc :
  forall a b c : string, ((a ++ b) ++ c = a ++ (b ++ c))%string.
Proof.
  induction a as [|ch a IH]; intros b c; cbn [append]; [reflexivity|].
  rewrite IH. reflexivity.
Qed.

(** The text that [writerows] produces for the four rows of the script. *)
Lemma writerows_scores :
  forall (repr : Q -> string) q1 q2 q3,
    writerows repr
      [[CStr "Dataset"; CStr "Score"]; [CStr "Training"; CNum q1];
       [CStr "Validation"; CNum q2]; [CStr "Test"; CNum q3]] =
    ("Dataset,Score" ++ crlf ++
     "Training," ++ repr q1 ++ crlf ++
     "Validation," ++ repr q2 ++ crlf ++
     "Test," ++ repr q3 ++ crlf)%string.
Proof.
  intros. unfold writerows, render_cell. cbn [map String.concat].
  rewrite !string_app_assoc. cbn [append]. reflexivity.
Qed.

Lemma print_inv :
  forall line w u w',
    print line w = (Ok u, w') ->
    w' = {| files := files w; dirs := dirs w; stdout := line :: stdout w |}.
Proof. intros line w u w'. unfold print. intros H. injection H as _ <-. reflexivity. Qed.

(** The paths that lie on the way to one of the three result directories. *)
Lemma on_the_way_to_results :
  forall p q,
    In p [train_path; val_path; test_path] ->
    q <> [] -> Observed.begins_with p q ->
    In q [["results"]; train_path; val_path; test_path]%string.
Proof.
  intros p q Hp Hq [r Hr].
  assert (H : forall name, [("results")%string; name] = q ++ r ->
                           q = ["results"%string] \/ q = ["results"%string; name]).
  { intros name E. destruct q as [|a [|b [|c q]]]; cbn in E.
    - congruence.
    - injection E as <- _. left. reflexivity.
    - injection E as <- <- _. right. reflexivity.
    - discriminate E. }
  cbn [In] in *. unfold train_path, val_path, test_path in *.
  destruct Hp as [<-|[<-|[<-|[]]]]; destruct (H _ Hr) as [->| ->]; auto.
Qed.

Section Report.
Variable format_4f : Q -> string.
Variable repr : Q -> string.

Local Abbreviation report := (EvaluateDataset.report format_4f repr).

(** Lines 120-150 on three 0-dimensional tensors, when they return: three
    lines have been printed with the formatted scores, and a last line
    after the file is saved; [results/scores.csv] holds the header and the
    three rows, each ended by CR LF, in place of any earlier file of that
    name, and the other files are as before; the three result paths exist
    and [results] is a directory; no directory has been removed, and the
    only directories that may have been added are [results] and the three
    result directories. *)
Theorem report_writes_scores_csv :
  forall q1 q2 q3 w w',
    report (Num (Tensor0 q1)) (Num (Tensor0 q2)) (Num (Tensor0 q3)) w = (Ok tt, w') ->
    stdout w' =
      ["Scores saved in scores.csv";
       "Test Dice score: " ++ format_4f q3;
       "Validation Dice score: " ++ format_4f q2;
       "Training Dice score: " ++ format_4f q1]%string ++ stdout w /\
    files w' =
      put_file scores_path
        ("Dataset,Score" ++ crlf ++
         "Training," ++ repr q1 ++ crlf ++
         "Validation," ++ repr q2 ++ crlf ++
         "Test," ++ repr q3 ++ crlf)%string (files w) /\
    (forall p, In p [train_path; val_path; test_path] -> path_exists w' p = true) /\
    is_dir w' ["results"%string] = true /\
    incl (dirs w) (dirs w') /\
    (forall p, In p (dirs w') ->
               In p (dirs w) \/ In p [["results"]; train_path; val_path; test_path]%string).
Proof.
  intros q1 q2 q3 w w' H. unfold EvaluateDataset.report in H.
  cbn [format_score item num_value] in H.
  repeat match type of H with
         | bindM (lift (Ok ?x)) ?k ?w0 = _ => change (k x w0 = (Ok tt, w')) in H; cbv beta in H
         end.
  destruct (bindM_inv _ _ _ _ _ H) as [u1 [w1 [P1 H1]]]. clear H.
  apply print_inv in P1. cbv beta in H1.
  repeat match type of H1 with
         | bindM (lift (Ok ?x)) ?k ?w0 = _ => change (k x w0 = (Ok tt, w')) in H1; cbv beta in H1
         end.
  destruct (bindM_inv _ _ _ _ _ H1) as [u2 [w2 [P2 H2]]]. clear H1.
  apply print_inv in P2. cbv beta in H2.
  repeat match type of H2 with
         | bindM (lift (Ok ?x)) ?k ?w0 = _ => change (k x w0 = (Ok tt, w')) in H2; cbv beta in H2
         end.
  destruct (bindM_inv _ _ _ _ _ H2) as [u3 [w3 [P3 H3]]]. clear H2.
  apply print_inv in P3. cbv beta in H3.
  repeat match type of H3 with
         | bindM (lift (Ok ?x)) ?k ?w0 = _ => change (k x w0 = (Ok tt, w')) in H3; cbv beta in H3
         end.
  cbv zeta in H3.
  destruct (bindM_inv _ _ _ _ _ H3) as [u4 [w4 [D1 H4]]]. clear H3.
  destruct (bindM_inv _ _ _ _ _ H4) as [u5 [w5 [D2 H5]]]. clear H4.
  destruct (bindM_inv _ _ _ _ _ H5) as [u6 [w6 [D3 H6]]]. clear H5.
  destruct (bindM_inv _ _ _ _ _ H6) as [[] [w7 [W H7]]]. clear H6.
  apply print_inv in H7.
  destruct (ensure_dir_inv _ _ _ _ D1) as [F4 [S4 [I4 [N4 X4]]]].
  destruct (ensure_dir_inv _ _ _ _ D2) as [F5 [S5 [I5 [N5 X5]]]].
  destruct (ensure_dir_inv _ _ _ _ D3) as [F6 [S6 [I6 [N6 X6]]]].
  destruct (write_file_inv _ _ _ _ W) as [-> _].
  rewrite writerows_scores in H7. subst w' w3 w2 w1.
  cbn [files dirs stdout] in *.
  assert (Hf6 : incl (map fst (files w6))
                     (map fst (put_file scores_path
                                 ("Dataset,Score" ++ crlf ++ "Training," ++ repr q1 ++ crlf ++
                                  "Validation," ++ repr q2 ++ crlf ++
                                  "Test," ++ repr q3 ++ crlf)%string (files w6))))
    by apply put_file_names.
  split; [rewrite S6, S5, S4; reflexivity|].
  split; [rewrite F6, F5, F4; reflexivity|].
  assert (X5' : path_exists w6 val_path = true).
  { apply (path_exists_mono w5); [exact I6|rewrite F6; apply incl_refl|exact X5]. }
  assert (X4' : path_exists w6 train_path = true).
  { apply (path_exists_mono w5); [exact I6|rewrite F6; apply incl_refl|].
    apply (path_exists_mono w4); [exact I5|rewrite F5; apply incl_refl|exact X4]. }
  split; [|split; [|split]].
  - intros p Hp.
    apply (path_exists_mono w6); [apply incl_refl|exact Hf6|].
    cbn [In] in Hp. destruct Hp as [<-|[<-|[<-|[]]]]; assumption.
  - apply (is_dir_mono w6); [apply incl_refl|exact Hf6|].
    unfold is_dir.
    rewrite (lookup_found_parent w6 test_path ltac:(discriminate) X6 : lookup w6 ["results"%string] = SDir).
    reflexivity.
  - eapply incl_tran; [|exact I6]. eapply incl_tran; [|exact I5]. exact I4.
  - intros p Hp.
    destruct (N6 p Hp) as [Hp5|[Hne Hb]];
      [|right; apply (on_the_way_to_results test_path); cbn; auto].
    destruct (N5 p Hp5) as [Hp4|[Hne Hb]];
      [|right; apply (on_the_way_to_results val_path); cbn; auto].
    destruct (N4 p Hp4) as [Hp3|[Hne Hb]];
      [|right; apply (on_the_way_to_results train_path); cbn; auto].
    left. exact Hp3.
Qed.
End Report.

(* ===================================================================== *)
(** ** The mode of the forward passes, and the end of the script *)
(* ===================================================================== *)

Section Modes.
Variable sigmoid : Q -> Q.
Variable softmax_dim1 : tensor Q -> result (tensor Q).
Variable CrossEntropyLoss : tensor Q -> pytensor -> result Q.
Variable BCEWithLogitsLoss : tensor Q -> pytensor -> result Q.

Local Abbreviation evaluate :=
  (Evaluate.evaluate sigmoid softmax_dim1 CrossEntropyLoss BCEWithLogitsLoss).
Local Abbreviation validation_round := (Evaluate.validation_round sigmoid softmax_dim1).

Lemma validation_round_eval_forward :
  forall net1 net2 criterion,
    n_classes net1 = n_classes net2 ->
    (forall x, forward net1 false x = forward net2 false x) ->
    forall dataloader dice_score loss_total,
      validation_round (net_eval net1) criterion dataloader dice_score loss_total =
      validation_round (net_eval net2) criterion dataloader dice_score loss_total.
Proof.
  intros net1 net2 criterion Hn Hf.
  induction dataloader as [|b rest IH]; intros ds lt; [reflexivity|].
  cbn [Evaluate.validation_round].
  assert (Hbody : Evaluate.loop_body sigmoid softmax_dim1 (net_eval net1) criterion ds lt b =
                  Evaluate.loop_body sigmoid softmax_dim1 (net_eval net2) criterion ds lt b).
  { unfold Evaluate.loop_body.
    destruct (to_channels_last (image b)) as [img|e]; [|reflexivity]. cbn [bind].
    unfold call, Evaluate.batch_loss, Evaluate.batch_score.
    cbn [net_eval training forward n_classes]. rewrite Hf, Hn. reflexivity. }
  rewrite Hbody.
  destruct (Evaluate.loop_body _ _ (net_eval net2) criterion ds lt b) as [sums|e];
    cbn [bind]; [apply IH|reflexivity].
Qed.

(** [evaluate] runs the model in evaluation mode only: what it returns or
    raises does not depend on what the forward pass does in training
    mode. *)
Theorem evaluate_ignores_training_forward :
  forall net1 net2 dataloader,
    n_classes net1 = n_classes net2 ->
    (forall x, forward net1 false x = forward net2 false x) ->
    fst (evaluate net1 dataloader) = fst (evaluate net2 dataloader).
Proof.
  intros net1 net2 dataloader Hn Hf. unfold Evaluate.evaluate. cbv zeta.
  cbn [net_eval n_classes]. rewrite Hn.
  rewrite (validation_round_eval_forward net1 net2 _ Hn Hf).
  destruct (validation_round (net_eval net2) _ dataloader (PyInt 0) (PyInt 0))
    as [[d l]|e]; reflexivity.
Qed.
End Modes.

Section ScriptEnd.
Variable sigmoid : Q -> Q.
Variable softmax_dim1 : tensor Q -> result (tensor Q).
Variable CrossEntropyLoss : tensor Q -> pytensor -> result Q.
Variable BCEWithLogitsLoss : tensor Q -> pytensor -> result Q.
Variable load_net : Z -> bool -> string -> result (bool -> tensor Q -> result (tensor Q)).
Variable CarvanaDataset : string -> string -> Q -> result dataset.
Variable BasicDataset : string -> string -> Q -> result dataset.
Variable random_split : dataset -> nat -> nat -> result (dataset * dataset).
Variable interpolate : tensor Q -> nat * nat -> result (tensor Q).
Variable make_grid : tensor Q -> nat -> result (tensor Q).
Variable png : tensor Q -> string.
Variable format_4f : Q -> string.
Variable repr : Q -> string.

Local Abbreviation scores :=
  (EvaluateDataset.scores sigmoid softmax_dim1 CrossEntropyLoss BCEWithLogitsLoss
     load_net CarvanaDataset BasicDataset random_split).
Local Abbreviation main :=
  (EvaluateDataset.main sigmoid softmax_dim1 CrossEntropyLoss BCEWithLogitsLoss
     load_net CarvanaDataset BasicDataset random_split interpolate make_grid png
     format_4f repr).

(** Once [get_args()] has returned, whatever the parsed arguments, the
    model file and the data, the rest of the script (lines 66-156) ends with
    an exception, and from the end of argument parsing to that point it has
    printed nothing, created no directory and written no file: the world is
    the one that argument parsing left.  What [get_args()] itself prints or
    raises (the usage text and the exit of [--help], the error of a bad
    option) is outside this statement. *)
Theorem main_always_raises :
  forall a w, exists e, main a w = (Raise e, w).
Proof.
  intros a w. unfold EvaluateDataset.main. unfold bindM at 1. unfold lift at 1.
  destruct (scores a) as [[[net sets] [[s1 s2] s3]]|e] eqn:H.
  - destruct (scores_inv _ _ _ _ _ _ _ _ _ _ _ _ _ _ H)
      as [fwd [n1 [n2 [_ [_ [H1 _]]]]]].
    destruct (call_evaluate_inv _ _ _ _ _ _ _ _ H1) as [score [loss [-> _]]].
    destruct sets as [[train_set val_set] test_set].
    eexists. reflexivity.
  - eexists. reflexivity.
Qed.
End ScriptEnd.

(* ===================================================================== *)
(** ** Instances *)
(* ===================================================================== *)

(** An instance of [evaluate_first_failure]: image batches of shape
    (B, 1, H, W), a one-class model whose predictions have shape (B, H, W),
    a valid batch, a batch with the label 2 on which the assertion of line
    46 raises, and a batch that is never reached. *)
Lemma evaluate_first_failure_witness :
  Evaluate.evaluate Fixture.sigmoid Fixture.softmax_dim1 Fixture.CrossEntropyLoss
    Fixture.BCEWithLogitsLoss Fixture.net1
    ([Fixture.batch1] ++ Fixture.batch1_corrupt :: [Fixture.batch1]) =
    (Raise (mkExn AssertionError "True mask indices should be in [0, 1]"),
     net_eval Fixture.net1).
Proof.
  eapply evaluate_first_failure.
  - vm_compute. reflexivity.
  - vm_compute. reflexivity.
Defined.

(** An instance of [evaluate_returns_means]: two batches of shape
    (2, 2, 2, 2) of the two-class model. *)
Lemma evaluate_returns_means_witness :
  exists outs score loss,
    Forall2 (Observed.batch_outcome Fixture.sigmoid Fixture.softmax_dim1
               (net_eval Fixture.net2) Fixture.CrossEntropyLoss)
      [Fixture.batch2; Fixture.batch2] outs /\
    Evaluate.evaluate Fixture.sigmoid Fixture.softmax_dim1 Fixture.CrossEntropyLoss
      Fixture.BCEWithLogitsLoss Fixture.net2 [Fixture.batch2; Fixture.batch2] =
      (Ok (Tensor0 score, Tensor0 loss), net_train (net_eval Fixture.net2)) /\
    (score == mean (map fst outs))%Q /\ (loss == mean (map snd outs))%Q.
Proof.
  destruct (Evaluate.batch_score Fixture.sigmoid (net_eval Fixture.net2)
              (image Fixture.batch2) (mask Fixture.batch2)) as [d|e] eqn:Ed;
    [|exfalso; revert Ed; vm_compute; discriminate].
  destruct (Evaluate.batch_loss Fixture.sigmoid Fixture.softmax_dim1
              (net_eval Fixture.net2) Fixture.CrossEntropyLoss
              (image Fixture.batch2) (mask Fixture.batch2)) as [l|e] eqn:El;
    [|exfalso; revert El; vm_compute; discriminate].
  assert (H : Forall2 (Observed.batch_outcome Fixture.sigmoid Fixture.softmax_dim1
                         (net_eval Fixture.net2) Fixture.CrossEntropyLoss)
                [Fixture.batch2; Fixture.batch2] [(d, l); (d, l)]).
  { repeat constructor; exists (image Fixture.batch2), (image Fixture.batch2); auto. }
  destruct (evaluate_returns_means Fixture.sigmoid Fixture.softmax_dim1
              Fixture.CrossEntropyLoss Fixture.BCEWithLogitsLoss Fixture.net2
              [Fixture.batch2; Fixture.batch2] [(d, l); (d, l)] H ltac:(discriminate))
    as [score [loss [He [Hs Hl]]]].
  exists [(d, l); (d, l)], score, loss. auto.
Defined.

(** An instance of [evaluate_nonpositive_classes]: a model with no class. *)
Lemma evaluate_nonpositive_classes_witness :
  exists e,
    Evaluate.evaluate Fixture.sigmoid Fixture.softmax_dim1 Fixture.CrossEntropyLoss
      Fixture.BCEWithLogitsLoss
      {| n_classes := 0; training := true; forward := Fixture.identity |}
      [Fixture.batch2] =
      (Raise e, {| n_classes := 0; training := false; forward := Fixture.identity |}).
Proof.
  exact (evaluate_nonpositive_classes Fixture.sigmoid Fixture.softmax_dim1
           Fixture.CrossEntropyLoss Fixture.BCEWithLogitsLoss
           {| n_classes := 0; training := true; forward := Fixture.identity |}
           Fixture.batch2 [] ltac:(cbn; lia)).
Defined.

(** An instance of [evaluate_ignores_training_forward]: a model whose
    forward pass fails in training mode is evaluated like the one that does
    not fail. *)
Lemma evaluate_ignores_training_forward_witness :
  fst (Evaluate.evaluate Fixture.sigmoid Fixture.softmax_dim1 Fixture.CrossEntropyLoss
         Fixture.BCEWithLogitsLoss
         {| n_classes := 2; training := true;
            forward := fun training x =>
                         if training then raise RuntimeError "training pass"
                         else Ok x |}
         [Fixture.batch2]) =
  fst (Evaluate.evaluate Fixture.sigmoid Fixture.softmax_dim1 Fixture.CrossEntropyLoss
         Fixture.BCEWithLogitsLoss Fixture.net2 [Fixture.batch2]).
Proof.
  apply evaluate_ignores_training_forward.
  - reflexivity.
  - intros x. reflexivity.
Defined.

(** An instance of [scores_leave_training_mode] and of
    [small_split_scores_zero]: three splits of 3, 2 and 3 items. *)
Lemma scores_leave_training_mode_witness :
  exists net sets train_score val_score test_score,
    EvaluateDataset.scores Fixture.sigmoid Fixture.softmax_dim1 Fixture.CrossEntropyLoss
      Fixture.BCEWithLogitsLoss Fixture.load_net Fixture.CarvanaDataset
      Fixture.BasicDataset Fixture.random_split Fixture.args_split =
      Ok (net, sets, (train_score, val_score, test_score)) /\
    training net = true /\ n_classes net = 2%Z.
Proof.
  destruct (EvaluateDataset.scores Fixture.sigmoid Fixture.softmax_dim1
              Fixture.CrossEntropyLoss Fixture.BCEWithLogitsLoss Fixture.load_net
              Fixture.CarvanaDataset Fixture.BasicDataset Fixture.random_split
              Fixture.args_split)
    as [[[net sets] [[s1 s2] s3]]|e] eqn:E.
  - exists net, sets, s1, s2, s3. split; [reflexivity|].
    exact (scores_leave_training_mode Fixture.sigmoid Fixture.softmax_dim1
             Fixture.CrossEntropyLoss Fixture.BCEWithLogitsLoss Fixture.load_net
             Fixture.CarvanaDataset Fixture.BasicDataset Fixture.random_split
             Fixture.args_split net sets s1 s2 s3 E).
  - exfalso. revert E. vm_compute. discriminate.
Defined.

Lemma small_split_scores_zero_witness :
  exists net train_set val_set test_set train_score,
    EvaluateDataset.scores Fixture.sigmoid Fixture.softmax_dim1 Fixture.CrossEntropyLoss
      Fixture.BCEWithLogitsLoss Fixture.load_net Fixture.CarvanaDataset
      Fixture.BasicDataset Fixture.random_split Fixture.args_split =
      Ok (net, (train_set, val_set, test_set),
          (train_score, Tuple (PyFloat 0) (PyFloat 0), Tuple (PyFloat 0) (PyFloat 0))) /\
    length val_set = 2%nat /\ length test_set = 3%nat.
Proof.
  destruct (EvaluateDataset.scores Fixture.sigmoid Fixture.softmax_dim1
              Fixture.CrossEntropyLoss Fixture.BCEWithLogitsLoss Fixture.load_net
              Fixture.CarvanaDataset Fixture.BasicDataset Fixture.random_split
              Fixture.args_split)
    as [[[net [[tr va] te]] [[s1 s2] s3]]|e] eqn:E.
  - assert (Hlen : length va = 2%nat /\ length te = 3%nat).
    { revert E. vm_compute. intros E. injection E as _ _ <- <- _ _ _. split; reflexivity. }
    destruct Hlen as [Hva Hte].
    destruct (small_split_scores_zero Fixture.sigmoid Fixture.softmax_dim1
                Fixture.CrossEntropyLoss Fixture.BCEWithLogitsLoss Fixture.load_net
                Fixture.CarvanaDataset Fixture.BasicDataset Fixture.random_split
                Fixture.args_split net tr va te s1 s2 s3 E) as [H2 H3].
    rewrite (H2 ltac:(lia)), (H3 ltac:(lia)).
    exists net, tr, va, te, s1. auto.
  - exfalso. revert E. vm_compute. discriminate.
Defined.

(** An instance of [default_split_sizes]: 10 items, split 9 to 1. *)
Lemma default_split_sizes_witness :
  exists train_set val_set d,
    EvaluateDataset.splits Fixture.CarvanaDataset Fixture.BasicDataset
      Fixture.random_split Fixture.args_default = Ok (train_set, val_set, val_set) /\
    length d = 10%nat /\
    Fixture.random_split d (length d - length d / 10) (length d / 10) =
      Ok (train_set, val_set).
Proof.
  destruct (EvaluateDataset.splits Fixture.CarvanaDataset Fixture.BasicDataset
              Fixture.random_split Fixture.args_default)
    as [[[tr va] te]|e] eqn:E.
  - destruct (default_split_sizes Fixture.CarvanaDataset Fixture.BasicDataset
                Fixture.random_split Fixture.args_default tr va te eq_refl E)
      as [d [Hd [Hs _]]].
    assert (te = va) by (revert E; vm_compute; intros E; injection E as _ <- <-; reflexivity).
    subst te. exists tr, va, d. split; [reflexivity|]. split; [|exact Hs].
    revert Hd. vm_compute. intros Hd. injection Hd as <-. reflexivity.
  - exfalso. revert E. vm_compute. discriminate.
Defined.

(** An instance of [qualitative_results_selection]: 7 items, of which all
    are sub-sampled and two are shown. *)
Lemma qualitative_results_selection_witness :
  (6 <= length (Fixture.data 7))%nat /\
  length (firstn 2 (Subset (Fixture.data 7) (map (fun k => k * 1)%nat (seq 0 7)))) = 2%nat.
Proof.
  assert (H : (6 <= length (Fixture.data 7))%nat) by (cbn; lia).
  split; [exact H|].
  exact (proj1 (proj2 (proj2 (qualitative_results_selection Fixture.interpolate
                                Fixture.make_grid Fixture.png (Fixture.data 7)
                                train_path Fixture.net2 Fixture.empty_world H)))
               ltac:(cbn; lia)).
Defined.

(** An instance of [qualitative_results_output]: 6 items, in a world where
    [results/train] exists and holds an earlier [images.png]; that file is
    replaced and [notes.txt] is kept.  Without the directory the first
    [save_image] raises [FileNotFoundError]. *)
Lemma qualitative_results_output_witness :
  EvaluateDataset.qualitative_results Fixture.interpolate Fixture.make_grid Fixture.png
    (Fixture.data 6) train_path Fixture.net2 Fixture.results_world =
    (Ok tt, {| files := [(["results"; "train"; "out_masks.png"], "png");
                         (["results"; "train"; "true_masks.png"], "png");
                         (["results"; "train"; "images.png"], "png");
                         (["notes.txt"], "keep")]%string;
               dirs := dirs Fixture.results_world;
               stdout := [] |}) /\
  EvaluateDataset.qualitative_results Fixture.interpolate Fixture.make_grid Fixture.png
    (Fixture.data 6) train_path Fixture.net2 Fixture.empty_world =
    (Raise (mkExn FileNotFoundError "No such file or directory"), Fixture.empty_world).
Proof.
  split; [|vm_compute; reflexivity].
  destruct (EvaluateDataset.qualitative_results Fixture.interpolate Fixture.make_grid
              Fixture.png (Fixture.data 6) train_path Fixture.net2
              Fixture.results_world) as [[[]|e] w'] eqn:E.
  - destruct (qualitative_results_output Fixture.interpolate Fixture.make_grid
                Fixture.png (Fixture.data 6) train_path Fixture.net2
                Fixture.results_world w' E)
      as [pred [labels [images [tm [om [g1 [g2 [g3 H]]]]]]]].
    decompose [and] H. subst w'. reflexivity.
  - exfalso. revert E. vm_compute. discriminate.
Defined.

(** An instance of [report_writes_scores_csv]: in a working directory
    without [results], the directory and its three sub-directories are
    created and the scores are saved. *)
Lemma report_writes_scores_csv_witness :
  exists w',
    EvaluateDataset.report Fixture.format_4f Fixture.repr
      (Num (Tensor0 0)) (Num (Tensor0 0)) (Num (Tensor0 0)) Fixture.empty_world =
      (Ok tt, w') /\
    dirs w' = [test_path; val_path; train_path; ["results"%string]] /\
    files w' =
      [(scores_path,
        ("Dataset,Score" ++ crlf ++ "Training,0.0" ++ crlf ++
         "Validation,0.0" ++ crlf ++ "Test,0.0" ++ crlf)%string)] /\
    is_dir w' ["results"%string] = true.
Proof.
  destruct (EvaluateDataset.report Fixture.format_4f Fixture.repr
              (Num (Tensor0 0)) (Num (Tensor0 0)) (Num (Tensor0 0)) Fixture.empty_world)
    as [[[]|e] w'] eqn:E; [|exfalso; revert E; vm_compute; discriminate].
  destruct (report_writes_scores_csv Fixture.format_4f Fixture.repr 0 0 0
              Fixture.empty_world w' E) as [_ [Hf [_ [Hd _]]]].
  exists w'. split; [reflexivity|]. split; [|split; [exact Hf|exact Hd]].
  revert E. vm_compute. intros E. injection E as <-. reflexivity.
Defined.

Lemma Forall_exists_Forall2 :
  forall {A B : Type} (R : A -> B -> Prop) l,
    Forall (fun x => exists y, R x y) l -> exists l', Forall2 R l l'.
Proof.
  intros A B R l H. induction H as [|x l [y Hy] _ [l' IH]].
  - exists []. constructor.
  - exists (y :: l'). constructor; assumption.
Qed.

(** A check of the validity of labels that can be computed. *)
Lemma valid_labels_check :
  forall n (t : tensor Z),
    negb (Nat.eqb (length (elems t)) 0) && forallb (Claimed.label_in_range n) (elems t) = true ->
    Claimed.valid_labels n t.
Proof.
  intros n t H. apply andb_prop in H. destruct H as [H1 H2]. split.
  - intros E. rewrite E in H1. discriminate.
  - rewrite forallb_forall in H2. exact H2.
Qed.

(** With the collaborators of [Fixture], the loop body of the two-class
    model returns on every batch of two-channel images with valid labels. *)
Lemma fixture_batch_outcome :
  forall b nb h w,
    shape (image b) = Some [nb; 2; h; w]%nat ->
    shape (mask b) = Some [nb; h; w] ->
    (0 < w)%nat ->
    Claimed.valid_labels 2 (mask b) ->
    exists o,
      Observed.batch_outcome Fixture.sigmoid Fixture.softmax_dim1 (net_eval Fixture.net2)
        Fixture.CrossEntropyLoss b o.
Proof.
  intros b nb h w Hi Hm Hw Hvalid.
  destruct (batch_score_multiclass_returns Fixture.sigmoid (net_eval Fixture.net2)
              (image b) (mask b) nb 2%nat h w ltac:(reflexivity) eq_refl Hi Hm Hw Hvalid)
    as [d Hd].
  assert (Hrange : forall l, In l (elems (mask b)) -> (0 <= l < 2)%Z).
  { intros l Hl. destruct Hvalid as [_ Hall]. specialize (Hall l Hl).
    unfold Claimed.label_in_range in Hall. cbn [Z.eqb Pos.eqb] in Hall.
    apply andb_prop in Hall. destruct Hall as [H1 H2].
    apply Z.leb_le in H1. apply Z.ltb_lt in H2. lia. }
  destruct (multiclass_dice_coeff_returns (image b) (Claimed.class_planes 0 2 (mask b))
              nb 2%nat [h; w] true default_epsilon Hi
              (shape_class_planes 0 2 (mask b) nb h w Hm ltac:(lia))) as [dl Hdl].
  exists (d, (0 + (1 - dl))%Q), (image b), (image b).
  split; [apply (to_channels_last_rank4 _ nb 2%nat h w Hi)|].
  split; [reflexivity|]. split; [|exact Hd].
  unfold Evaluate.batch_loss, Fixture.CrossEntropyLoss, Fixture.softmax_dim1.
  cbn [net_eval Fixture.net2 n_classes Z.eqb Pos.eqb bind snd].
  rewrite (one_hot_valid (mask b) 2) by (lia || exact Hrange). cbn [bind].
  change (Z.to_nat 2) with 2%nat.
  rewrite (permute_one_hot 2 (mask b) nb h w ltac:(lia) Hw Hm). cbn [bind].
  rewrite to_float_planes. unfold dice_loss. rewrite Hdl. reflexivity.
Qed.

(** An instance of [default_test_is_validation]: 330 items, of which 33 go
    to the validation split; the validation loader and the test loader
    yield one full batch of 32 each, and the two evaluations return the
    same pair of 0-dimensional tensors. *)
Lemma default_test_is_validation_witness :
  exists net train_set val_set train_score score loss,
    EvaluateDataset.scores Fixture.sigmoid Fixture.softmax_dim1 Fixture.CrossEntropyLoss
      Fixture.BCEWithLogitsLoss Fixture.load_net Fixture.CarvanaLarge
      Fixture.BasicDataset Fixture.random_split Fixture.args_default =
      Ok (net, (train_set, val_set, val_set),
          (train_score, Tuple (Tensor0 score) (Tensor0 loss),
           Tuple (Tensor0 score) (Tensor0 loss))) /\
    length train_set = 297%nat /\ length val_set = 33%nat /\
    length (snd (fst (loaders (train_set, val_set, val_set)))) = 1%nat /\
    length (snd (loaders (train_set, val_set, val_set))) = 1%nat.
Proof.
  pose (full := collate (Fixture.data 32)).
  pose (last := collate (Fixture.data 9)).
  assert (Hsplit : EvaluateDataset.splits Fixture.CarvanaLarge Fixture.BasicDataset
                     Fixture.random_split Fixture.args_default =
                   Ok (Fixture.data 297, Fixture.data 33, Fixture.data 33))
    by (vm_compute; reflexivity).
  assert (Htrain : fst (fst (loaders (Fixture.data 297, Fixture.data 33, Fixture.data 33))) =
                   repeat full 9 ++ [last]) by (vm_compute; reflexivity).
  assert (Hval : snd (fst (loaders (Fixture.data 297, Fixture.data 33, Fixture.data 33))) =
                 [full]) by (vm_compute; reflexivity).
  assert (Htest : snd (loaders (Fixture.data 297, Fixture.data 33, Fixture.data 33)) =
                  [full]) by (vm_compute; reflexivity).
  assert (Hfull : exists o, Observed.batch_outcome Fixture.sigmoid Fixture.softmax_dim1
                              (net_eval Fixture.net2) Fixture.CrossEntropyLoss full o).
  { apply (fixture_batch_outcome full 32 2 2);
      [vm_compute; reflexivity|vm_compute; reflexivity|lia|].
    apply valid_labels_check. vm_compute. reflexivity. }
  assert (Hlast : exists o, Observed.batch_outcome Fixture.sigmoid Fixture.softmax_dim1
                              (net_eval Fixture.net2) Fixture.CrossEntropyLoss last o).
  { apply (fixture_batch_outcome last 9 2 2);
      [vm_compute; reflexivity|vm_compute; reflexivity|lia|].
    apply valid_labels_check. vm_compute. reflexivity. }
  destruct (Forall_exists_Forall2
              (Observed.batch_outcome Fixture.sigmoid Fixture.softmax_dim1
                 (net_eval Fixture.net2) Fixture.CrossEntropyLoss)
              (repeat full 9 ++ [last])) as [outs1 H1].
  { apply Forall_app. split; [|constructor; [exact Hlast|constructor]].
    apply Forall_forall. intros x Hx. apply repeat_spec in Hx. subst x. exact Hfull. }
  destruct (Forall_exists_Forall2
              (Observed.batch_outcome Fixture.sigmoid Fixture.softmax_dim1
                 (net_eval Fixture.net2) Fixture.CrossEntropyLoss) [full]) as [outs2 H2].
  { constructor; [exact Hfull|constructor]. }
  destruct (scores_returns Fixture.sigmoid Fixture.softmax_dim1 Fixture.CrossEntropyLoss
              Fixture.BCEWithLogitsLoss Fixture.load_net Fixture.CarvanaLarge
              Fixture.BasicDataset Fixture.random_split Fixture.args_default
              Fixture.identity _ outs1 outs2 outs2 eq_refl Hsplit)
    as [s1 [s2 [s3 [E Hs2]]]].
  - rewrite Htrain. exact H1.
  - rewrite Hval. exact H2.
  - rewrite Htest. exact H2.
  - destruct (default_test_is_validation Fixture.sigmoid Fixture.softmax_dim1
                Fixture.CrossEntropyLoss Fixture.BCEWithLogitsLoss Fixture.load_net
                Fixture.CarvanaLarge Fixture.BasicDataset Fixture.random_split
                Fixture.args_default _ _ _ _ s1 s2 s3 eq_refl E) as [_ [_ ->]].
    destruct Hs2 as [score [loss ->]]; [rewrite Hval; discriminate|].
    eexists. exists (Fixture.data 297), (Fixture.data 33), s1, score, loss.
    split; [exact E|]. split; [apply repeat_length|]. split; [apply repeat_length|].
    rewrite Hval, Htest. split; reflexivity.
Defined.

(** An instance of [batch_score_one_class_channel_dim]. *)
Lemma batch_score_one_class_channel_dim_witness :
  exists e,
    Evaluate.batch_score Fixture.sigmoid Fixture.net1
      (Dim [Dim [Fixture.plane 1 (-1) 2 (-2)]; Dim [Fixture.plane 1 1 1 1]])
      (Dim [Fixture.labels 1 0 1 0; Fixture.labels 1 1 1 1]) = Raise e.
Proof.
  exact (batch_score_one_class_channel_dim Fixture.sigmoid Fixture.net1
           (Dim [Dim [Fixture.plane 1 (-1) 2 (-2)]; Dim [Fixture.plane 1 1 1 1]])
           (Dim [Fixture.labels 1 0 1 0; Fixture.labels 1 1 1 1])
           2%nat 2%nat 2%nat eq_refl eq_refl eq_refl).
Defined.
